(** * video-transcriber: the orchestration pipeline and its job ledger

    A shallow embedding of [core/pipeline.py] (class [TranscriptionPipeline]),
    of the provider contract of [providers/base.py], of the three methods of
    [AzureBatchProvider] of [providers/azure_batch.py], of two functions of
    [setup.py] and of [process_file] of [video_transcription_app.py], and of
    the part of Python's [json] module that the ledger file goes through
    ([json.dumps(..., indent=2)] and [json.loads]).

    Conventions.
    - A Python [str] is a [string]; every [ascii] stands for the code point of
      the same number (0..255).
    - A Python value that can live in the ledger is a [json] term.  A [dict]
      is an association list in insertion order, as CPython iterates it.
    - A Python [float] is represented by the decimal literal [repr] prints for
      it (Python guarantees [float(repr(x)) == x]); the model covers the
      fixed-point form, which is the one [time.time()] is printed in.
    - A [pathlib.Path] is the text [str] prints for it on a POSIX system;
      [path_str] is [str(Path(text))] for a text that is not yet a path.
    - Exceptions are instances of [Exception]; interpreter signals that are
      only [BaseException] (KeyboardInterrupt, SystemExit) are not modelled.
    - The outside world (remote service, clock, files other than the ledger)
      is an abstract state [W] threaded through every provider call. *)

From Stdlib Require Import List String Ascii Bool Arith ZArith NArith Lia.
From Stdlib Require Import Decimal DecimalString DecimalFacts DecimalPos DecimalN DecimalZ.
Import ListNotations.

#[local] Open Scope list_scope.
#[local] Open Scope string_scope.

(* ================================================================== *)
(** ** Characters and text *)

Module Text.

Definition dquote : ascii := Eval cbv in ascii_of_nat 34.
Definition newline : ascii := Eval cbv in ascii_of_nat 10.
Definition tab : ascii := Eval cbv in ascii_of_nat 9.
Definition cr : ascii := Eval cbv in ascii_of_nat 13.
Definition backspace : ascii := Eval cbv in ascii_of_nat 8.
Definition formfeed : ascii := Eval cbv in ascii_of_nat 12.

Definition str1 (c : ascii) : string := String c EmptyString.

(** [ch.lower()] on the code points 0..255: ASCII capitals and the Latin-1
    capitals U+00C0..U+00DE (without the multiplication sign U+00D7). *)
Definition lower_char (c : ascii) : ascii :=
  let n := nat_of_ascii c in
  if (((65 <=? n) && (n <=? 90)) || ((192 <=? n) && (n <=? 222) && negb (n =? 215)))%nat
  then ascii_of_nat (n + 32) else c.

(** [str.lower()] *)
Fixpoint lower (s : string) : string :=
  match s with
  | EmptyString => EmptyString
  | String c r => String (lower_char c) (lower r)
  end.

(** [s.startswith(p)] *)
Fixpoint startswith (p s : string) : bool :=
  match p with
  | EmptyString => true
  | String a p' =>
      match s with
      | String b s' => Ascii.eqb a b && startswith p' s'
      | EmptyString => false
      end
  end.

(** [" " * n] *)
Fixpoint spaces (n : nat) : string :=
  match n with
  | 0 => EmptyString
  | S k => String " " (spaces k)
  end.

(** [s.rfind(c)]: the index of the last occurrence of [c], if any. *)
Fixpoint rfind (c : ascii) (s : string) : option nat :=
  match s with
  | EmptyString => None
  | String a r =>
      match rfind c r with
      | Some i => Some (S i)
      | None => if Ascii.eqb a c then Some 0 else None
      end
  end.

(** [s[i:]] *)
Fixpoint drop (i : nat) (s : string) : string :=
  match i, s with
  | 0, _ => s
  | S k, String _ r => drop k r
  | S _, EmptyString => EmptyString
  end.

(** [PurePath.name]: the final component of a path. *)
Definition path_name (p : string) : string :=
  match rfind "/" p with
  | Some i => drop (S i) p
  | None => p
  end.

(** [PurePath.suffix]:
    [i = name.rfind('.'); name[i:] if 0 < i < len(name) - 1 else ''] *)
Definition path_suffix (p : string) : string :=
  let name := path_name p in
  match rfind "." name with
  | Some i =>
      if ((0 <? i) && (i <? String.length name - 1))%nat then drop i name else ""
  | None => ""
  end.

(** [x in {...}] for a [str] x and a set of [str]. *)
Definition mem (x : string) (l : list string) : bool :=
  existsb (String.eqb x) l.

(** The pieces of [s] between the occurrences of [sep]: the first piece and
    the pieces after it. *)
Fixpoint pieces (sep : ascii) (s : string) : string * list string :=
  match s with
  | EmptyString => (EmptyString, [])
  | String c r =>
      let (x, xs) := pieces sep r in
      if Ascii.eqb c sep then (EmptyString, x :: xs) else (String c x, xs)
  end.

(** [s.split(sep)] for a single character [sep]. *)
Definition split (sep : ascii) (s : string) : list string :=
  let (x, xs) := pieces sep s in x :: xs.

(** [sep.join(parts)] *)
Fixpoint join (sep : string) (parts : list string) : string :=
  match parts with
  | [] => EmptyString
  | x :: rest =>
      match rest with
      | [] => x
      | _ :: _ => x ++ sep ++ join sep rest
      end
  end.

(** [len(s) - len(s.lstrip(c))] *)
Fixpoint leading (c : ascii) (s : string) : nat :=
  match s with
  | String a r => if Ascii.eqb a c then S (leading c r) else 0
  | EmptyString => 0
  end.

(** A component [pathlib] keeps when it parses a path: neither empty nor
    a single dot. *)
Definition kept_part (x : string) : bool :=
  negb (String.eqb x "" || String.eqb x ".").

(** [str(Path(text))] on a POSIX system: the root is [//] when the text
    starts with exactly two slashes and [/] when it starts with any other
    number of them, empty components and [.] components are dropped, the
    others are joined by one slash, and the empty path is printed [.]. *)
Definition path_str (text : string) : string :=
  let root :=
    match leading "/" text with
    | 0 => ""
    | 2 => "//"
    | _ => "/"
    end in
  match root ++ join "/" (filter kept_part (split "/" text)) with
  | EmptyString => "."
  | p => p
  end.

End Text.
Import Text.

(* ================================================================== *)
(** ** Ledger values and dictionaries *)

(** A finite [float], by the literal [repr] prints: sign, whole part and the
    digits after the point ([1730000000.25] is [false, 1730000000, 25]). *)
Record pyfloat := PyFloat { f_neg : bool; f_whole : N; f_frac : uint }.

#[warnings="-register-all"] Inductive json :=
| JNull
| JBool (b : bool)
| JInt (z : Z)
| JFloat (f : pyfloat)
| JStr (s : string)
| JList (l : list json)
| JDict (d : list (string * json)).

(** A [dict] with [str] keys, in insertion order. *)
Definition dict := list (string * json).

Section JsonInd.
Variable P : json -> Prop.
Hypothesis Hnull : P JNull.
Hypothesis Hbool : forall b, P (JBool b).
Hypothesis Hint : forall z, P (JInt z).
Hypothesis Hfloat : forall f, P (JFloat f).
Hypothesis Hstr : forall s, P (JStr s).
Hypothesis Hlist : forall l, Forall P l -> P (JList l).
Hypothesis Hdict : forall d, Forall (fun kv => P (snd kv)) d -> P (JDict d).

Fixpoint json_rect' (v : json) : P v :=
  match v with
  | JNull => Hnull
  | JBool b => Hbool b
  | JInt z => Hint z
  | JFloat f => Hfloat f
  | JStr s => Hstr s
  | JList l =>
      Hlist l ((fix go (l : list json) : Forall P l :=
                  match l with
                  | [] => Forall_nil _
                  | x :: xs => Forall_cons _ (json_rect' x) (go xs)
                  end) l)
  | JDict d =>
      Hdict d ((fix go (d : dict) : Forall (fun kv => P (snd kv)) d :=
                  match d with
                  | [] => Forall_nil _
                  | kv :: xs => Forall_cons _ (json_rect' (snd kv)) (go xs)
                  end) d)
  end.
End JsonInd.

Module Dict.

(** [d.get(k)] as an option; [d[k]] when the key is known to be there. *)
Fixpoint get (k : string) (d : dict) : option json :=
  match d with
  | [] => None
  | (k', v) :: r => if String.eqb k k' then Some v else get k r
  end.

(** [d.get(k, default)] *)
Definition get_default (k : string) (d : dict) (default : json) : json :=
  match get k d with
  | Some v => v
  | None => default
  end.

(** [d[k] = v]: an existing key keeps its place, a new key goes last. *)
Fixpoint set (k : string) (v : json) (d : dict) : dict :=
  match d with
  | [] => [(k, v)]
  | (k', v') :: r =>
      if String.eqb k k' then (k, v) :: r else (k', v') :: set k v r
  end.

Definition keys (d : dict) : list string := map fst d.

(** [dict(pairs)], as [json.loads] builds an object from its members. *)
Definition of_pairs (pairs : list (string * json)) : dict :=
  fold_left (fun d kv => set (fst kv) (snd kv) d) pairs [].

End Dict.

(* ================================================================== *)
(** ** Python's [json] module, as the ledger file uses it *)

Module Json.

(** *** [json.dumps(obj, indent=2)] *)

Definition hex_digit (n : nat) : ascii :=
  if (n <? 10)%nat then ascii_of_nat (48 + n) else ascii_of_nat (87 + n).

(** One character of [py_encode_basestring_ascii]: the short escapes of
    [ESCAPE_DCT], printable ASCII as it is, everything else as [\u00xx]. *)
Definition escape_char (c : ascii) : string :=
  if Ascii.eqb c dquote then String "\" (str1 dquote)
  else if Ascii.eqb c "\" then "\\"
  else if Ascii.eqb c newline then "\n"
  else if Ascii.eqb c cr then "\r"
  else if Ascii.eqb c tab then "\t"
  else if Ascii.eqb c backspace then "\b"
  else if Ascii.eqb c formfeed then "\f"
  else
    let n := nat_of_ascii c in
    if ((32 <=? n) && (n <=? 126))%nat then str1 c
    else "\u00" ++ String (hex_digit (n / 16)) (str1 (hex_digit (n mod 16))).

Fixpoint escape (s : string) : string :=
  match s with
  | EmptyString => EmptyString
  | String c r => escape_char c ++ escape r
  end.

Definition encode_str (s : string) : string :=
  String dquote (escape s ++ str1 dquote).

(** [int.__repr__] *)
Definition int_repr (z : Z) : string := NilEmpty.string_of_int (Z.to_int z).

(** [float.__repr__], fixed-point form *)
Definition float_repr (f : pyfloat) : string :=
  (if f_neg f then "-" else "")
    ++ NilEmpty.string_of_uint (N.to_uint (f_whole f))
    ++ "." ++ NilEmpty.string_of_uint (f_frac f).

(** ['\n' + indent * level], with [indent = 2] spaces *)
Definition newline_indent (level : nat) : string :=
  String newline (spaces (2 * level)).

(** The tail of a container: every further item after the separator, then
    the closing text. *)
Section Items.
Context {A : Type} (enc : A -> string) (sep close : string).

Fixpoint items (l : list A) : string :=
  match l with
  | [] => close
  | y :: ys => sep ++ enc y ++ items ys
  end.
End Items.

(** [_iterencode] with its two helpers [_iterencode_list] and
    [_iterencode_dict]; the item separator is [","] followed by
    [newline_indent], the key separator is [": "]. *)
Fixpoint iterencode (level : nat) (v : json) {struct v} : string :=
  match v with
  | JNull => "null"
  | JBool true => "true"
  | JBool false => "false"
  | JInt z => int_repr z
  | JFloat f => float_repr f
  | JStr s => encode_str s
  | JList [] => "[]"
  | JList (x :: xs) =>
      "[" ++ newline_indent (S level) ++ iterencode (S level) x
        ++ items (iterencode (S level))
             ("," ++ newline_indent (S level))
             (newline_indent level ++ "]") xs
  | JDict [] => "{}"
  | JDict ((k, x) :: kvs) =>
      "{" ++ newline_indent (S level) ++ encode_str k ++ ": "
        ++ iterencode (S level) x
        ++ items (fun kv => encode_str (fst kv) ++ ": "
                              ++ iterencode (S level) (snd kv))
             ("," ++ newline_indent (S level))
             (newline_indent level ++ "}") kvs
  end.

Definition dumps (v : json) : string := iterencode 0 v.

(** *** [json.loads] *)

Definition is_ws (c : ascii) : bool :=
  Ascii.eqb c " " || Ascii.eqb c tab || Ascii.eqb c newline || Ascii.eqb c cr.

Fixpoint skip_ws (s : string) : string :=
  match s with
  | String c r => if is_ws c then skip_ws r else s
  | EmptyString => s
  end.

Definition is_digit (c : ascii) : bool :=
  let n := nat_of_ascii c in ((48 <=? n) && (n <=? 57))%nat.

(** The longest prefix of digits, and what follows it. *)
Fixpoint span_digits (s : string) : string * string :=
  match s with
  | String c r =>
      if is_digit c then let (ds, rest) := span_digits r in (String c ds, rest)
      else (EmptyString, s)
  | EmptyString => (EmptyString, EmptyString)
  end.

Definition hex_value (c : ascii) : option nat :=
  let n := nat_of_ascii c in
  if ((48 <=? n) && (n <=? 57))%nat then Some (n - 48)
  else if ((97 <=? n) && (n <=? 102))%nat then Some (n - 87)
  else if ((65 <=? n) && (n <=? 70))%nat then Some (n - 55)
  else None.

(** The character of a [\uXXXX] escape; [None] when the digits are not
    hexadecimal or the code point is above 255. *)
Definition unicode_escape (a b c d : ascii) : option ascii :=
  match hex_value a, hex_value b, hex_value c, hex_value d with
  | Some 0, Some 0, Some h, Some l => Some (ascii_of_nat (16 * h + l))
  | _, _, _, _ => None
  end.

(** The [BACKSLASH] table of [json.decoder]. *)
Definition unescape (c : ascii) : option ascii :=
  if Ascii.eqb c dquote then Some dquote
  else if Ascii.eqb c "\" then Some "\"%char
  else if Ascii.eqb c "/" then Some "/"%char
  else if Ascii.eqb c "b" then Some backspace
  else if Ascii.eqb c "f" then Some formfeed
  else if Ascii.eqb c "n" then Some newline
  else if Ascii.eqb c "r" then Some cr
  else if Ascii.eqb c "t" then Some tab
  else None.

Definition cons_char (c : ascii) (r : option (string * string)) :=
  match r with
  | Some (s, rest) => Some (String c s, rest)
  | None => None
  end.

(** [py_scanstring] in strict mode, from just after the opening quote:
    the decoded string and the text after the closing quote. *)
Fixpoint scanstring (s : string) : option (string * string) :=
  match s with
  | EmptyString => None
  | String c r =>
      if Ascii.eqb c dquote then Some (EmptyString, r)
      else if Ascii.eqb c "\" then
        match r with
        | String e r1 =>
            if Ascii.eqb e "u" then
              match r1 with
              | String h1 (String h2 (String h3 (String h4 r2))) =>
                  match unicode_escape h1 h2 h3 h4 with
                  | Some ch => cons_char ch (scanstring r2)
                  | None => None
                  end
              | _ => None
              end
            else
              match unescape e with
              | Some ch => cons_char ch (scanstring r1)
              | None => None
              end
        | EmptyString => None
        end
      else if (nat_of_ascii c <? 32)%nat then None
      else cons_char c (scanstring r)
  end.

Definition starts_exponent (s : string) : bool :=
  match s with
  | String c _ => Ascii.eqb c "e" || Ascii.eqb c "E"
  | EmptyString => false
  end.

(** Digits of a JSON integer part: [0] or a digit string without a
    leading zero. *)
Definition canonical_digits (ds : string) : bool :=
  match ds with
  | EmptyString => false
  | String c EmptyString => true
  | String c _ => negb (Ascii.eqb c "0")
  end.

(** The optional minus sign of [NUMBER_RE]. *)
Definition split_sign (s : string) : bool * string :=
  match s with
  | String c r => if Ascii.eqb c "-" then (true, r) else (false, s)
  | EmptyString => (false, s)
  end.

(** [NUMBER_RE], without exponents: an integer literal gives an [int], a
    literal with a fraction gives a [float]. *)
Definition parse_number (s : string) : option (json * string) :=
  let (neg, s1) := split_sign s in
  let (ds, s2) := span_digits s1 in
  if canonical_digits ds then
    match NilEmpty.uint_of_string ds with
    | Some u =>
        match s2 with
        | String c r =>
            if Ascii.eqb c "." then
              let (fs, s3) := span_digits r in
              match fs, NilEmpty.uint_of_string fs with
              | String _ _, Some fr =>
                  if starts_exponent s3 then None
                  else Some (JFloat (PyFloat neg (N.of_uint u) fr), s3)
              | _, _ => None
              end
            else if starts_exponent s2 then None
            else Some (JInt (Z.of_int (if neg then Neg u else Pos u)), s2)
        | EmptyString =>
            Some (JInt (Z.of_int (if neg then Neg u else Pos u)), s2)
        end
    | None => None
    end
  else None.

Definition with_value {A B : Type} (f : A -> B) (r : option (A * string))
  : option (B * string) :=
  match r with
  | Some (a, rest) => Some (f a, rest)
  | None => None
  end.

(** [scan_once] with [JSONObject] and [JSONArray].  [parse_members] and
    [parse_elements] start at the first key (resp. element) and end after
    the closing bracket.  The fuel bounds the number of nested calls;
    [None] is a [JSONDecodeError] (or a literal outside the model:
    exponents, [NaN], [Infinity], code points above 255). *)
Fixpoint parse_value (fuel : nat) (s : string) {struct fuel}
  : option (json * string) :=
  match fuel with
  | 0 => None
  | S n =>
      match s with
      | EmptyString => None
      | String c r =>
          if Ascii.eqb c dquote then with_value JStr (scanstring r)
          else if Ascii.eqb c "{" then
            match skip_ws r with
            | String c1 r1 =>
                if Ascii.eqb c1 "}" then Some (JDict [], r1)
                else with_value (fun ps => JDict (Dict.of_pairs ps))
                       (parse_members n (String c1 r1))
            | EmptyString => None
            end
          else if Ascii.eqb c "[" then
            match skip_ws r with
            | String c1 r1 =>
                if Ascii.eqb c1 "]" then Some (JList [], r1)
                else with_value JList (parse_elements n (String c1 r1))
            | EmptyString => None
            end
          else if startswith "null" s then Some (JNull, drop 4 s)
          else if startswith "true" s then Some (JBool true, drop 4 s)
          else if startswith "false" s then Some (JBool false, drop 5 s)
          else parse_number s
      end
  end
with parse_members (fuel : nat) (s : string) {struct fuel}
  : option (list (string * json) * string) :=
  match fuel with
  | 0 => None
  | S n =>
      match s with
      | String c r =>
          if Ascii.eqb c dquote then
            match scanstring r with
            | Some (k, r1) =>
                match skip_ws r1 with
                | String c2 r2 =>
                    if Ascii.eqb c2 ":" then
                      match parse_value n (skip_ws r2) with
                      | Some (v, r3) =>
                          match skip_ws r3 with
                          | String c4 r4 =>
                              if Ascii.eqb c4 "}" then Some ([(k, v)], r4)
                              else if Ascii.eqb c4 "," then
                                with_value (cons (k, v))
                                  (parse_members n (skip_ws r4))
                              else None
                          | EmptyString => None
                          end
                      | None => None
                      end
                    else None
                | EmptyString => None
                end
            | None => None
            end
          else None
      | EmptyString => None
      end
  end
with parse_elements (fuel : nat) (s : string) {struct fuel}
  : option (list json * string) :=
  match fuel with
  | 0 => None
  | S n =>
      match parse_value n s with
      | Some (v, r1) =>
          match skip_ws r1 with
          | String c2 r2 =>
              if Ascii.eqb c2 "]" then Some ([v], r2)
              else if Ascii.eqb c2 "," then
                with_value (cons v) (parse_elements n (skip_ws r2))
              else None
          | EmptyString => None
          end
      | None => None
      end
  end.

(** [json.loads(text)]: one value, surrounded by white space only. *)
Definition loads (text : string) : option json :=
  match parse_value (String.length text) (skip_ws text) with
  | Some (v, rest) =>
      match skip_ws rest with
      | EmptyString => Some v
      | String _ _ => None
      end
  | None => None
  end.

End Json.

(* ================================================================== *)
(** ** Exceptions, provider contract, pipeline state *)

(** An instance of a Python [Exception] subclass: class name and message. *)
Inductive exn := Exn (cls : string) (msg : string).

Inductive result (A : Type) :=
| Ok (a : A)
| Raise (e : exn).
Arguments Ok {A} a.
Arguments Raise {A} e.

(** [providers/base.py], [AbstractTranscriptionProvider]: the three abstract
    methods, each acting on the outside world [W].  ([cancel_job] is never
    called by the pipeline.) *)
Class AbstractTranscriptionProvider (W : Type) := {
  submit_job : string -> string -> W -> result string * W;
  job_status : string -> W -> result dict * W;
  fetch_result : string -> string -> W -> result string * W;
}.

(** The records handed to [logger.info] and [logger.error]. *)
Inductive log_record :=
| LogSubmitted (name job_id : string)          (* info, submit_single *)
| LogSubmitFailed (name : string) (exc : exn)  (* error, submit_batch *)
| LogNoUnfinished                              (* info, poll *)
| LogJobState (job_id : string) (state : json) (* info, poll *)
| LogDownloaded (job_id path : string)         (* info, _download_result *)
| LogFetchFailed (job_id : string) (exc : exn). (* error, _download_result *)

(** What the pipeline does to the outside, in order. *)
Inductive event :=
| ESubmit (media language : string) (r : result string)
| EStatus (job_id : string) (r : result dict)
| EFetch (job_id destination : string) (r : result string)
| ESave (text : string)
| ESleep (secs : Z)
| ELog (l : log_record).

Definition is_error_log (e : event) : bool :=
  match e with
  | ELog (LogSubmitFailed _ _) | ELog (LogFetchFailed _ _) => true
  | _ => false
  end.

Definition is_provider_call (e : event) : bool :=
  match e with
  | ESubmit _ _ _ | EStatus _ _ | EFetch _ _ _ => true
  | _ => false
  end.

Definition is_save (e : event) : bool :=
  match e with ESave _ => true | _ => false end.

Definition is_sleep (e : event) : bool :=
  match e with ESleep _ => true | _ => false end.

Definition is_status_of (job_id : string) (e : event) : bool :=
  match e with EStatus j _ => String.eqb j job_id | _ => false end.

Definition is_fetch_of (job_id : string) (e : event) : bool :=
  match e with EFetch j _ _ => String.eqb j job_id | _ => false end.

(** ** [x in {...}] and item assignment on ledger values *)

(** [v in strs] for a set of [str]: lists and dicts are unhashable. *)
Definition py_in (v : json) (strs : list string) : result bool :=
  match v with
  | JStr s => Ok (mem s strs)
  | JList _ => Raise (Exn "TypeError" "unhashable type: 'list'")
  | JDict _ => Raise (Exn "TypeError" "unhashable type: 'dict'")
  | JNull | JBool _ | JInt _ | JFloat _ => Ok false
  end.

(** [meta.get("state")] *)
Definition meta_get_state (meta : json) : result json :=
  match meta with
  | JDict d => Ok (Dict.get_default "state" d JNull)
  | _ => Raise (Exn "AttributeError" "object has no attribute 'get'")
  end.

(** [jobs[job_id][field] = v] *)
Definition set_field (job_id field : string) (v : json) (jobs : dict)
  : result dict :=
  match Dict.get job_id jobs with
  | None => Raise (Exn "KeyError" job_id)
  | Some (JDict meta) => Ok (Dict.set job_id (JDict (Dict.set field v meta)) jobs)
  | Some _ => Raise (Exn "TypeError" "object does not support item assignment")
  end.

(** [unfinished.pop(job_id)], on the keys of [unfinished] *)
Definition pop (job_id : string) (unfinished : list string) : list string :=
  filter (fun j => negb (String.eqb j job_id)) unfinished.

Section Pipeline.

Context {W : Type} {provider : AbstractTranscriptionProvider W}.

(** [time.time()], read off the world. *)
Variable time_time : W -> pyfloat.

(** [Path.expanduser().resolve()] *)
Variable resolve : string -> string.

(** [directory.rglob("*")], in the order the file system yields. *)
Variable rglob : string -> list string.

(** [TranscriptionPipeline], with the ledger file and a trace of effects:
    [jobs] is [self._jobs], [disk] the text of [self.job_log_path] when the
    file exists. *)
Record pipeline := Pipeline {
  world : W;
  jobs : dict;
  disk : option string;
  trace : list event;
}.

Definition emit (e : event) (s : pipeline) : pipeline :=
  Pipeline (world s) (jobs s) (disk s) (trace s ++ [e])%list.

Definition with_world (w : W) (s : pipeline) : pipeline :=
  Pipeline w (jobs s) (disk s) (trace s).

Definition with_jobs (j : dict) (s : pipeline) : pipeline :=
  Pipeline (world s) j (disk s) (trace s).

(** A method call ends by returning, by raising, or is still running when
    the fuel is spent; the state reached is kept in each case. *)
Inductive outcome (A : Type) :=
| Returned (a : A) (s : pipeline)
| Raised (e : exn) (s : pipeline)
| Running (s : pipeline).
Arguments Returned {A} a s.
Arguments Raised {A} e s.
Arguments Running {A} s.

Definition state_of {A} (o : outcome A) : pipeline :=
  match o with
  | Returned _ s | Raised _ s | Running s => s
  end.

Definition M (A : Type) := pipeline -> outcome A.

Definition ret {A} (a : A) : M A := fun s => Returned a s.

Definition bind {A B} (m : M A) (k : A -> M B) : M B :=
  fun s =>
    match m s with
    | Returned a s1 => k a s1
    | Raised e s1 => Raised e s1
    | Running s1 => Running s1
    end.

Definition raise {A} (e : exn) : M A := fun s => Raised e s.

Definition lift {A} (r : result A) : M A :=
  match r with
  | Ok a => ret a
  | Raise e => raise e
  end.

Definition tell (e : event) : M unit := fun s => Returned tt (emit e s).

#[local] Notation "x <- m ;; k" := (bind m (fun x => k))
  (at level 61, m at next level, right associativity).
#[local] Notation "m ;;; k" := (bind m (fun _ => k))
  (at level 61, right associativity).

(** *** Ledger file *)

(** [_load_jobs]: the decoded file when it exists, else [{}]. *)
Definition _load_jobs (file : option string) : result json :=
  match file with
  | Some text =>
      match Json.loads text with
      | Some v => Ok v
      | None => Raise (Exn "JSONDecodeError" "")
      end
  | None => Ok (JDict [])
  end.

(** [_save_jobs]: overwrite the file with [json.dumps(self._jobs, indent=2)]. *)
Definition _save_jobs : M unit :=
  fun s =>
    let text := Json.dumps (JDict (jobs s)) in
    Returned tt
      (Pipeline (world s) (jobs s) (Some text) (trace s ++ [ESave text])%list).

(** *** Provider calls, recorded in the trace *)

Definition call_submit (media language : string) : M string :=
  fun s =>
    let (r, w) := submit_job media language (world s) in
    lift r (emit (ESubmit media language r) (with_world w s)).

Definition call_status (job_id : string) : M dict :=
  fun s =>
    let (r, w) := job_status job_id (world s) in
    lift r (emit (EStatus job_id r) (with_world w s)).

Definition call_fetch (job_id destination : string) : M string :=
  fun s =>
    let (r, w) := fetch_result job_id destination (world s) in
    lift r (emit (EFetch job_id destination r) (with_world w s)).

(** [try: body  except Exception as exc: handler(exc)] *)
Definition try_except {A} (body : M A) (handler : exn -> M A) : M A :=
  fun s =>
    match body s with
    | Raised e s1 => handler e s1
    | o => o
    end.

(** [time.sleep(secs)] *)
Definition sleep (secs : Z) : M unit :=
  if (secs <? 0)%Z
  then raise (Exn "ValueError" "sleep length must be non-negative")
  else tell (ESleep secs).

(** *** Public entry points *)

Definition supported_suffixes : list string :=
  [".mp4"; ".wav"; ".mp3"; ".mkv"; ".flac"].

Definition terminal_states : list string := ["succeeded"; "failed"].

Definition finished_states : list string :=
  ["Succeeded"; "Failed"; "succeeded"; "failed"].

(** [submit_single] *)
Definition submit_single (media language : string) : M string :=
  let media := resolve media in
  job_id <- call_submit media language ;;
  (fun s =>
     let meta := JDict [("file", JStr media);
                        ("submitted", JFloat (time_time (world s)));
                        ("language", JStr language);
                        ("state", JStr "submitted")] in
     Returned tt (with_jobs (Dict.set job_id meta (jobs s)) s)) ;;;
  _save_jobs ;;;
  tell (ELog (LogSubmitted (path_name media) job_id)) ;;;
  ret job_id.

(** The [for path in directory.rglob("*")] loop of [submit_batch]. *)
Fixpoint submit_paths (paths : list string) (language : string)
    (acc : list string) : M (list string) :=
  match paths with
  | [] => ret acc
  | path :: rest =>
      if mem (lower (path_suffix path)) supported_suffixes then
        acc' <- try_except
                  (job_id <- submit_single path language ;;
                   ret (acc ++ [job_id])%list)
                  (fun exc =>
                     tell (ELog (LogSubmitFailed (path_name path) exc)) ;;;
                     ret acc) ;;
        submit_paths rest language acc'
      else submit_paths rest language acc
  end.

(** [submit_batch] *)
Definition submit_batch (directory language : string) : M (list string) :=
  submit_paths (rglob (resolve directory)) language [].

(** [_download_result] *)
Definition _download_result (job_id : string) : M unit :=
  let dest := path_str (job_id ++ "_transcript.json") in
  try_except
    (path <- call_fetch job_id dest ;;
     (fun s =>
        match set_field job_id "result" (JStr path) (jobs s) with
        | Ok j => Returned tt (with_jobs j s)
        | Raise e => Raised e s
        end) ;;;
     tell (ELog (LogDownloaded job_id path)))
    (fun exc => tell (ELog (LogFetchFailed job_id exc))).

(** The comprehension that opens [poll]: the ids whose
    [meta.get("state")] is not in [{"succeeded", "failed"}]. *)
Fixpoint unfinished_of (items : dict) : result (list string) :=
  match items with
  | [] => Ok []
  | (jid, meta) :: rest =>
      match meta_get_state meta with
      | Raise e => Raise e
      | Ok st =>
          match py_in st terminal_states with
          | Raise e => Raise e
          | Ok b =>
              match unfinished_of rest with
              | Raise e => Raise e
              | Ok us => Ok (if b then us else jid :: us)
              end
          end
      end
  end.

(** The body of [for job_id in list(unfinished)]: the pending ids after
    the visit. *)
Definition poll_visit (job_id : string) (unfinished : list string)
  : M (list string) :=
  status <- call_status job_id ;;
  let state := Dict.get_default "state" status (JStr "unknown") in
  (fun s =>
     match set_field job_id "state" state (jobs s) with
     | Ok j => Returned tt (with_jobs j s)
     | Raise e => Raised e s
     end) ;;;
  tell (ELog (LogJobState job_id state)) ;;;
  finished <- lift (py_in state finished_states) ;;
  if finished : bool then
    (match state with
     | JStr st =>
         if startswith "succ" (lower st) then _download_result job_id
         else ret tt
     | _ => ret tt
     end) ;;;
    let unfinished := pop job_id unfinished in
    _save_jobs ;;;
    ret unfinished
  else ret unfinished.

(** One sweep over the snapshot [list(unfinished)]. *)
Fixpoint poll_sweep (snapshot unfinished : list string) : M (list string) :=
  match snapshot with
  | [] => ret unfinished
  | job_id :: rest =>
      unfinished' <- poll_visit job_id unfinished ;;
      poll_sweep rest unfinished'
  end.

(** [while unfinished: ...]; one unit of fuel per sweep. *)
Fixpoint poll_loop (fuel : nat) (interval_sec : Z) (unfinished : list string)
  : M unit :=
  match unfinished with
  | [] => ret tt
  | _ :: _ =>
      match fuel with
      | 0 => fun s => Running s
      | S fuel' =>
          unfinished' <- poll_sweep unfinished unfinished ;;
          match unfinished' with
          | [] => ret tt
          | _ :: _ =>
              sleep interval_sec ;;;
              poll_loop fuel' interval_sec unfinished'
          end
      end
  end.

(** [poll] *)
Definition poll (fuel : nat) (interval_sec : Z) : M unit :=
  unfinished <- (fun s => lift (unfinished_of (jobs s)) s) ;;
  match unfinished with
  | [] => tell (ELog LogNoUnfinished)
  | _ :: _ => poll_loop fuel interval_sec unfinished
  end.

(** Any number of [poll] calls on the same pipeline object, whatever way
    each one ended. *)
Fixpoint poll_many (calls : list (nat * Z)) (s : pipeline) : pipeline :=
  match calls with
  | [] => s
  | (fuel, interval_sec) :: rest =>
      poll_many rest (state_of (poll fuel interval_sec s))
  end.

End Pipeline.

Arguments Returned {W A} a s.
Arguments Raised {W A} e s.
Arguments Running {W A} s.
Arguments Pipeline {W} world jobs disk trace.

(* ================================================================== *)
(** ** [AzureBatchProvider.job_status] *)

Section Azure.

Context {W : Type}.

(** [requests.get(url, headers=...)], [raise_for_status()] and [r.json()]:
    the decoded body, or the error raised on the way. *)
Variable http_get_json : string -> W -> result json * W.

(** [self._base_url] *)
Variable base_url : string.

(** [return {"state": data.get("status"), "raw": data}] *)
Definition azure_job_status (job_id : string) (w : W) : result dict * W :=
  let url := base_url ++ "/transcriptions/" ++ job_id in
  match http_get_json url w with
  | (Ok (JDict data), w') =>
      (Ok [("state", Dict.get_default "status" data JNull);
           ("raw", JDict data)], w')
  | (Ok _, w') =>
      (Raise (Exn "AttributeError" "object has no attribute 'get'"), w')
  | (Raise e, w') => (Raise e, w')
  end.

(** The provider, given its two other methods. *)
Definition AzureBatchProvider
    (submit : string -> string -> W -> result string * W)
    (fetch : string -> string -> W -> result string * W)
  : AbstractTranscriptionProvider W :=
  {| submit_job := submit;
     job_status := azure_job_status;
     fetch_result := fetch |}.

End Azure.

(* ================================================================== *)
(** ** Predicates the statements use *)

(** The record's [state] is the string [succeeded] or [failed]. *)
Definition is_terminal (meta : json) : bool :=
  match meta with
  | JDict d =>
      match Dict.get "state" d with
      | Some (JStr st) => mem st ["succeeded"; "failed"]
      | _ => false
      end
  | _ => false
  end.

(** The four states of the provider contract ([job_status] docstring). *)
Definition canonical_states : list string :=
  ["queued"; "running"; "succeeded"; "failed"].

Definition supported (path : string) : bool :=
  mem (lower (path_suffix path)) [".mp4"; ".wav"; ".mp3"; ".mkv"; ".flac"].

(** No call of [job_status] or [fetch_result] for [job_id]. *)
Definition quiet_about (job_id : string) (t : list event) : bool :=
  forallb (fun e => negb (is_status_of job_id e || is_fetch_of job_id e)) t.

(** Values that [json.dumps] followed by [json.loads] gives back: the keys of
    every dict are pairwise distinct (as in any Python dict) and every float
    literal has a digit after the point (as [repr] prints it). *)
Fixpoint wf_json (v : json) : Prop :=
  match v with
  | JFloat f => f_frac f <> Nil
  | JList l =>
      (fix all (l : list json) : Prop :=
         match l with
         | [] => True
         | x :: xs => wf_json x /\ all xs
         end) l
  | JDict d =>
      NoDup (Dict.keys d) /\
      (fix all (d : list (string * json)) : Prop :=
         match d with
         | [] => True
         | (_, x) :: xs => wf_json x /\ all xs
         end) d
  | _ => True
  end.

(** A bound on the nesting of calls [json.loads] needs for a value. *)
Fixpoint json_size (v : json) : nat :=
  match v with
  | JList l => S (list_sum (map (fun x => S (json_size x)) l))
  | JDict d => S (list_sum (map (fun kv => S (json_size (snd kv))) d))
  | _ => 1
  end.

(** Text that may follow a number: it starts with no digit, point or
    exponent mark. *)
Definition ends_number (rest : string) : bool :=
  match rest with
  | EmptyString => true
  | String c _ =>
      negb (Json.is_digit c || Ascii.eqb c "." || Ascii.eqb c "e" || Ascii.eqb c "E")
  end.

(** The characters a printed number starts with. *)
Definition starts_number (c : ascii) : bool :=
  Json.is_digit c || Ascii.eqb c "-".

(** A value that is read back from its printed form, printed at any level
    and followed by any text a number may end before; the text is left. *)
Definition reads_back (v : json) : Prop :=
  wf_json v ->
  forall level rest n,
    json_size v <= n ->
    ends_number rest = true ->
    Json.parse_value n (Json.iterencode level v ++ rest) = Some (v, rest).

(** [s'] comes after [s] with the entry of [job_id] as it was, the same
    keys in the ledger, and no [job_status] or [fetch_result] call for
    [job_id] in between. *)
Definition untouched {W : Type} (job_id : string) (s s' : @pipeline W) : Prop :=
  Dict.get job_id (jobs s') = Dict.get job_id (jobs s)
  /\ Dict.keys (jobs s') = Dict.keys (jobs s)
  /\ exists t, trace s' = (trace s ++ t)%list /\ quiet_about job_id t = true.

(** Every run of [m] ends in a state related to the one it started in. *)
Definition preserves {W A : Type} (R : @pipeline W -> @pipeline W -> Prop)
    (m : @M W A) : Prop :=
  forall s, R s (state_of (m s)).

(** Every value [m] returns satisfies [P]. *)
Definition returns {W A : Type} (P : A -> Prop) (m : @M W A) : Prop :=
  forall s a s', m s = Returned a s' -> P a.

(** *** What the provider does with a batch

    The behaviour of the provider on a list of files, read off the provider
    alone: this is what the batch that [submit_batch] runs is held
    against. *)

Section Submissions.

Context {W : Type} {provider : AbstractTranscriptionProvider W}.
Variable time_time : W -> pyfloat.
Variable resolve : string -> string.

(** The answers of [submit_job] to the files of [paths], asked one after
    the other, each call starting in the world the call before left.  An
    entry holds the file, the answer and the world after the call. *)
Fixpoint submissions (paths : list string) (language : string) (w : W)
  : list (string * result string * W) :=
  match paths with
  | [] => []
  | path :: rest =>
      let (r, w') := submit_job (resolve path) language w in
      (path, r, w') :: submissions rest language w'
  end.

(** The job ids of the submissions that went through, in order. *)
Fixpoint accepted (rs : list (string * result string * W)) : list string :=
  match rs with
  | [] => []
  | (_, Ok job_id, _) :: rest => job_id :: accepted rest
  | (_, Raise _, _) :: rest => accepted rest
  end.

(** The world the last call left. *)
Fixpoint world_after (w : W) (rs : list (string * result string * W)) : W :=
  match rs with
  | [] => w
  | (_, _, w') :: rest => world_after w' rest
  end.

(** The ledger with one [submitted] record more for each submission that
    went through, stamped with the time right after the call. *)
Fixpoint ledger_after (language : string)
    (rs : list (string * result string * W)) (ledger : dict) : dict :=
  match rs with
  | [] => ledger
  | (path, Ok job_id, w') :: rest =>
      ledger_after language rest
        (Dict.set job_id
           (JDict [("file", JStr (resolve path));
                   ("submitted", JFloat (time_time w'));
                   ("language", JStr language);
                   ("state", JStr "submitted")]) ledger)
  | (_, Raise _, _) :: rest => ledger_after language rest ledger
  end.

(** The [submit_job] calls with their answers, as they show in a trace. *)
Definition submit_calls (language : string)
    (rs : list (string * result string * W)) : list event :=
  map (fun a => ESubmit (resolve (fst (fst a))) language (snd (fst a))) rs.

(** One error line for each submission that raised, with the name of the
    file and the exception. *)
Fixpoint submit_failures (rs : list (string * result string * W)) : list event :=
  match rs with
  | [] => []
  | (path, Raise e, _) :: rest =>
      ELog (LogSubmitFailed (path_name path) e) :: submit_failures rest
  | (_, Ok _, _) :: rest => submit_failures rest
  end.

End Submissions.

(* ================================================================== *)
(** ** A scripted provider, for concrete runs *)

Module Scripted.

(** The answers the remote side will give, call after call. *)
Record script := Script {
  submits : list (result string);
  bodies : list (result json);      (* bodies of GET /transcriptions/<id> *)
  fetches : list (result string);
}.

Definition exhausted : exn := Exn "RuntimeError" "no scripted answer".

Definition submit (media language : string) (w : script) :=
  match submits w with
  | r :: rest => (r, Script rest (bodies w) (fetches w))
  | [] => (Raise exhausted, w)
  end.

Definition http_get_json (url : string) (w : script) :=
  match bodies w with
  | r :: rest => (r, Script (submits w) rest (fetches w))
  | [] => (Raise exhausted, w)
  end.

Definition fetch (job_id destination : string) (w : script) :=
  match fetches w with
  | r :: rest => (r, Script (submits w) (bodies w) rest)
  | [] => (Raise exhausted, w)
  end.

(** [AzureBatchProvider] talking to the script. *)
Definition azure : AbstractTranscriptionProvider script :=
  AzureBatchProvider http_get_json "https://eastus.api.cognitive.microsoft.com/speechtotext/v3.1"
    submit fetch.

(** A provider whose [job_status] hands over the scripted dictionary as
    it is. *)
Definition plain_status (job_id : string) (w : script) : result dict * script :=
  match http_get_json job_id w with
  | (Ok (JDict d), w') => (Ok d, w')
  | (Ok _, w') => (Raise exhausted, w')
  | (Raise e, w') => (Raise e, w')
  end.

Definition plain : AbstractTranscriptionProvider script :=
  {| submit_job := submit; job_status := plain_status; fetch_result := fetch |}.

Definition clock (w : script) : pyfloat := PyFloat false 1730000000 (D5 Nil).

Definition body (status : string) : result json :=
  Ok (JDict [("status", JStr status)]).

Definition meta (state : string) : json :=
  JDict [("file", JStr "/media/a.mp4");
         ("submitted", JFloat (PyFloat false 1730000000 (D5 Nil)));
         ("language", JStr "en-US");
         ("state", JStr state)].

Definition start (w : script) (ledger : dict) : pipeline :=
  Pipeline w ledger None [].

Definition http_500 : exn := Exn "HTTPError" "500 Server Error".

(** One submitted job; the service answers [Succeeded], the download works. *)
Definition succeeded_run : pipeline :=
  start (Script [] [body "Succeeded"] [Ok "j1_transcript.json"])
    [("j1", meta "submitted")].

(** One submitted job; the service answers [Running]. *)
Definition running_run : pipeline :=
  start (Script [] [body "Running"] []) [("j1", meta "submitted")].


(** One submitted job; the answer of the service has no [status]. *)
Definition no_status_run : pipeline :=
  Pipeline (Script [] [Ok (JDict [("self", JStr "j1")])] [])
    [("j1", meta "submitted")] None [].

(** Two finished jobs and one pending; the service has more to say. *)
Definition mixed_run : pipeline :=
  start (Script [] [body "Running"; body "Failed"; body "Running"] [])
    [("j1", meta "succeeded"); ("j2", meta "submitted"); ("j3", meta "failed")].

(** Only finished jobs. *)
Definition idle_run : pipeline :=
  start (Script [] [body "Running"] [Ok "x.json"])
    [("j1", meta "succeeded"); ("j2", meta "failed")].

(** A directory with a text file between two media files. *)
Definition listing (directory : string) : list string :=
  ["/media/a.mp4"; "/media/notes.txt"; "/media/b.WAV"].

Definition batch_run : pipeline :=
  start (Script [Ok "j1"; Raise http_500] [] []) [].

(** The same directory; the first submission is refused, the second goes
    through. *)
Definition refused_first_run : pipeline :=
  start (Script [Raise http_500; Ok "j2"] [] []) [].


End Scripted.

(* ================================================================== *)
(** ** More predicates on ledgers and runs *)

(** The record's [state] is one of the four strings at which [poll] stops
    asking (line 77). *)
Definition is_finished (meta : json) : bool :=
  match meta with
  | JDict d =>
      match Dict.get "state" d with
      | Some (JStr st) => mem st ["Succeeded"; "Failed"; "succeeded"; "failed"]
      | _ => false
      end
  | _ => false
  end.

(** The entry of [job_id] is there and finished. *)
Definition finished_in {W : Type} (job_id : string) (s : @pipeline W) : Prop :=
  exists meta, Dict.get job_id (jobs s) = Some meta /\ is_finished meta = true.

(** The ledger file holds the dump of the ledger in memory. *)
Definition synced {W : Type} (s : @pipeline W) : Prop :=
  disk s = Some (Json.dumps (JDict (jobs s))).

(** A record and its later version: a dict keeps every field other than
    [state] and [result]; anything else is unchanged. *)
Definition same_entry (v v' : json) : Prop :=
  match v, v' with
  | JDict m, JDict m' =>
      forall f, f <> "state" -> f <> "result" -> Dict.get f m' = Dict.get f m
  | _, _ => v' = v
  end.

(** The ledger of [s'] has the keys of the ledger of [s], in the same order,
    and every record is the same up to [state] and [result]. *)
Definition only_state_and_result {W : Type} (s s' : @pipeline W) : Prop :=
  Dict.keys (jobs s') = Dict.keys (jobs s)
  /\ forall j v, Dict.get j (jobs s) = Some v ->
       exists v', Dict.get j (jobs s') = Some v' /\ same_entry v v'.

(** No [time.sleep] in a trace. *)
Definition never_slept (t : list event) : bool :=
  forallb (fun e => negb (is_sleep e)) t.

(** No provider call in a trace. *)
Definition no_provider_call (t : list event) : bool :=
  forallb (fun e => negb (is_provider_call e)) t.

(** Every record of the ledger is a dict. *)
Definition all_dicts (ledger : dict) : bool :=
  forallb (fun kv => match snd kv with JDict _ => true | _ => false end) ledger.

(** A provider for which every job is finished already, whatever the state
    of the world. *)
Definition always_finished {W : Type} (provider : AbstractTranscriptionProvider W)
  : Prop :=
  forall job_id w,
    exists status w' st,
      job_status job_id w = (Ok status, w')
      /\ Dict.get "state" status = Some (JStr st)
      /\ mem st ["Succeeded"; "Failed"; "succeeded"; "failed"] = true.

(** [s'] comes after [s] with no [time.sleep] in between. *)
Definition awake {W : Type} (s s' : @pipeline W) : Prop :=
  exists t, trace s' = (trace s ++ t)%list /\ never_slept t = true.

(** The entry of [j] is there and is a dict. *)
Definition has_record {W : Type} (j : string) (s : @pipeline W) : Prop :=
  exists m, Dict.get j (jobs s) = Some (JDict m).

(** The entry of [job_id] is a record in state [submitted]. *)
Definition submitted_in {W : Type} (job_id : string) (s : @pipeline W) : Prop :=
  exists meta,
    Dict.get job_id (jobs s) = Some (JDict meta)
    /\ Dict.get "state" meta = Some (JStr "submitted").

(** [jobs[job_id][field]], when the entry is a dict that has the field. *)
Definition record_field (job_id field : string) (ledger : dict) : option json :=
  match Dict.get job_id ledger with
  | Some (JDict meta) => Dict.get field meta
  | _ => None
  end.

(* ================================================================== *)
(** ** More of [pathlib] and [str] *)

Module Paths.

(** [s[:n]] *)
Fixpoint take (n : nat) (s : string) : string :=
  match n, s with
  | S k, String a r => String a (take k r)
  | _, _ => EmptyString
  end.

(** [s.rstrip(c)] for a single character [c]. *)
Fixpoint rstrip (c : ascii) (s : string) : string :=
  match s with
  | EmptyString => EmptyString
  | String a r =>
      match rstrip c r with
      | EmptyString => if Ascii.eqb a c then EmptyString else String a EmptyString
      | String _ _ as r' => String a r'
      end
  end.

(** [s.rsplit(c, 1)[-1]]: what follows the last [c], or all of [s]. *)
Definition rsplit_last (c : ascii) (s : string) : string :=
  match rfind c s with
  | Some i => drop (S i) s
  | None => s
  end.

(** [c in s] *)
Definition contains (c : ascii) (s : string) : bool :=
  match rfind c s with
  | Some _ => true
  | None => false
  end.

(** [PurePath.with_suffix(suffix)], on POSIX paths:
    the suffix must be empty or start with a dot, be more than a dot and hold
    no separator; the path must have a name; the old suffix, if any, is cut
    off the name and the new one put in its place. *)
Definition with_suffix (p suffix : string) : result string :=
  if contains "/" suffix
  then Raise (Exn "ValueError" "Invalid suffix")
  else if (negb (String.eqb suffix "") && negb (startswith "." suffix))
          || String.eqb suffix "."
  then Raise (Exn "ValueError" "Invalid suffix")
  else
    let name := path_name p in
    if String.eqb name ""
    then Raise (Exn "ValueError" "path has an empty name")
    else
      let old_suffix := path_suffix p in
      let parent := take (String.length p - String.length name) p in
      let stem := take (String.length name - String.length old_suffix) name in
      Ok (parent ++ stem ++ suffix).

End Paths.

(* ================================================================== *)
(** ** [AzureBatchProvider.submit_job] and [AzureBatchProvider.fetch_result] *)

Section AzureCalls.

Context {W : Type}.

(** The module-level [INPUT_CONTAINER] and [OUTPUT_CONTAINER], and
    [self._base_url]. *)
Variable input_container : string.
Variable output_container : string.
Variable base_url : string.

(** [media_path.exists()] *)
Variable path_exists : string -> W -> bool.

(** [with open(media_path, "rb") as fh:
       self._input_container.upload_blob(name=blob_name, data=fh, ...)] *)
Variable upload_blob : string -> string -> W -> result unit * W.

(** [int(time.time())] *)
Variable time_int : W -> Z.

(** [requests.post(url, headers=..., data=json.dumps(payload))] and
    [raise_for_status()]: the [Location] header of the response, if any. *)
Variable http_post : string -> json -> W -> result (option string) * W.

(** [requests.get(url)] and [raise_for_status()]: [r.content]. *)
Variable http_get_content : string -> W -> result string * W.

(** [destination.write_bytes(content)] *)
Variable write_bytes : string -> string -> W -> result unit * W.

(** The request body of [submit_job]. *)
Definition azure_payload (media_path language : string) (now : Z) : json :=
  let blob_name := path_name media_path in
  let blob_uri := Paths.rstrip "/" input_container ++ "/" ++ blob_name in
  JDict [("contentUrls", JList [JStr blob_uri]);
         ("locale", JStr language);
         ("displayName",
          JStr ("Transcription " ++ path_name media_path ++ " "
                  ++ Json.int_repr now));
         ("properties",
          JDict [("wordLevelTimestampsEnabled", JBool true);
                 ("punctuationMode", JStr "DictatedAndAutomaticPunctuation");
                 ("profanityFilterMode", JStr "Masked");
                 ("destinationContainerUrl", JStr output_container)])].

(** [submit_job]: upload when the file is there, post the request, and take
    the job id off the end of the [Location] header. *)
Definition azure_submit_job (media_path language : string) (w : W)
  : result string * W :=
  let blob_name := path_name media_path in
  let uploaded :=
    if path_exists media_path w then upload_blob blob_name media_path w
    else (Ok tt, w) in
  match uploaded with
  | (Raise e, w1) => (Raise e, w1)
  | (Ok _, w1) =>
      let payload := azure_payload media_path language (time_int w1) in
      match http_post (base_url ++ "/transcriptions") payload w1 with
      | (Raise e, w2) => (Raise e, w2)
      | (Ok None, w2) =>
          (Raise (Exn "AttributeError"
                    "'NoneType' object has no attribute 'rsplit'"), w2)
      | (Ok (Some job_url), w2) => (Ok (Paths.rsplit_last "/" job_url), w2)
      end
  end.

(** [fetch_result]: download [<jobId>.json] from the output container and
    write it at the destination, with the suffix [.json]. *)
Definition azure_fetch_result (job_id destination : string) (w : W)
  : result string * W :=
  let blob_url := Paths.rstrip "/" output_container ++ "/" ++ job_id ++ ".json" in
  match http_get_content blob_url w with
  | (Raise e, w1) => (Raise e, w1)
  | (Ok content, w1) =>
      match Paths.with_suffix destination ".json" with
      | Raise e => (Raise e, w1)
      | Ok dest =>
          match write_bytes dest content w1 with
          | (Raise e, w2) => (Raise e, w2)
          | (Ok _, w2) => (Ok dest, w2)
          end
      end
  end.

(** [requests.get(url, headers=...)], [raise_for_status()] and [r.json()],
    as in [azure_job_status]. *)
Variable http_get_json : string -> W -> result json * W.

(** [AzureBatchProvider], with its three methods. *)
Definition azure_provider : AbstractTranscriptionProvider W :=
  AzureBatchProvider http_get_json base_url azure_submit_job azure_fetch_result.

End AzureCalls.

(* ================================================================== *)
(** ** [setup.py] and [video_transcription_app.py] *)

Module Setup.

(** [a < b] on tuples of integers. *)
Fixpoint tuple_lt (a b : list Z) : bool :=
  match a, b with
  | _, [] => false
  | [], _ :: _ => true
  | x :: a', y :: b' =>
      if (x <? y)%Z then true
      else if (y <? x)%Z then false
      else tuple_lt a' b'
  end.

(** What the setup script prints. *)
Inductive line :=
| PythonTooOld
| CurrentVersion (version : string)
| PythonOk (version : string)
| EnvExists
| EnvCreated
| EnvInstructions
| TemplateMissing.

(** [check_python_version]: [version_info] is [sys.version_info] as far as
    the comparison with [(3, 7)] looks at it, [version] is [sys.version] and
    [short] its first word. *)
Definition check_python_version (version_info : list Z) (version short : string)
  : bool * list line :=
  if tuple_lt version_info [3%Z; 7%Z]
  then (false, [PythonTooOld; CurrentVersion version])
  else (true, [PythonOk short]).

(** The files of the working directory: names and contents. *)
Definition files := list (string * string).

Fixpoint read (name : string) (fs : files) : option string :=
  match fs with
  | [] => None
  | (n, c) :: r => if String.eqb name n then Some c else read name r
  end.

Fixpoint write (name content : string) (fs : files) : files :=
  match fs with
  | [] => [(name, content)]
  | (n, c) :: r =>
      if String.eqb name n then (name, content) :: r
      else (n, c) :: write name content r
  end.

(** [setup_environment]: keep [.env] when it exists, else copy
    [.env.template] to it, else fail. *)
Definition setup_environment (fs : files) : bool * files * list line :=
  match read ".env" fs with
  | Some _ => (true, fs, [EnvExists])
  | None =>
      match read ".env.template" fs with
      | Some template =>
          (true, write ".env" template fs, [EnvCreated; EnvInstructions])
      | None => (false, fs, [TemplateMissing])
      end
  end.

End Setup.

Module Legacy.

(** [self.supported_video_formats] and [self.supported_audio_formats] *)
Definition supported_video_formats : list string :=
  [".mp4"; ".avi"; ".mkv"; ".mov"; ".wmv"; ".flv"; ".webm"; ".m4v"].

Definition supported_audio_formats : list string :=
  [".wav"; ".mp3"; ".ogg"; ".flac"; ".m4a"].

(** The preview line of the single-file mode of [main]:
    [transcription[:500]], and three dots when there is more. *)
Definition preview (transcription : string) : string :=
  Paths.take 500 transcription
    ++ (if (500 <? String.length transcription)%nat then "..." else "").

Section ProcessFile.

Context {W R : Type}.

(** [Path(file_path).exists()] *)
Variable path_exists : string -> W -> bool.

(** [process_video] and [process_audio], taken as given. *)
Variable process_video : string -> string -> bool -> W -> result R * W.
Variable process_audio : string -> string -> W -> result R * W.

(** [process_file] *)
Definition process_file (file_path language : string) (save_audio : bool) (w : W)
  : result R * W :=
  if negb (path_exists file_path w)
  then (Raise (Exn "FileNotFoundError" ("Input file not found: " ++ file_path)), w)
  else if mem (lower (path_suffix file_path)) supported_video_formats
  then process_video file_path language save_audio w
  else if mem (lower (path_suffix file_path)) supported_audio_formats
  then process_audio file_path language w
  else (Raise (Exn "ValueError"
                 ("Unsupported file format: " ++ path_suffix file_path)), w).

End ProcessFile.

End Legacy.

(* ================================================================== *)
(** ** The text of the ledger file *)

(** A printable ASCII character, or a newline. *)
Definition is_plain (c : ascii) : bool :=
  let n := nat_of_ascii c in
  ((32 <=? n) && (n <=? 126))%nat || Ascii.eqb c newline.

Fixpoint all_plain (s : string) : bool :=
  match s with
  | EmptyString => true
  | String c r => is_plain c && all_plain r
  end.

(** The ledger values [s'] holds are well formed if those of [s] are. *)
Definition keeps_wf {W : Type} (s s' : @pipeline W) : Prop :=
  wf_json (JDict (jobs s)) -> wf_json (JDict (jobs s')).

(** Every state the provider reports is a value [json.dumps] and
    [json.loads] agree on. *)
Definition reports_wf_states {W : Type} (provider : AbstractTranscriptionProvider W)
  : Prop :=
  forall job_id w status w',
    job_status job_id w = (Ok status, w') ->
    wf_json (Dict.get_default "state" status (JStr "unknown")).

(* ================================================================== *)
(** ** More concrete providers and runs *)

Module Stub.

(** A provider for which every job has succeeded and every download works. *)
Definition done : AbstractTranscriptionProvider unit :=
  {| submit_job := fun _ _ w => (Raise Scripted.exhausted, w);
     job_status := fun _ w => (Ok [("state", JStr "succeeded")], w);
     fetch_result := fun _ destination w => (Ok destination, w) |}.

Definition done_run : @pipeline unit :=
  Pipeline tt [("j1", Scripted.meta "submitted"); ("j2", Scripted.meta "running")]
    None [].

(** The first status query fails. *)
Definition failing_run : @pipeline Scripted.script :=
  Scripted.start (Scripted.Script [] [Raise Scripted.http_500] [])
    [("j1", Scripted.meta "submitted"); ("j2", Scripted.meta "submitted")].

(** A ledger edited by hand: one record is a string. *)
Definition malformed_run : @pipeline Scripted.script :=
  Scripted.start (Scripted.Script [] [] [])
    [("j1", Scripted.meta "submitted"); ("j2", JStr "oops")].

(** A job finished under the vendor's casing. *)
Definition capitalised_run : @pipeline Scripted.script :=
  Scripted.start (Scripted.Script [] [] []) [("j1", Scripted.meta "Succeeded")].

(** One accepted submission. *)
Definition submit_run : @pipeline Scripted.script :=
  Scripted.start (Scripted.Script [Ok "j1"] [] []) [].

(** The network and the disk of the Azure provider, scripted. *)
Definition exists_never (path : string) (w : Scripted.script) : bool := false.

Definition upload_ok (name path : string) (w : Scripted.script)
  : result unit * Scripted.script := (Ok tt, w).

Definition now (w : Scripted.script) : Z := 1730000000%Z.

Definition post_created (url : string) (payload : json) (w : Scripted.script)
  : result (option string) * Scripted.script :=
  (Ok (Some "https://eastus.api.cognitive.microsoft.com/speechtotext/v3.1/transcriptions/abc-123"),
   w).

Definition get_content (url : string) (w : Scripted.script)
  : result string * Scripted.script := (Ok "{}", w).

Definition write_ok (path content : string) (w : Scripted.script)
  : result unit * Scripted.script := (Ok tt, w).

Definition azure_full : AbstractTranscriptionProvider Scripted.script :=
  azure_provider "https://acct.blob.core.windows.net/in/"
    "https://acct.blob.core.windows.net/out/"
    "https://eastus.api.cognitive.microsoft.com/speechtotext/v3.1"
    exists_never upload_ok now post_created get_content write_ok
    Scripted.http_get_json.

(** [process_video] and [process_audio] that only say which one ran. *)
Definition ran_video (path language : string) (save_audio : bool) (w : unit)
  : result string * unit := (Ok "video", w).

Definition ran_audio (path language : string) (w : unit)
  : result string * unit := (Ok "audio", w).

Definition exists_always (path : string) (w : unit) : bool := true.

End Stub.


(* ================================================================== *)
(** * Facts *)

(** ** Dictionaries *)

Module DictFacts.

Lemma get_set_same k v d : Dict.get k (Dict.set k v d) = Some v.
Proof.
  induction d as [|[k' v'] d IH]; simpl.
  - now rewrite String.eqb_refl.
  - destruct (String.eqb k k') eqn:E; simpl.
    + now rewrite String.eqb_refl.
    + now rewrite E.
Qed.

Lemma get_set_other j k v d :
  j <> k -> Dict.get j (Dict.set k v d) = Dict.get j d.
Proof.
  intros Hjk. apply String.eqb_neq in Hjk.
  induction d as [|[k' v'] d IH]; simpl.
  - now rewrite Hjk.
  - destruct (String.eqb k k') eqn:E; simpl.
    + apply String.eqb_eq in E. subst k'. now rewrite Hjk.
    + now rewrite IH.
Qed.


Lemma set_fresh k v d :
  ~ In k (Dict.keys d) -> Dict.set k v d = (d ++ [(k, v)])%list.
Proof.
  induction d as [|[k' w] d IH]; simpl; intros Hk; [reflexivity|].
  destruct (String.eqb k k') eqn:E.
  - apply String.eqb_eq in E. subst. exfalso. apply Hk. now left.
  - rewrite IH; [reflexivity|]. intros Hin. apply Hk. now right.
Qed.

Lemma fold_set_nodup (l acc : dict) :
  NoDup (Dict.keys (acc ++ l)%list) ->
  fold_left (fun d kv => Dict.set (fst kv) (snd kv) d) l acc = (acc ++ l)%list.
Proof.
  revert acc. induction l as [|[k v] l IH]; intros acc Hnd; simpl.
  - now rewrite List.app_nil_r.
  - assert (Hfresh : ~ In k (Dict.keys acc)).
    { unfold Dict.keys in *. rewrite map_app in Hnd. simpl in Hnd.
      apply NoDup_remove_2 in Hnd. intros Hin. apply Hnd.
      apply in_or_app. now left. }
    rewrite (set_fresh _ _ _ Hfresh).
    rewrite IH; rewrite <- List.app_assoc; simpl; [reflexivity | exact Hnd].
Qed.

Lemma of_pairs_nodup d : NoDup (Dict.keys d) -> Dict.of_pairs d = d.
Proof. intros H. unfold Dict.of_pairs. now rewrite fold_set_nodup. Qed.

End DictFacts.

(** ** The pipeline *)

Section PipelineFacts.

Context {W : Type} {provider : AbstractTranscriptionProvider W}.
Variable time_time : W -> pyfloat.
Variable resolve : string -> string.
Variable rglob : string -> list string.

Implicit Types (s : @pipeline W) (t : list event).

(** Two descriptions of the same state, up to the bracketing of the trace. *)
Ltac same_state :=
  unfold tell, ret, emit, with_jobs, with_world; simpl;
  rewrite <- ?List.app_assoc; simpl; reflexivity.

(** [submit_single], by the answer of [submit_job]. *)
Lemma submit_single_outcome media language s :
  match submit_job (resolve media) language (world s) with
  | (Raise e, w) =>
      submit_single time_time resolve media language s
      = Raised e
          (Pipeline w (jobs s) (disk s)
             (trace s ++ [ESubmit (resolve media) language (Raise e)])%list)
  | (Ok job_id, w) =>
      let meta := JDict [("file", JStr (resolve media));
                         ("submitted", JFloat (time_time w));
                         ("language", JStr language);
                         ("state", JStr "submitted")] in
      let ledger := Dict.set job_id meta (jobs s) in
      let text := Json.dumps (JDict ledger) in
      submit_single time_time resolve media language s
      = Returned job_id
          (Pipeline w ledger (Some text)
             (trace s ++ [ESubmit (resolve media) language (Ok job_id);
                          ESave text;
                          ELog (LogSubmitted (path_name (resolve media)) job_id)])%list)
      /\ Dict.get job_id ledger = Some meta
  end.
Proof.
  unfold submit_single, bind, call_submit.
  destruct (submit_job (resolve media) language (world s)) as [[job_id|e] w];
    simpl.
  - split.
    + same_state.
    + apply DictFacts.get_set_same.
  - reflexivity.
Qed.

(** C6. [submit_single]: when [submit_job] raises, the same exception
    reaches the caller, the in-memory ledger and the ledger file are as
    before and nothing was saved; when [submit_job] returns an id, the
    ledger holds a record in state [submitted] under that id and the file
    holds the dump of that ledger when the id is returned. *)
Theorem submit_single_propagates_or_persists media language s :
  match submit_job (resolve media) language (world s) with
  | (Raise e, w) =>
      submit_single time_time resolve media language s
      = Raised e
          (Pipeline w (jobs s) (disk s)
             (trace s ++ [ESubmit (resolve media) language (Raise e)])%list)
  | (Ok job_id, w) =>
      let meta := JDict [("file", JStr (resolve media));
                         ("submitted", JFloat (time_time w));
                         ("language", JStr language);
                         ("state", JStr "submitted")] in
      let ledger := Dict.set job_id meta (jobs s) in
      let text := Json.dumps (JDict ledger) in
      submit_single time_time resolve media language s
      = Returned job_id
          (Pipeline w ledger (Some text)
             (trace s ++ [ESubmit (resolve media) language (Ok job_id);
                          ESave text;
                          ELog (LogSubmitted (path_name (resolve media)) job_id)])%list)
      /\ Dict.get job_id ledger = Some meta
  end.
Proof. exact (submit_single_outcome media language s). Qed.

(** *** [poll] with nothing pending *)

Lemma unfinished_of_terminal (l : dict) :
  forallb (fun kv => is_terminal (snd kv)) l = true -> unfinished_of l = Ok [].
Proof.
  induction l as [|[jid meta] l IH]; simpl; [reflexivity|].
  intros H. apply andb_prop in H. destruct H as [Hm Hl].
  rewrite (IH Hl).
  destruct meta as [| | | | |?|d]; cbn [is_terminal snd] in Hm;
    try discriminate.
  cbn [meta_get_state]. unfold Dict.get_default.
  destruct (Dict.get "state" d) as [[| | | |st| |]|]; try discriminate.
  cbn [py_in]. unfold terminal_states. now rewrite Hm.
Qed.

(** C8. When every ledger entry is in state [succeeded] or [failed], [poll]
    returns at once, for any interval and any fuel: the provider state, the
    in-memory ledger and the ledger file are untouched, and the only effect
    is the log line, so no [job_status], no [fetch_result] and no sleep. *)
Theorem poll_without_pending fuel interval_sec s :
  forallb (fun kv => is_terminal (snd kv)) (jobs s) = true ->
  poll fuel interval_sec s
  = Returned tt
      (Pipeline (world s) (jobs s) (disk s)
         (trace s ++ [ELog LogNoUnfinished])%list).
Proof.
  intros H. unfold poll, bind.
  now rewrite (unfinished_of_terminal _ H).
Qed.

(** *** One visit of the sweep *)

Lemma set_field_found job_id field v (ledger : dict) meta :
  Dict.get job_id ledger = Some (JDict meta) ->
  set_field job_id field v ledger
  = Ok (Dict.set job_id (JDict (Dict.set field v meta)) ledger).
Proof. intros H. unfold set_field. now rewrite H. Qed.

(** [_download_result] never raises: a failure of [fetch_result] (or of the
    assignment) ends in the error log. *)
Lemma download_result_outcome job_id s :
  let dest := path_str (job_id ++ "_transcript.json") in
  _download_result job_id s
  = match fetch_result job_id dest (world s) with
    | (Raise e, w) =>
        Returned tt
          (Pipeline w (jobs s) (disk s)
             (trace s ++ [EFetch job_id dest (Raise e);
                          ELog (LogFetchFailed job_id e)])%list)
    | (Ok path, w) =>
        match set_field job_id "result" (JStr path) (jobs s) with
        | Ok j =>
            Returned tt
              (Pipeline w j (disk s)
                 (trace s ++ [EFetch job_id dest (Ok path);
                              ELog (LogDownloaded job_id path)])%list)
        | Raise e =>
            Returned tt
              (Pipeline w (jobs s) (disk s)
                 (trace s ++ [EFetch job_id dest (Ok path);
                              ELog (LogFetchFailed job_id e)])%list)
        end
    end.
Proof.
  unfold _download_result, try_except, bind, call_fetch. simpl.
  destruct (fetch_result job_id (path_str (job_id ++ "_transcript.json"))
              (world s)) as [[path|e] w]; simpl.
  - destruct (set_field job_id "result" (JStr path) (jobs s)); simpl;
      same_state.
  - same_state.
Qed.

(** The visit up to the membership test of line 77. *)
Lemma poll_visit_unfold job_id unfinished s status w meta :
  job_status job_id (world s) = (Ok status, w) ->
  Dict.get job_id (jobs s) = Some (JDict meta) ->
  let state := Dict.get_default "state" status (JStr "unknown") in
  let s1 :=
    Pipeline w (Dict.set job_id (JDict (Dict.set "state" state meta)) (jobs s))
      (disk s)
      (trace s ++ [EStatus job_id (Ok status);
                   ELog (LogJobState job_id state)])%list in
  poll_visit job_id unfinished s
  = match py_in state finished_states with
    | Raise e => Raised e s1
    | Ok false => Returned unfinished s1
    | Ok true =>
        bind (match state with
              | JStr st =>
                  if startswith "succ" (lower st) then _download_result job_id
                  else ret tt
              | _ => ret tt
              end)
          (fun _ => bind _save_jobs (fun _ => ret (pop job_id unfinished))) s1
    end.
Proof.
  intros Hst Hget state s1.
  unfold poll_visit. fold state.
  unfold bind at 1. unfold call_status. rewrite Hst. simpl.
  unfold bind at 1. simpl.
  rewrite (set_field_found _ _ _ _ _ Hget). simpl.
  unfold bind at 1. simpl.
  unfold bind at 1.
  replace (emit (ELog (LogJobState job_id state)) _) with s1
    by (unfold s1; same_state).
  clearbody s1. subst state.
  destruct (py_in _ finished_states) as [[|]|e]; reflexivity.
Qed.

(** C10. A visit whose status dictionary has no [state] key writes the
    string [unknown] into the entry, so that reading the entry back gives a
    record whose [state] is [unknown] and whose other fields are as before,
    and treats the job as not finished: the pending set is returned as it
    was, and the only effects are the status call and the log line, so no
    download and no save; the file is as before. *)
Theorem poll_visit_without_state_key job_id unfinished s status w meta :
  job_status job_id (world s) = (Ok status, w) ->
  Dict.get "state" status = None ->
  Dict.get job_id (jobs s) = Some (JDict meta) ->
  let ledger :=
    Dict.set job_id (JDict (Dict.set "state" (JStr "unknown") meta)) (jobs s) in
  poll_visit job_id unfinished s
  = Returned unfinished
      (Pipeline w ledger (disk s)
         (trace s ++ [EStatus job_id (Ok status);
                      ELog (LogJobState job_id (JStr "unknown"))])%list)
  /\ (exists meta',
        Dict.get job_id ledger = Some (JDict meta')
        /\ Dict.get "state" meta' = Some (JStr "unknown")
        /\ (forall f, f <> "state" -> Dict.get f meta' = Dict.get f meta)
        /\ is_finished (JDict meta') = false
        /\ is_terminal (JDict meta') = false).
Proof.
  intros Hst Hnone Hget ledger. split.
  - rewrite (poll_visit_unfold _ _ _ _ _ _ Hst Hget).
    unfold Dict.get_default. rewrite Hnone. reflexivity.
  - exists (Dict.set "state" (JStr "unknown") meta).
    split; [apply DictFacts.get_set_same|].
    split; [apply DictFacts.get_set_same|].
    split.
    + intros f Hf. apply DictFacts.get_set_other. exact Hf.
    + cbn [is_finished is_terminal]. rewrite DictFacts.get_set_same.
      split; reflexivity.
Qed.

Lemma save_jobs_outcome s :
  _save_jobs s
  = Returned tt
      (Pipeline (world s) (jobs s) (Some (Json.dumps (JDict (jobs s))))
         (trace s ++ [ESave (Json.dumps (JDict (jobs s)))])%list).
Proof. reflexivity. Qed.

(** C3, as the code has it.  A visit saves the ledger exactly when the
    state it wrote is one of [Succeeded], [Failed], [succeeded], [failed]:
    then the save is the last effect of the visit and the file holds the
    dump of the ledger in memory; for any other state the entry is updated
    in memory only, and the file is as it was before the visit. *)
Theorem poll_visit_saves_when_finished job_id unfinished s status w meta :
  job_status job_id (world s) = (Ok status, w) ->
  Dict.get job_id (jobs s) = Some (JDict meta) ->
  let state := Dict.get_default "state" status (JStr "unknown") in
  match py_in state finished_states with
  | Ok true =>
      exists s' t,
        poll_visit job_id unfinished s = Returned (pop job_id unfinished) s'
        /\ disk s' = Some (Json.dumps (JDict (jobs s')))
        /\ trace s' = (trace s ++ t ++ [ESave (Json.dumps (JDict (jobs s')))])%list
  | Ok false =>
      exists s',
        poll_visit job_id unfinished s = Returned unfinished s'
        /\ jobs s' = Dict.set job_id (JDict (Dict.set "state" state meta)) (jobs s)
        /\ disk s' = disk s
        /\ trace s' = (trace s ++ [EStatus job_id (Ok status);
                                   ELog (LogJobState job_id state)])%list
  | Raise e =>
      exists s',
        poll_visit job_id unfinished s = Raised e s' /\ disk s' = disk s
  end.
Proof.
  intros Hst Hget state.
  rewrite (poll_visit_unfold _ unfinished _ _ _ _ Hst Hget). fold state.
  destruct (py_in state finished_states) as [[|]|e] eqn:Hin.
  - set (s1 := Pipeline _ _ _ _).
    assert (Hd : exists s2 t2,
               (match state with
                | JStr st =>
                    if startswith "succ" (lower st)
                    then _download_result job_id else ret tt
                | _ => ret tt
                end) s1 = Returned tt s2
               /\ trace s2 = (trace s1 ++ t2)%list).
    { destruct state as [| | | |st| |];
        try (exists s1, []; split; [reflexivity | now rewrite List.app_nil_r]).
      destruct (startswith "succ" (lower st)).
      - rewrite download_result_outcome.
        destruct (fetch_result _ _ _) as [[path|e] w2].
        + destruct (set_field _ _ _ _); eexists; eexists; split;
            try reflexivity; reflexivity.
        + eexists; eexists; split; try reflexivity; reflexivity.
      - exists s1, []; split; [reflexivity | now rewrite List.app_nil_r]. }
    destruct Hd as (s2 & t2 & Hd & Ht).
    unfold bind at 1. rewrite Hd.
    unfold bind, ret. rewrite save_jobs_outcome.
    eexists.
    exists ([EStatus job_id (Ok status); ELog (LogJobState job_id state)] ++ t2)%list.
    split; [reflexivity|]. cbn [disk jobs trace]. split; [reflexivity|].
    rewrite Ht. unfold s1. cbn [trace].
    now rewrite <- !List.app_assoc.
  - eexists; split; [reflexivity|]. simpl. auto.
  - eexists; split; [reflexivity|]. reflexivity.
Qed.




(** *** [submit_batch] *)

(** The loop of [submit_batch], one supported path at a time. *)
Lemma submit_paths_supported path rest language acc s :
  supported path = true ->
  submit_paths time_time resolve (path :: rest) language acc s
  = match submit_single time_time resolve path language s with
    | Returned job_id s1 =>
        submit_paths time_time resolve rest language (acc ++ [job_id])%list s1
    | Raised exc s1 =>
        submit_paths time_time resolve rest language acc
          (emit (ELog (LogSubmitFailed (path_name path) exc)) s1)
    | Running s1 => Running s1
    end.
Proof.
  intros Hs. cbn [submit_paths].
  unfold supported in Hs. unfold supported_suffixes. rewrite Hs.
  unfold bind, try_except, tell, ret.
  destruct (submit_single time_time resolve path language s); reflexivity.
Qed.

Lemma submit_paths_unsupported path rest language acc s :
  supported path = false ->
  submit_paths time_time resolve (path :: rest) language acc s
  = submit_paths time_time resolve rest language acc s.
Proof.
  intros Hs. cbn [submit_paths].
  unfold supported in Hs. unfold supported_suffixes. now rewrite Hs.
Qed.

Lemma submit_paths_skip before path after language :
  supported path = false ->
  forall acc s,
    submit_paths time_time resolve (before ++ path :: after) language acc s
    = submit_paths time_time resolve (before ++ after) language acc s.
Proof.
  intros Hs. induction before as [|p before IH]; intros acc s.
  - apply submit_paths_unsupported, Hs.
  - cbn [List.app]. destruct (supported p) eqn:Hp.
    + rewrite !(submit_paths_supported _ _ _ _ _ Hp).
      destruct (submit_single time_time resolve p language s);
        [apply IH | apply IH | reflexivity].
    + rewrite !(submit_paths_unsupported _ _ _ _ _ Hp). apply IH.
Qed.

(** C9. A file of the enumeration whose lower-cased suffix is not one of
    the five media suffixes leaves no mark: the batch gives the same list
    and ends in the same state (provider, ledger, file, trace of calls and
    log lines) as the batch over the enumeration without that file. *)
Theorem submit_batch_skips_unsupported directory language s before path after :
  rglob (resolve directory) = (before ++ path :: after)%list ->
  supported path = false ->
  submit_batch time_time resolve rglob directory language s
  = submit_paths time_time resolve (before ++ after) language [] s.
Proof.
  intros Hdir Hs. unfold submit_batch. rewrite Hdir.
  now apply submit_paths_skip.
Qed.

End PipelineFacts.

(** ** Finished jobs stay as they are *)

Section Stability.

Context {W : Type} {provider : AbstractTranscriptionProvider W}.
Variable j : string.

Implicit Types (s : @pipeline W).

Lemma quiet_about_app t1 t2 :
  quiet_about j (t1 ++ t2) = quiet_about j t1 && quiet_about j t2.
Proof. unfold quiet_about. apply forallb_app. Qed.

Lemma untouched_refl s : untouched j s s.
Proof.
  repeat split. exists []. now rewrite List.app_nil_r.
Qed.

Lemma untouched_trans s1 s2 s3 :
  untouched j s1 s2 -> untouched j s2 s3 -> untouched j s1 s3.
Proof.
  intros (Hg1 & Hk1 & t1 & Ht1 & Hq1) (Hg2 & Hk2 & t2 & Ht2 & Hq2).
  repeat split; [congruence | congruence |].
  exists (t1 ++ t2)%list. split.
  - now rewrite Ht2, Ht1, List.app_assoc.
  - now rewrite quiet_about_app, Hq1, Hq2.
Qed.

Lemma preserves_ret {A} (a : A) : preserves (untouched j) (@ret W A a).
Proof. intros s. apply untouched_refl. Qed.

Lemma preserves_bind {A B} (m : @M W A) (k : A -> @M W B) :
  preserves (untouched j) m ->
  (forall a, preserves (untouched j) (k a)) ->
  preserves (untouched j) (bind m k).
Proof.
  intros Hm Hk s. unfold bind. specialize (Hm s).
  destruct (m s) as [a s1|e s1|s1]; simpl in *; try assumption.
  eapply untouched_trans; [exact Hm | apply Hk].
Qed.

Lemma preserves_try_except {A} (body : @M W A) (handler : exn -> @M W A) :
  preserves (untouched j) body ->
  (forall e, preserves (untouched j) (handler e)) ->
  preserves (untouched j) (try_except body handler).
Proof.
  intros Hb Hh s. unfold try_except. specialize (Hb s).
  destruct (body s) as [a s1|e s1|s1]; simpl in *; try assumption.
  eapply untouched_trans; [exact Hb | apply Hh].
Qed.

Lemma preserves_lift {A} (r : result A) : preserves (untouched j) (@lift W A r).
Proof. destruct r; intros s; apply untouched_refl. Qed.

Lemma untouched_emit e s :
  is_status_of j e || is_fetch_of j e = false -> untouched j s (emit e s).
Proof.
  intros He. repeat split. exists [e]. split; [reflexivity|].
  simpl. now rewrite He.
Qed.

Lemma preserves_tell e :
  is_status_of j e || is_fetch_of j e = false ->
  preserves (untouched j) (@tell W e).
Proof. intros He s. now apply untouched_emit. Qed.

Lemma preserves_save : preserves (untouched j) (@_save_jobs W).
Proof.
  intros s. repeat split. eexists. split; [reflexivity|]. reflexivity.
Qed.

Lemma preserves_sleep secs : preserves (untouched j) (@sleep W secs).
Proof.
  unfold sleep. destruct (secs <? 0)%Z.
  - intros s. apply untouched_refl.
  - now apply preserves_tell.
Qed.

Lemma preserves_call_status job_id :
  job_id <> j -> preserves (untouched j) (call_status job_id).
Proof.
  intros Hne s. unfold call_status.
  destruct (job_status job_id (world s)) as [r w].
  assert (H : untouched j s (emit (EStatus job_id r) (with_world w s))).
  { repeat split. exists [EStatus job_id r]. split; [reflexivity|].
    simpl. apply String.eqb_neq in Hne. now rewrite Hne. }
  destruct r; exact H.
Qed.

Lemma preserves_call_fetch job_id dest :
  job_id <> j -> preserves (untouched j) (call_fetch job_id dest).
Proof.
  intros Hne s. unfold call_fetch.
  destruct (fetch_result job_id dest (world s)) as [r w].
  assert (H : untouched j s (emit (EFetch job_id dest r) (with_world w s))).
  { repeat split. exists [EFetch job_id dest r]. split; [reflexivity|].
    simpl. apply String.eqb_neq in Hne. now rewrite Hne. }
  destruct r; exact H.
Qed.

Lemma keys_set_present k v (d : dict) :
  In k (Dict.keys d) -> Dict.keys (Dict.set k v d) = Dict.keys d.
Proof.
  induction d as [|[k' v'] d IH]; simpl; intros Hin; [contradiction|].
  destruct (String.eqb k k') eqn:E; simpl.
  - apply String.eqb_eq in E. now subst.
  - f_equal. apply IH. destruct Hin as [->|Hin]; [|assumption].
    now rewrite String.eqb_refl in E.
Qed.

Lemma get_some_in_keys k (d : dict) v :
  Dict.get k d = Some v -> In k (Dict.keys d).
Proof.
  induction d as [|[k' v'] d IH]; simpl; [discriminate|].
  destruct (String.eqb k k') eqn:E.
  - apply String.eqb_eq in E. now left.
  - intros H. right. now apply IH.
Qed.

(** [jobs[job_id][field] = v] leaves every other entry alone. *)
Lemma preserves_set_field job_id field v :
  job_id <> j ->
  preserves (untouched j)
    (fun s : @pipeline W =>
       match set_field job_id field v (jobs s) with
       | Ok l => Returned tt (with_jobs l s)
       | Raise e => Raised e s
       end).
Proof.
  intros Hne s. unfold set_field.
  destruct (Dict.get job_id (jobs s)) as [[| | | | | |meta]|] eqn:Hget;
    try apply untouched_refl.
  simpl. split; [|split].
  - apply DictFacts.get_set_other. congruence.
  - apply keys_set_present. eapply get_some_in_keys, Hget.
  - exists []. now rewrite List.app_nil_r.
Qed.

Lemma preserves_download job_id :
  job_id <> j -> preserves (untouched j) (_download_result job_id).
Proof.
  intros Hne. unfold _download_result.
  apply preserves_try_except.
  - apply preserves_bind; [now apply preserves_call_fetch|].
    intros path. apply preserves_bind; [now apply preserves_set_field|].
    intros _. now apply preserves_tell.
  - intros e. now apply preserves_tell.
Qed.

Lemma preserves_visit job_id unfinished :
  job_id <> j -> preserves (untouched j) (poll_visit job_id unfinished).
Proof.
  intros Hne. unfold poll_visit.
  apply preserves_bind; [now apply preserves_call_status|].
  intros status. apply preserves_bind; [now apply preserves_set_field|].
  intros _. apply preserves_bind; [now apply preserves_tell|].
  intros _. apply preserves_bind; [apply preserves_lift|].
  intros [|]; [|apply preserves_ret].
  apply preserves_bind.
  - destruct (Dict.get_default "state" status (JStr "unknown"));
      try apply preserves_ret.
    destruct (startswith "succ" (lower s));
      [now apply preserves_download | apply preserves_ret].
  - intros _. apply preserves_bind; [apply preserves_save|].
    intros _. apply preserves_ret.
Qed.

Lemma returns_bind {A B} (P : B -> Prop) (m : @M W A) (k : A -> @M W B) :
  (forall a, returns P (k a)) -> returns P (bind m k).
Proof.
  intros Hk s b s'. unfold bind.
  destruct (m s) as [a s1|e s1|s1]; try discriminate. apply Hk.
Qed.

Lemma returns_ret {A} (P : A -> Prop) (a : A) : P a -> returns P (@ret W A a).
Proof. intros Ha s a' s' [= <- _]. exact Ha. Qed.

Lemma incl_pop job_id (unfinished : list string) :
  incl (pop job_id unfinished) unfinished.
Proof. intros x Hx. unfold pop in Hx. now apply filter_In in Hx. Qed.

(** A visit never adds to the pending set. *)
Lemma visit_shrinks job_id unfinished :
  returns (fun u => incl u unfinished) (poll_visit job_id unfinished).
Proof.
  unfold poll_visit.
  apply returns_bind. intros status.
  apply returns_bind. intros _.
  apply returns_bind. intros _.
  apply returns_bind. intros [|].
  - apply returns_bind. intros _. apply returns_bind. intros _.
    apply returns_ret, incl_pop.
  - apply returns_ret, incl_refl.
Qed.

Lemma sweep_shrinks snapshot :
  forall unfinished,
    returns (fun u => incl u unfinished) (poll_sweep snapshot unfinished).
Proof.
  induction snapshot as [|job_id rest IH]; intros unfinished; cbn [poll_sweep].
  - apply returns_ret, incl_refl.
  - intros s u s'. unfold bind.
    destruct (poll_visit job_id unfinished s) as [u1 s1|e s1|s1] eqn:Hv;
      try discriminate.
    intros Hs. apply (visit_shrinks _ _ _ _ _) in Hv.
    apply IH in Hs. eapply incl_tran; eassumption.
Qed.

Lemma preserves_sweep snapshot :
  ~ In j snapshot ->
  forall unfinished, preserves (untouched j) (poll_sweep snapshot unfinished).
Proof.
  induction snapshot as [|job_id rest IH]; intros Hnin unfinished;
    cbn [poll_sweep].
  - apply preserves_ret.
  - apply preserves_bind.
    + apply preserves_visit. intros ->. apply Hnin. now left.
    + intros u. apply IH. intros Hin. apply Hnin. now right.
Qed.

Lemma preserves_loop fuel interval_sec :
  forall unfinished,
    ~ In j unfinished ->
    preserves (untouched j) (poll_loop fuel interval_sec unfinished).
Proof.
  induction fuel as [|fuel IH]; intros [|u0 us] Hnin; cbn [poll_loop];
    try apply preserves_ret.
  - intros s. apply untouched_refl.
  - intros s. unfold bind at 1.
    pose proof (preserves_sweep (u0 :: us) Hnin (u0 :: us) s) as Hsw.
    destruct (poll_sweep (u0 :: us) (u0 :: us) s) as [u1 s1|e s1|s1] eqn:Hs;
      simpl in Hsw |- *; try exact Hsw.
    apply (sweep_shrinks _ _ _ _ _) in Hs.
    eapply untouched_trans; [exact Hsw|].
    destruct u1 as [|u1 us1]; [apply untouched_refl|].
    apply preserves_bind; [apply preserves_sleep|].
    intros _. apply IH. intros Hin. apply Hnin. now apply Hs.
Qed.

Lemma unfinished_in_keys (l : dict) :
  forall us x, unfinished_of l = Ok us -> In x us -> In x (Dict.keys l).
Proof.
  induction l as [|[jid meta] l IH]; simpl; intros us x.
  - intros [= <-] [].
  - destruct (meta_get_state meta) as [st|]; [|discriminate].
    destruct (py_in st terminal_states) as [b|]; [|discriminate].
    destruct (unfinished_of l) as [us'|]; [|discriminate].
    intros [= <-] Hin. destruct b.
    + right. eapply IH; [reflexivity | exact Hin].
    + destruct Hin as [->|Hin]; [now left|].
      right. eapply IH; [reflexivity | exact Hin].
Qed.

(** The filter that opens [poll] leaves out a record whose state is
    [succeeded] or [failed]. *)
Lemma unfinished_excludes_terminal (l : dict) meta :
  NoDup (Dict.keys l) ->
  Dict.get j l = Some meta ->
  is_terminal meta = true ->
  forall us, unfinished_of l = Ok us -> ~ In j us.
Proof.
  induction l as [|[jid m] l IH]; simpl; intros Hnd Hget Hterm us;
    [discriminate|].
  inversion Hnd as [|? ? Hfresh Hnd']; subst.
  destruct (meta_get_state m) as [st|] eqn:Hst; [|discriminate].
  destruct (py_in st terminal_states) as [b|] eqn:Hin; [|discriminate].
  destruct (unfinished_of l) as [us'|] eqn:Hus; [|discriminate].
  intros [= <-].
  destruct (String.eqb j jid) eqn:E.
  - apply String.eqb_eq in E. subst jid. injection Hget as ->.
    assert (b = true).
    { destruct meta as [| | | | | |d]; try discriminate.
      cbn [is_terminal] in Hterm. cbn [meta_get_state] in Hst.
      injection Hst as <-. unfold Dict.get_default in Hin.
      destruct (Dict.get "state" d) as [[| | | |x| |]|]; try discriminate.
      cbn [py_in] in Hin. unfold terminal_states in Hin. congruence. }
    subst b. intros Hj. apply Hfresh.
    eapply unfinished_in_keys; eassumption.
  - apply String.eqb_neq in E.
    specialize (IH Hnd' Hget Hterm us' eq_refl).
    destruct b; [exact IH|].
    intros [Hj|Hj]; [congruence | now apply IH].
Qed.

Lemma untouched_poll fuel interval_sec s meta :
  NoDup (Dict.keys (jobs s)) ->
  Dict.get j (jobs s) = Some meta ->
  is_terminal meta = true ->
  untouched j s (state_of (poll fuel interval_sec s)).
Proof.
  intros Hnd Hget Hterm. unfold poll, bind.
  destruct (unfinished_of (jobs s)) as [us|e] eqn:Hus; simpl;
    [|apply untouched_refl].
  pose proof (unfinished_excludes_terminal _ _ Hnd Hget Hterm _ Hus) as Hnin.
  destruct us as [|u0 us].
  - now apply untouched_emit.
  - now apply preserves_loop.
Qed.

(** What does hold of finished jobs: once the state of a job is one of the
    lower-case strings [succeeded] and [failed], any sequence of [poll]
    calls on the pipeline (each with its own interval, and whether it
    returned, raised or was cut short) leaves the record exactly as it is,
    makes no [job_status] and no [fetch_result] call for the job, and the
    job is outside the pending set any further [poll] would compute.  The
    states [Succeeded] and [Failed], at which [poll] stops asking as well,
    are not covered, and do not have the property. *)
Lemma lower_case_state_is_final calls s meta :
  NoDup (Dict.keys (jobs s)) ->
  Dict.get j (jobs s) = Some meta ->
  is_terminal meta = true ->
  let s' := poll_many calls s in
  Dict.get j (jobs s') = Some meta
  /\ (exists t, trace s' = (trace s ++ t)%list /\ quiet_about j t = true)
  /\ (forall us, unfinished_of (jobs s') = Ok us -> ~ In j us).
Proof.
  intros Hnd Hget Hterm.
  assert (Hu : untouched j s (poll_many calls s)
               /\ NoDup (Dict.keys (jobs (poll_many calls s)))).
  { revert s Hnd Hget. induction calls as [|[fuel iv] calls IH];
      intros s Hnd Hget; cbn [poll_many].
    - split; [apply untouched_refl | exact Hnd].
    - pose proof (untouched_poll fuel iv s meta Hnd Hget Hterm) as H1.
      destruct H1 as (Hg1 & Hk1 & Ht1).
      destruct (IH (state_of (poll fuel iv s))) as [H2 Hnd2].
      + now rewrite Hk1.
      + now rewrite Hg1.
      + split; [|exact Hnd2].
        eapply untouched_trans; [|exact H2]. now repeat split. }
  destruct Hu as [(Hg & Hk & Ht) Hnd']. cbv zeta.
  rewrite Hg. repeat split; try assumption.
  apply (unfinished_excludes_terminal _ meta); [assumption | congruence | assumption].
Qed.

End Stability.

(** ** The ledger file: [json.loads] after [json.dumps] *)

Module JsonFacts.
Import Json.

(** *** Text *)

Lemma append_assoc (a b c : string) : (a ++ b) ++ c = a ++ (b ++ c).
Proof. induction a as [|x a IH]; simpl; [reflexivity | now rewrite IH]. Qed.

Lemma length_append (a b : string) :
  String.length (a ++ b) = String.length a + String.length b.
Proof. induction a as [|x a IH]; simpl; [reflexivity | now rewrite IH]. Qed.

Lemma skip_ws_spaces n s : skip_ws (spaces n ++ s) = skip_ws s.
Proof. induction n as [|n IH]; simpl; [reflexivity | exact IH]. Qed.

Lemma skip_ws_newline_indent level s :
  skip_ws (newline_indent level ++ s) = skip_ws s.
Proof. unfold newline_indent. simpl. apply skip_ws_spaces. Qed.

Lemma skip_ws_head c s : is_ws c = false -> skip_ws (String c s) = String c s.
Proof. intros H. simpl. now rewrite H. Qed.

(** *** Strings *)

Lemma scanstring_escape_char c tail :
  scanstring (escape_char c ++ tail) = cons_char c (scanstring tail).
Proof.
  destruct c as [[|] [|] [|] [|] [|] [|] [|] [|]]; reflexivity.
Qed.

Lemma scanstring_escape s rest :
  scanstring (escape s ++ String dquote rest) = Some (s, rest).
Proof.
  induction s as [|c s IH]; [reflexivity|].
  cbn [escape]. rewrite append_assoc, scanstring_escape_char, IH.
  reflexivity.
Qed.

Lemma scanstring_encode_str s rest :
  exists body,
    encode_str s ++ rest = String dquote body
    /\ scanstring body = Some (s, rest).
Proof.
  exists (escape s ++ String dquote rest). split.
  - unfold encode_str. simpl. now rewrite append_assoc.
  - apply scanstring_escape.
Qed.

(** *** Numbers *)

Lemma span_digits_uint u rest :
  match rest with
  | String c _ => is_digit c = false
  | EmptyString => True
  end ->
  span_digits (NilEmpty.string_of_uint u ++ rest)
  = (NilEmpty.string_of_uint u, rest).
Proof.
  intros Hrest.
  induction u; cbn [NilEmpty.string_of_uint String.append span_digits];
    try (rewrite IHu; reflexivity).
  destruct rest as [|c r]; [reflexivity|]. simpl. now rewrite Hrest.
Qed.

Lemma canonical_unorm u :
  unorm u = u -> canonical_digits (NilEmpty.string_of_uint u) = true.
Proof.
  intros Hu. destruct u; simpl;
    try (destruct (NilEmpty.string_of_uint u); reflexivity).
  - exfalso. now apply (unorm_nonnil Nil).
  - unfold unorm in Hu. simpl in Hu.
    destruct (nzhead u) eqn:Hz;
      try (exfalso; apply (nzhead_nonzero u u); congruence).
    injection Hu as <-. reflexivity.
Qed.

Lemma unorm_to_uint n : unorm (N.to_uint n) = N.to_uint n.
Proof.
  rewrite <- (DecimalN.Unsigned.of_to n) at 2.
  now rewrite DecimalN.Unsigned.to_of.
Qed.

Lemma head_uint u :
  u <> Nil ->
  exists c r, NilEmpty.string_of_uint u = String c r /\ is_digit c = true.
Proof.
  destruct u; intros H; try contradiction; simpl; eexists; eexists;
    (split; [reflexivity | reflexivity]).
Qed.

Lemma to_uint_nonnil n : N.to_uint n <> Nil.
Proof. rewrite <- unorm_to_uint. apply unorm_nonnil. Qed.

Lemma ends_number_digit rest :
  ends_number rest = true ->
  match rest with
  | String c _ => is_digit c = false
  | EmptyString => True
  end.
Proof.
  destruct rest as [|c r]; [trivial|]. simpl.
  destruct (is_digit c); [discriminate | reflexivity].
Qed.

Lemma split_sign_uint (neg : bool) u tail :
  u <> Nil ->
  split_sign ((if neg then "-" else "") ++ NilEmpty.string_of_uint u ++ tail)
  = (neg, NilEmpty.string_of_uint u ++ tail).
Proof.
  intros Hnn. destruct neg; [reflexivity|].
  destruct (head_uint u Hnn) as (c & r & Hc & Hd).
  cbn [String.append]. rewrite Hc. cbn [String.append split_sign].
  destruct (Ascii.eqb c "-") eqn:E; [|reflexivity].
  apply Ascii.eqb_eq in E. subst c. discriminate.
Qed.

(** An integer literal, with or without sign. *)
Lemma parse_number_int (neg : bool) u rest :
  unorm u = u ->
  ends_number rest = true ->
  parse_number ((if neg then "-" else "") ++ NilEmpty.string_of_uint u ++ rest)
  = Some (JInt (Z.of_int (if neg then Neg u else Pos u)), rest).
Proof.
  intros Hu Hrest.
  assert (Hnn : u <> Nil) by (rewrite <- Hu; apply unorm_nonnil).
  unfold parse_number.
  rewrite (split_sign_uint neg u rest Hnn).
  rewrite (span_digits_uint u rest (ends_number_digit _ Hrest)).
  rewrite (canonical_unorm u Hu), NilEmpty.usu.
  destruct rest as [|c1 r1]; [reflexivity|].
  cbn [ends_number] in Hrest. unfold starts_exponent.
  destruct (is_digit c1); try discriminate.
  destruct (Ascii.eqb c1 "."); try discriminate.
  destruct (Ascii.eqb c1 "e"); try discriminate.
  destruct (Ascii.eqb c1 "E"); try discriminate.
  reflexivity.
Qed.

Lemma parse_number_int_repr z rest :
  ends_number rest = true ->
  parse_number (int_repr z ++ rest) = Some (JInt z, rest).
Proof.
  intros Hrest. unfold int_repr.
  rewrite <- (DecimalZ.of_to z) at 2.
  destruct z as [|p|p]; cbn [Z.to_int NilEmpty.string_of_int].
  - apply (parse_number_int false zero rest); [reflexivity | exact Hrest].
  - apply (parse_number_int false (Pos.to_uint p) rest);
      [apply (unorm_to_uint (Npos p)) | exact Hrest].
  - change (String "-" (NilEmpty.string_of_uint (Pos.to_uint p)) ++ rest)
      with ("-" ++ NilEmpty.string_of_uint (Pos.to_uint p) ++ rest).
    apply (parse_number_int true (Pos.to_uint p) rest);
      [apply (unorm_to_uint (Npos p)) | exact Hrest].
Qed.

(** A literal with a fraction. *)
Lemma parse_number_float_repr f rest :
  f_frac f <> Nil ->
  ends_number rest = true ->
  parse_number (float_repr f ++ rest) = Some (JFloat f, rest).
Proof.
  intros Hfrac Hrest. destruct f as [neg whole frac]. cbn [f_frac] in Hfrac.
  unfold float_repr. cbn [f_neg f_whole f_frac].
  rewrite !append_assoc.
  unfold parse_number.
  rewrite (split_sign_uint neg (N.to_uint whole) _ (to_uint_nonnil whole)).
  rewrite (span_digits_uint (N.to_uint whole)); [|reflexivity].
  rewrite (canonical_unorm _ (unorm_to_uint whole)), NilEmpty.usu.
  cbn [String.append]. cbn [Ascii.eqb Bool.eqb].
  rewrite (span_digits_uint frac rest (ends_number_digit _ Hrest)).
  pose proof (NilEmpty.usu frac) as Hus.
  destruct (head_uint frac Hfrac) as (c & r & Hc & _).
  rewrite Hc in Hus |- *. rewrite Hus.
  rewrite DecimalN.Unsigned.of_to.
  destruct rest as [|c1 r1]; [reflexivity|].
  cbn [ends_number] in Hrest. unfold starts_exponent.
  destruct (is_digit c1); try discriminate.
  destruct (Ascii.eqb c1 "."); try discriminate.
  destruct (Ascii.eqb c1 "e"); try discriminate.
  destruct (Ascii.eqb c1 "E"); try discriminate.
  reflexivity.
Qed.

(** *** Values *)

Lemma parse_value_number n c r :
  starts_number c = true ->
  parse_value (S n) (String c r) = parse_number (String c r).
Proof.
  destruct c as [[|] [|] [|] [|] [|] [|] [|] [|]];
    intros H; try discriminate H; reflexivity.
Qed.

Lemma starts_number_head c :
  starts_number c = true -> is_ws c = false /\ Ascii.eqb c "]" = false.
Proof.
  destruct c as [[|] [|] [|] [|] [|] [|] [|] [|]];
    intros H; try discriminate H; split; reflexivity.
Qed.

Lemma is_digit_starts_number c : is_digit c = true -> starts_number c = true.
Proof. intros H. unfold starts_number. now rewrite H. Qed.

Lemma int_repr_head z :
  exists c r, int_repr z = String c r /\ starts_number c = true.
Proof.
  unfold int_repr. destruct z as [|p|p]; cbn [Z.to_int NilEmpty.string_of_int].
  - eexists; eexists; split; reflexivity.
  - destruct (head_uint _ (to_uint_nonnil (Npos p))) as (c & r & Hc & Hd).
    exists c, r. split; [exact Hc | now apply is_digit_starts_number].
  - eexists; eexists; split; reflexivity.
Qed.

Lemma float_repr_head f :
  exists c r, float_repr f = String c r /\ starts_number c = true.
Proof.
  unfold float_repr. destruct (f_neg f).
  - eexists; eexists; split; reflexivity.
  - destruct (head_uint _ (to_uint_nonnil (f_whole f))) as (c & r & Hc & Hd).
    cbn [String.append]. rewrite Hc. cbn [String.append].
    eexists; eexists; split; [reflexivity | now apply is_digit_starts_number].
Qed.

(** A printed value starts with a character that is neither white space
    nor a closing bracket. *)
Lemma iterencode_head level v :
  exists c r,
    iterencode level v = String c r
    /\ is_ws c = false /\ Ascii.eqb c "]" = false.
Proof.
  destruct v as [|[|]|z|f|s|[|x xs]|[|[k x] kvs]];
    try (eexists; eexists; split; [reflexivity | split; reflexivity]).
  - destruct (int_repr_head z) as (c & r & Hc & Hn).
    exists c, r. split; [exact Hc | now apply starts_number_head].
  - destruct (float_repr_head f) as (c & r & Hc & Hn).
    exists c, r. split; [exact Hc | now apply starts_number_head].
Qed.

Lemma skip_ws_iterencode level v tail :
  skip_ws (iterencode level v ++ tail) = iterencode level v ++ tail.
Proof.
  destruct (iterencode_head level v) as (c & r & Hc & Hw & _).
  rewrite Hc. cbn [String.append]. now apply skip_ws_head.
Qed.

Lemma ends_number_items {A} (enc : A -> string) level level' close l rest :
  ends_number
    (items enc ("," ++ newline_indent level') (newline_indent level ++ close) l
       ++ rest) = true.
Proof. destruct l; reflexivity. Qed.

Lemma wf_list l : wf_json (JList l) <-> Forall wf_json l.
Proof.
  induction l as [|x xs IH]; cbn [wf_json].
  - split; [constructor | trivial].
  - split.
    + intros [Hx Hxs]. constructor; [exact Hx | now apply IH].
    + intros H. inversion H; subst. split; [assumption | now apply IH].
Qed.

Lemma wf_dict d :
  wf_json (JDict d)
  <-> NoDup (Dict.keys d) /\ Forall (fun kv => wf_json (snd kv)) d.
Proof.
  cbn [wf_json]. apply and_iff_compat_l.
  induction d as [|[k x] kvs IH].
  - split; [constructor | trivial].
  - split.
    + intros [Hx Hxs]. constructor; [exact Hx | now apply IH].
    + intros H. inversion H; subst. split; [assumption | now apply IH].
Qed.

Lemma parse_elements_items level rest :
  forall xs x n,
    Forall reads_back (x :: xs) ->
    Forall wf_json (x :: xs) ->
    list_sum (map (fun v => S (json_size v)) (x :: xs)) <= n ->
    parse_elements n
      (iterencode (S level) x
         ++ items (iterencode (S level)) ("," ++ newline_indent (S level))
              (newline_indent level ++ "]") xs ++ rest)
    = Some (x :: xs, rest).
Proof.
  induction xs as [|y ys IH]; intros x n Hrb Hwf Hn;
    inversion Hrb as [|? ? Hx Hrb']; inversion Hwf as [|? ? Hwx Hwf']; subst;
    cbn [map list_sum fold_right] in Hn; (destruct n as [|n]; [lia|]);
    cbn [parse_elements];
    rewrite (Hx Hwx (S level) _ n) by (try apply ends_number_items; lia).
  - cbn [items]. rewrite append_assoc, skip_ws_newline_indent. reflexivity.
  - cbn [items]. rewrite !append_assoc.
    cbn [String.append]. rewrite skip_ws_head by reflexivity.
    cbn [Ascii.eqb Bool.eqb]. cbv iota.
    rewrite skip_ws_newline_indent, skip_ws_iterencode.
    assert (Hn' : list_sum (map (fun v => S (json_size v)) (y :: ys)) <= n)
      by (cbn [map list_sum fold_right]; lia).
    pose proof (IH y n Hrb' Hwf' Hn') as Hys.
    cbn [String.append] in Hys. rewrite Hys. reflexivity.
Qed.

Lemma parse_members_items level rest :
  forall kvs k x n,
    Forall (fun kv => reads_back (snd kv)) ((k, x) :: kvs) ->
    Forall (fun kv => wf_json (snd kv)) ((k, x) :: kvs) ->
    list_sum (map (fun kv => S (json_size (snd kv))) ((k, x) :: kvs)) <= n ->
    parse_members n
      (encode_str k ++ ": " ++ iterencode (S level) x
         ++ items (fun kv => encode_str (fst kv) ++ ": "
                               ++ iterencode (S level) (snd kv))
              ("," ++ newline_indent (S level))
              (newline_indent level ++ "}") kvs ++ rest)
    = Some ((k, x) :: kvs, rest).
Proof.
  induction kvs as [|[k' y] kvs IH]; intros k x n Hrb Hwf Hn;
    inversion Hrb as [|? ? Hx Hrb']; inversion Hwf as [|? ? Hwx Hwf']; subst;
    cbn [snd] in Hx, Hwx;
    cbn [map list_sum fold_right snd] in Hn; (destruct n as [|n]; [lia|]);
    match goal with
    | |- parse_members _ (encode_str k ++ ?tail) = _ =>
        destruct (scanstring_encode_str k tail) as (body & Hbody & Hscan)
    end;
    rewrite Hbody; cbn [parse_members];
    cbn [Ascii.eqb Bool.eqb dquote]; cbv iota;
    rewrite Hscan; cbn [String.append];
    rewrite skip_ws_head by reflexivity;
    cbn [Ascii.eqb Bool.eqb]; cbv iota;
    change (skip_ws (String " " ?s)) with (skip_ws s);
    rewrite skip_ws_iterencode;
    rewrite (Hx Hwx (S level) _ n) by (try apply ends_number_items; lia).
  - cbn [items]. rewrite append_assoc, skip_ws_newline_indent. reflexivity.
  - cbn [items fst snd]. rewrite !append_assoc.
    cbn [String.append]. rewrite skip_ws_head by reflexivity.
    cbn [Ascii.eqb Bool.eqb]. cbv iota.
    rewrite skip_ws_newline_indent.
    assert (Hn' : list_sum (map (fun kv => S (json_size (snd kv)))
                              ((k', y) :: kvs)) <= n)
      by (cbn [map list_sum fold_right snd]; lia).
    pose proof (IH k' y n Hrb' Hwf' Hn') as Hys.
    cbn [String.append] in Hys.
    destruct (scanstring_encode_str k'
                (String ":" (String " "
                   (iterencode (S level) y
                      ++ items (fun kv => encode_str (fst kv) ++ String ":" (String " " (iterencode (S level) (snd kv))))
                           (String "," (newline_indent (S level)))
                           (newline_indent level ++ "}") kvs ++ rest))))
      as (body' & Hbody' & _).
    rewrite Hbody' in Hys |- *.
    rewrite skip_ws_head by reflexivity.
    rewrite Hys. reflexivity.
Qed.

Lemma parse_value_list n r c body :
  skip_ws r = String c body ->
  Ascii.eqb c "]" = false ->
  parse_value (S n) (String "[" r)
  = with_value JList (parse_elements n (String c body)).
Proof. intros Hr Hc. cbn [parse_value]. simpl Ascii.eqb. now rewrite Hr, Hc. Qed.

Lemma parse_value_dict n r body :
  skip_ws r = String dquote body ->
  parse_value (S n) (String "{" r)
  = with_value (fun ps => JDict (Dict.of_pairs ps))
      (parse_members n (String dquote body)).
Proof. intros Hr. cbn [parse_value]. simpl Ascii.eqb. now rewrite Hr. Qed.

(** Every well-formed value is read back from its printed form. *)
Lemma iterencode_reads_back v : reads_back v.
Proof.
  induction v using json_rect'; intros Hwf level rest n Hn Hrest;
    (destruct n as [|n]; [cbn [json_size] in Hn; lia|]).
  - reflexivity.
  - destruct b; reflexivity.
  - cbn [iterencode]. destruct (int_repr_head z) as (c & r & Hc & Hs).
    rewrite <- (parse_number_int_repr z rest Hrest).
    rewrite Hc. cbn [String.append]. now apply parse_value_number.
  - cbn [iterencode]. destruct (float_repr_head f) as (c & r & Hc & Hs).
    rewrite <- (parse_number_float_repr f rest Hwf Hrest).
    rewrite Hc. cbn [String.append]. now apply parse_value_number.
  - cbn [iterencode].
    destruct (scanstring_encode_str s rest) as (body & Hbody & Hscan).
    rewrite Hbody. cbn [parse_value]. simpl Ascii.eqb. cbv iota.
    now rewrite Hscan.
  - destruct l as [|x xs]; [reflexivity|].
    apply wf_list in Hwf.
    cbn [iterencode]. rewrite !append_assoc. cbn [String.append].
    destruct (iterencode_head (S level) x) as (c & r & Hc & Hw & Hb).
    erewrite parse_value_list.
    2:{ rewrite skip_ws_newline_indent, skip_ws_iterencode, Hc.
        cbn [String.append]. reflexivity. }
    2:{ exact Hb. }
    change (String c (r ++ ?t)) with (String c r ++ t). rewrite <- Hc.
    pose proof (parse_elements_items level rest xs x n H Hwf) as He.
    cbn [String.append] in He. rewrite He; [reflexivity|].
    cbn [json_size] in Hn. lia.
  - destruct d as [|[k x] kvs]; [reflexivity|].
    apply wf_dict in Hwf. destruct Hwf as [Hnd Hwf].
    cbn [iterencode]. rewrite !append_assoc. cbn [String.append].
    match goal with
    | |- parse_value _ (String _ (newline_indent _ ++ encode_str k ++ ?tail)) = _ =>
        destruct (scanstring_encode_str k tail) as (body & Hbody & _)
    end.
    erewrite parse_value_dict.
    2:{ rewrite skip_ws_newline_indent, Hbody. now apply skip_ws_head. }
    rewrite <- Hbody.
    pose proof (parse_members_items level rest kvs k x n H Hwf) as He.
    cbn [String.append] in He. rewrite He.
    + cbn [with_value]. now rewrite DictFacts.of_pairs_nodup.
    + cbn [json_size] in Hn. lia.
Qed.

Lemma append_nil_r (a : string) : a ++ "" = a.
Proof. induction a as [|x a IH]; simpl; [reflexivity | now rewrite IH]. Qed.

Lemma length_items {A} (enc : A -> string) (size : A -> nat) sep close l :
  Forall (fun x => size x <= String.length (enc x)) l ->
  1 <= String.length sep ->
  list_sum (map (fun x => S (size x)) l)
  <= String.length (items enc sep close l).
Proof.
  intros Hall Hsep. induction Hall as [|x l Hx Hall IH];
    cbn [items map list_sum fold_right]; [lia|].
  rewrite !length_append. unfold list_sum in IH. lia.
Qed.

(** The text is at least as long as the fuel the value needs. *)
Lemma json_size_length v :
  forall level, json_size v <= String.length (iterencode level v).
Proof.
  induction v using json_rect'; intros level.
  - simpl; lia.
  - destruct b; simpl; lia.
  - destruct (iterencode_head level (JInt z)) as (c & r & Hc & _).
    rewrite Hc. simpl. lia.
  - destruct (iterencode_head level (JFloat f)) as (c & r & Hc & _).
    rewrite Hc. simpl. lia.
  - simpl. lia.
  - destruct l as [|x xs]; [simpl; lia|].
    inversion H as [|? ? Hx Hxs]; subst.
    cbn [iterencode json_size map list_sum fold_right].
    rewrite !length_append.
    pose proof (length_items (iterencode (S level)) json_size
                  ("," ++ newline_indent (S level))
                  (newline_indent level ++ "]") xs) as Hl.
    unfold list_sum in Hl. specialize (Hx (S level)).
    assert (Forall (fun x => json_size x <= String.length (iterencode (S level) x)) xs)
      by (eapply Forall_impl; [|exact Hxs]; intros a Ha; apply Ha).
    specialize (Hl H0). simpl String.length in *. lia.
  - destruct d as [|[k x] kvs]; [simpl; lia|].
    inversion H as [|? ? Hx Hxs]; subst. cbn [snd] in Hx.
    cbn [iterencode json_size map list_sum fold_right snd].
    rewrite !length_append.
    pose proof (length_items
                  (fun kv => encode_str (fst kv) ++ ": "
                               ++ iterencode (S level) (snd kv))
                  (fun kv => json_size (snd kv))
                  ("," ++ newline_indent (S level))
                  (newline_indent level ++ "}") kvs) as Hl.
    unfold list_sum in Hl. specialize (Hx (S level)).
    assert (Forall (fun kv => json_size (snd kv)
                     <= String.length (encode_str (fst kv) ++ ": "
                           ++ iterencode (S level) (snd kv))) kvs).
    { eapply Forall_impl; [|exact Hxs]. intros a Ha.
      rewrite !length_append. specialize (Ha (S level)). lia. }
    specialize (Hl H0). simpl String.length in *. lia.
Qed.

(** [json.loads(json.dumps(v, indent=2))] is [v]. *)
Lemma loads_dumps v : wf_json v -> loads (dumps v) = Some v.
Proof.
  intros Hwf. unfold loads, dumps.
  rewrite <- (append_nil_r (iterencode 0 v)) at 2.
  rewrite skip_ws_iterencode.
  rewrite (iterencode_reads_back v Hwf 0 "" _ (json_size_length v 0) eq_refl).
  reflexivity.
Qed.

End JsonFacts.

Section LedgerFile.

Context {W : Type}.

(** C7. Saving a ledger and loading the file gives back the same mapping,
    record for record and field for field, whatever fields and values the
    records hold (ledgers are Python dicts: distinct keys at every level,
    floats as [repr] prints them); and loading with no file gives the empty
    mapping. *)
Theorem ledger_round_trip (s : @pipeline W) :
  wf_json (JDict (jobs s)) ->
  _load_jobs (disk (state_of (_save_jobs s))) = Ok (JDict (jobs s))
  /\ _load_jobs None = Ok (JDict []).
Proof.
  intros Hwf. split; [|reflexivity].
  cbn [_save_jobs state_of disk _load_jobs].
  now rewrite (JsonFacts.loads_dumps _ Hwf).
Qed.

End LedgerFile.

(** ** Concrete runs *)

Module Runs.
Import Scripted.

Lemma wf_meta st : wf_json (meta st).
Proof.
  cbn. repeat split; try discriminate.
  repeat (constructor; [cbn; intuition discriminate|]). constructor.
Defined.

Lemma lower_case_state_is_final_on_a_run :
  let s' := @poll_many _ azure [(2, 30%Z); (1, 5%Z)] mixed_run in
  Dict.get "j3" (jobs s') = Some (meta "failed")
  /\ (exists t, trace s' = (trace mixed_run ++ t)%list
                /\ quiet_about "j3" t = true)
  /\ (forall us, unfinished_of (jobs s') = Ok us -> ~ In "j3" us).
Proof.
  apply (@lower_case_state_is_final _ azure "j3" [(2, 30%Z); (1, 5%Z)]
           mixed_run (meta "failed")).
  - cbn. repeat (constructor; [cbn; intuition discriminate|]). constructor.
  - reflexivity.
  - reflexivity.
Defined.

(** C1, on a run.  The first [poll] asks about [j2] until the service says
    [Failed]: the visit takes the job off the pending set and saves the
    ledger (lines 77-81), and [poll] returns, the job being finished.  The
    stored state is the string [Failed], which the filter of line 67 does
    not know, so for the second [poll] the job is pending again: it makes a
    further [job_status] call for [j2] and overwrites the state with the
    answer, [Running] (the run is followed up to the sleep after that
    sweep).  The record of [j3], whose state is the lower-case [failed], is
    left alone. *)
Theorem finished_job_is_polled_again :
  exists s1 s2 text,
    @poll _ azure 2 30 mixed_run = Returned tt s1
    /\ record_field "j2" "state" (jobs s1) = Some (JStr "Failed")
    /\ mem "Failed" finished_states = true
    /\ trace s1
       = [EStatus "j2" (Ok [("state", JStr "Running");
                            ("raw", JDict [("status", JStr "Running")])]);
          ELog (LogJobState "j2" (JStr "Running"));
          ESleep 30;
          EStatus "j2" (Ok [("state", JStr "Failed");
                            ("raw", JDict [("status", JStr "Failed")])]);
          ELog (LogJobState "j2" (JStr "Failed"));
          ESave text]
    /\ disk s1 = Some text
    /\ unfinished_of (jobs s1) = Ok ["j2"]
    /\ @poll _ azure 1 5 s1 = Running s2
    /\ trace s2
       = (trace s1
            ++ [EStatus "j2" (Ok [("state", JStr "Running");
                                  ("raw", JDict [("status", JStr "Running")])]);
                ELog (LogJobState "j2" (JStr "Running"));
                ESleep 5])%list
    /\ record_field "j2" "state" (jobs s2) = Some (JStr "Running")
    /\ record_field "j3" "state" (jobs s2) = Some (JStr "failed")
    /\ quiet_about "j3" (trace s2) = true.
Proof.
  eexists. eexists. eexists.
  split; [vm_compute; reflexivity|].
  split; [reflexivity|].
  split; [reflexivity|].
  split; [vm_compute; reflexivity|].
  split; [reflexivity|].
  split; [reflexivity|].
  split; [vm_compute; reflexivity|].
  split; [vm_compute; reflexivity|].
  repeat split; reflexivity.
Qed.

(** C2, on a run.  [AzureBatchProvider.job_status] passes the [status] of
    the service on as it is, and [poll] writes it into the ledger as it is:
    after a poll in which the service said [Succeeded], the entry's state
    is the string [Succeeded], which is none of [queued], [running],
    [succeeded], [failed]; the next [poll] would hold the job pending
    again. *)
Theorem poll_writes_vendor_casing :
  exists s',
    @poll _ azure 1 30 succeeded_run = Returned tt s'
    /\ (exists m, Dict.get "j1" (jobs s') = Some (JDict m)
                  /\ Dict.get "state" m = Some (JStr "Succeeded"))
    /\ mem "Succeeded" canonical_states = false
    /\ unfinished_of (jobs s') = Ok ["j1"].
Proof.
  eexists. split; [vm_compute; reflexivity|].
  split; [eexists; split; reflexivity|].
  split; reflexivity.
Qed.

(** C3 as stated fails: a visit that finds the job [Running] writes the
    new state into the ledger in memory and saves nothing, so the file
    (absent here) is not the dump of the ledger. *)
Lemma running_visit_is_not_saved :
  exists s',
    @poll_visit _ azure "j1" ["j1"] running_run = Returned ["j1"] s'
    /\ Dict.get "j1" (jobs s') = Some (meta "Running")
    /\ filter is_save (trace s') = []
    /\ disk s' = None
    /\ disk s' <> Some (Json.dumps (JDict (jobs s'))).
Proof.
  eexists. split; [vm_compute; reflexivity|].
  repeat split; try reflexivity. discriminate.
Qed.

Lemma poll_visit_saves_when_finished_witness :
  exists s' t,
    @poll_visit _ azure "j1" ["j1"] succeeded_run
    = Returned (pop "j1" ["j1"]) s'
    /\ disk s' = Some (Json.dumps (JDict (jobs s')))
    /\ trace s'
       = (trace succeeded_run ++ t ++ [ESave (Json.dumps (JDict (jobs s')))])%list.
Proof.
  exact (@poll_visit_saves_when_finished _ azure "j1" ["j1"] succeeded_run
           [("state", JStr "Succeeded");
            ("raw", JDict [("status", JStr "Succeeded")])]
           (Script [] [] [Ok "j1_transcript.json"])
           [("file", JStr "/media/a.mp4");
            ("submitted", JFloat (PyFloat false 1730000000 (D5 Nil)));
            ("language", JStr "en-US");
            ("state", JStr "submitted")]
           eq_refl eq_refl).
Defined.



Lemma ledger_round_trip_witness :
  _load_jobs (disk (state_of (_save_jobs mixed_run)))
  = Ok (JDict (jobs mixed_run))
  /\ _load_jobs None = Ok (JDict []).
Proof.
  apply (ledger_round_trip mixed_run).
  cbn [wf_json jobs mixed_run start Dict.keys map fst].
  split.
  - repeat (constructor; [cbn; intuition discriminate|]). constructor.
  - exact (conj (wf_meta "succeeded")
             (conj (wf_meta "submitted") (conj (wf_meta "failed") I))).
Defined.

Lemma poll_without_pending_witness :
  forallb (fun kv => is_terminal (snd kv)) (jobs idle_run) = true
  /\ @poll _ azure 3 30 idle_run
     = Returned tt
         (Pipeline (world idle_run) (jobs idle_run) (disk idle_run)
            (trace idle_run ++ [ELog LogNoUnfinished])%list).
Proof.
  split; [reflexivity|].
  apply (@poll_without_pending _ azure 3 30 idle_run). reflexivity.
Defined.

Lemma submit_batch_skips_unsupported_witness :
  supported "/media/notes.txt" = false
  /\ @submit_batch _ azure clock (fun p => p) listing "/media" "en-US" batch_run
     = @submit_paths _ azure clock (fun p => p)
         (["/media/a.mp4"] ++ ["/media/b.WAV"]) "en-US" [] batch_run.
Proof.
  split; [reflexivity|].
  apply (@submit_batch_skips_unsupported _ azure clock (fun p => p) listing
           "/media" "en-US" batch_run ["/media/a.mp4"] "/media/notes.txt"
           ["/media/b.WAV"]); reflexivity.
Defined.

Lemma poll_visit_without_state_key_witness :
  let meta := [("file", JStr "/media/a.mp4");
               ("submitted", JFloat (PyFloat false 1730000000 (D5 Nil)));
               ("language", JStr "en-US");
               ("state", JStr "submitted")] in
  let ledger :=
    Dict.set "j1" (JDict (Dict.set "state" (JStr "unknown") meta))
      (jobs no_status_run) in
  @poll_visit _ plain "j1" ["j1"] no_status_run
  = Returned ["j1"]
      (Pipeline (Script [] [] []) ledger (disk no_status_run)
         (trace no_status_run
            ++ [EStatus "j1" (Ok [("self", JStr "j1")]);
                ELog (LogJobState "j1" (JStr "unknown"))])%list)
  /\ (exists meta',
        Dict.get "j1" ledger = Some (JDict meta')
        /\ Dict.get "state" meta' = Some (JStr "unknown")
        /\ (forall f, f <> "state" -> Dict.get f meta' = Dict.get f meta)
        /\ is_finished (JDict meta') = false
        /\ is_terminal (JDict meta') = false).
Proof.
  apply (@poll_visit_without_state_key _ plain "j1" ["j1"] no_status_run
           [("self", JStr "j1")] (Script [] [] [])); reflexivity.
Defined.

End Runs.

(* ================================================================== *)
(** * More of the pipeline *)

(** ** Relations that every step of a method keeps *)

Section Keeping.

Context {W : Type}.
Variable R : @pipeline W -> @pipeline W -> Prop.
Hypothesis R_refl : forall s, R s s.
Hypothesis R_trans : forall s1 s2 s3, R s1 s2 -> R s2 s3 -> R s1 s3.

Lemma keeps_ret {A} (a : A) : preserves R (@ret W A a).
Proof. intros s. apply R_refl. Qed.

Lemma keeps_lift {A} (r : result A) : preserves R (@lift W A r).
Proof. destruct r; intros s; apply R_refl. Qed.

Lemma keeps_bind {A B} (m : @M W A) (k : A -> @M W B) :
  preserves R m -> (forall a, preserves R (k a)) -> preserves R (bind m k).
Proof.
  intros Hm Hk s. unfold bind. specialize (Hm s).
  destruct (m s) as [a s1|e s1|s1]; simpl in *; try assumption.
  eapply R_trans; [exact Hm | apply Hk].
Qed.

Lemma keeps_try_except {A} (body : @M W A) (handler : exn -> @M W A) :
  preserves R body -> (forall e, preserves R (handler e)) ->
  preserves R (try_except body handler).
Proof.
  intros Hb Hh s. unfold try_except. specialize (Hb s).
  destruct (body s) as [a s1|e s1|s1]; simpl in *; try assumption.
  eapply R_trans; [exact Hb | apply Hh].
Qed.

End Keeping.

(** ** What [poll] may change in the ledger *)

Section PollWrites.

Context {W : Type} {provider : AbstractTranscriptionProvider W}.

Implicit Types (s : @pipeline W).

Lemma same_entry_refl v : same_entry v v.
Proof. destruct v; simpl; auto. Qed.

Lemma same_entry_trans v1 v2 v3 :
  same_entry v1 v2 -> same_entry v2 v3 -> same_entry v1 v3.
Proof.
  destruct v1, v2; simpl; intros H12; try discriminate H12;
    try (injection H12 as ->); try (subst; now auto);
    destruct v3; simpl; intros H23; try discriminate H23;
    try (injection H23 as ->); try assumption; try reflexivity.
  intros f Hs Hr. now rewrite H23, H12.
Qed.

Lemma osr_refl s : only_state_and_result s s.
Proof.
  split; [reflexivity|]. intros j v Hv. exists v. split; [assumption|].
  apply same_entry_refl.
Qed.

Lemma osr_trans s1 s2 s3 :
  only_state_and_result s1 s2 -> only_state_and_result s2 s3 ->
  only_state_and_result s1 s3.
Proof.
  intros [Hk1 H1] [Hk2 H2]. split; [congruence|].
  intros j v Hv. destruct (H1 j v Hv) as (v2 & Hv2 & He1).
  destruct (H2 j v2 Hv2) as (v3 & Hv3 & He2).
  exists v3. split; [assumption|]. eapply same_entry_trans; eassumption.
Qed.

Lemma osr_same_jobs s s' : jobs s' = jobs s -> only_state_and_result s s'.
Proof.
  intros E. split; [now rewrite E|]. intros j v Hv. exists v.
  rewrite E. split; [assumption | apply same_entry_refl].
Qed.

Lemma osr_set_field job_id field v :
  field = "state" \/ field = "result" ->
  preserves only_state_and_result
    (fun s : @pipeline W =>
       match set_field job_id field v (jobs s) with
       | Ok l => Returned tt (with_jobs l s)
       | Raise e => Raised e s
       end).
Proof.
  intros Hf s. unfold set_field.
  destruct (Dict.get job_id (jobs s)) as [[| | | | | |meta]|] eqn:Hget;
    try apply osr_refl.
  simpl. split.
  - apply keys_set_present. eapply get_some_in_keys, Hget.
  - intros j v0 Hv0. destruct (String.eqb j job_id) eqn:E.
    + apply String.eqb_eq in E. subst j. rewrite Hget in Hv0.
      injection Hv0 as <-. eexists.
      split; [cbn [jobs with_jobs]; apply DictFacts.get_set_same|].
      simpl. intros f Hs Hr. apply DictFacts.get_set_other.
      destruct Hf; congruence.
    + apply String.eqb_neq in E. exists v0. split.
      * cbn [jobs with_jobs]. now rewrite DictFacts.get_set_other.
      * apply same_entry_refl.
Qed.

Lemma osr_call_status job_id :
  preserves only_state_and_result (call_status job_id).
Proof.
  intros s. unfold call_status.
  destruct (job_status job_id (world s)) as [[?|?] w]; now apply osr_same_jobs.
Qed.

Lemma osr_call_fetch job_id dest :
  preserves only_state_and_result (call_fetch job_id dest).
Proof.
  intros s. unfold call_fetch.
  destruct (fetch_result job_id dest (world s)) as [[?|?] w];
    now apply osr_same_jobs.
Qed.

Lemma osr_tell e : preserves only_state_and_result (@tell W e).
Proof. intros s. now apply osr_same_jobs. Qed.

Lemma osr_save : preserves only_state_and_result (@_save_jobs W).
Proof. intros s. now apply osr_same_jobs. Qed.

Lemma osr_sleep secs : preserves only_state_and_result (@sleep W secs).
Proof.
  unfold sleep. destruct (secs <? 0)%Z; [|apply osr_tell].
  intros s. apply osr_refl.
Qed.

Ltac osr_bind := apply (keeps_bind _ osr_trans).

Lemma osr_download job_id :
  preserves only_state_and_result (_download_result job_id).
Proof.
  unfold _download_result.
  apply (keeps_try_except _ osr_trans).
  - osr_bind; [apply osr_call_fetch|]. intros path.
    osr_bind; [apply osr_set_field; now right|]. intros _. apply osr_tell.
  - intros e. apply osr_tell.
Qed.

Lemma osr_visit job_id unfinished :
  preserves only_state_and_result (poll_visit job_id unfinished).
Proof.
  unfold poll_visit.
  osr_bind; [apply osr_call_status|]. intros status.
  osr_bind; [apply osr_set_field; now left|]. intros _.
  osr_bind; [apply osr_tell|]. intros _.
  osr_bind; [apply (keeps_lift _ osr_refl)|].
  intros [|]; [|apply (keeps_ret _ osr_refl)].
  osr_bind.
  - destruct (Dict.get_default "state" status (JStr "unknown"));
      try apply (keeps_ret _ osr_refl).
    destruct (startswith "succ" (lower s));
      [apply osr_download | apply (keeps_ret _ osr_refl)].
  - intros _. osr_bind; [apply osr_save|].
    intros _. apply (keeps_ret _ osr_refl).
Qed.

Lemma osr_sweep snapshot :
  forall unfinished,
    preserves only_state_and_result (poll_sweep snapshot unfinished).
Proof.
  induction snapshot as [|job_id rest IH]; intros unfinished; cbn [poll_sweep].
  - apply (keeps_ret _ osr_refl).
  - osr_bind; [apply osr_visit | intros u; apply IH].
Qed.

Lemma osr_loop fuel interval_sec :
  forall unfinished,
    preserves only_state_and_result (poll_loop fuel interval_sec unfinished).
Proof.
  induction fuel as [|fuel IH]; intros [|u0 us]; cbn [poll_loop];
    try apply (keeps_ret _ osr_refl).
  - intros s. apply osr_refl.
  - osr_bind; [apply osr_sweep|]. intros [|u1 us1];
      [apply (keeps_ret _ osr_refl)|].
    osr_bind; [apply osr_sleep | intros _; apply IH].
Qed.

(** X1. However a [poll] call ends (returned, raised, or still running), the
    ledger in memory has the same job ids in the same order as before, every
    record that is a dict has kept all its fields other than [state] and
    [result], and every other record is unchanged. *)
Theorem poll_only_writes_state_and_result fuel interval_sec s :
  only_state_and_result s (state_of (poll fuel interval_sec s)).
Proof.
  unfold poll.
  apply (keeps_bind _ osr_trans).
  - intros s0. destruct (unfinished_of (jobs s0)); apply osr_refl.
  - intros [|u0 us]; [apply osr_tell | apply osr_loop].
Qed.

End PollWrites.

(** ** What holds when [poll] returns *)

Section PollDone.

Context {W : Type} {provider : AbstractTranscriptionProvider W}.

Implicit Types (s : @pipeline W).

Lemma finished_in_same_jobs j s s' :
  Dict.get j (jobs s') = Dict.get j (jobs s) ->
  finished_in j s -> finished_in j s'.
Proof. intros E (m & Hm & Hf). exists m. split; [congruence | exact Hf]. Qed.

Lemma py_in_true v strs : py_in v strs = Ok true -> exists st, v = JStr st /\ mem st strs = true.
Proof.
  destruct v; simpl; intros H; try discriminate.
  injection H as H. eauto.
Qed.

(** A visit that returns either leaves the pending set alone, or takes the
    job out, with its record finished and the ledger saved. *)
Lemma visit_returned job_id u s u1 s1 :
  poll_visit job_id u s = Returned u1 s1 ->
  u1 = u \/ (u1 = pop job_id u /\ finished_in job_id s1 /\ synced s1).
Proof.
  intros Hv.
  destruct (job_status job_id (world s)) as [[status|e] w] eqn:Hst.
  2:{ unfold poll_visit, bind, call_status in Hv. rewrite Hst in Hv.
      discriminate Hv. }
  destruct (Dict.get job_id (jobs s)) as [v|] eqn:Hget.
  2:{ unfold poll_visit, bind, call_status, set_field in Hv.
      rewrite Hst in Hv. cbn in Hv. rewrite Hget in Hv. discriminate Hv. }
  destruct v as [| | | | | |meta];
    try (unfold poll_visit, bind, call_status, set_field in Hv;
         rewrite Hst in Hv; cbn in Hv; rewrite Hget in Hv; discriminate Hv).
  rewrite (poll_visit_unfold _ u _ _ _ _ Hst Hget) in Hv.
  destruct (py_in _ finished_states) as [[|]|e] eqn:Hin; try discriminate Hv.
  2:{ injection Hv as <- _. now left. }
  right. apply py_in_true in Hin. destruct Hin as (st & Hstate & Hmem).
  rewrite Hstate in Hv.
  set (jobs1 := Dict.set job_id (JDict (Dict.set "state" (JStr st) meta)) (jobs s)) in *.
  assert (Hg1 : Dict.get job_id jobs1 = Some (JDict (Dict.set "state" (JStr st) meta)))
    by apply DictFacts.get_set_same.
  assert (Hfin1 : is_finished (JDict (Dict.set "state" (JStr st) meta)) = true).
  { cbn [is_finished]. rewrite DictFacts.get_set_same. exact Hmem. }
  unfold bind at 1 in Hv.
  destruct (startswith "succ" (lower st)).
  - rewrite download_result_outcome in Hv. cbn [world jobs] in Hv.
    destruct (fetch_result _ _ _) as [[path|e] w2].
    + rewrite (set_field_found _ _ _ _ _ Hg1) in Hv.
      unfold bind, ret in Hv. rewrite save_jobs_outcome in Hv.
      injection Hv as <- <-. repeat split.
      eexists. split; [cbn [jobs]; apply DictFacts.get_set_same|].
      cbn [is_finished].
      rewrite DictFacts.get_set_other by discriminate.
      rewrite DictFacts.get_set_same. exact Hmem.
    + unfold bind, ret in Hv. rewrite save_jobs_outcome in Hv.
      injection Hv as <- <-. repeat split.
      eexists. split; [exact Hg1 | exact Hfin1].
  - unfold bind, ret in Hv. rewrite save_jobs_outcome in Hv.
    injection Hv as <- <-. repeat split.
    eexists. split; [exact Hg1 | exact Hfin1].
Qed.

Lemma nodup_pop job_id (u : list string) : NoDup u -> NoDup (pop job_id u).
Proof. intros H. unfold pop. now apply NoDup_filter. Qed.

Lemma in_pop j job_id (u : list string) :
  In j (pop job_id u) <-> In j u /\ j <> job_id.
Proof.
  unfold pop. rewrite filter_In. split; intros [H1 H2]; split; try assumption.
  - intros ->. now rewrite String.eqb_refl in H2.
  - apply String.eqb_neq in H2. now rewrite H2.
Qed.

Lemma sweep_nodup snapshot :
  forall u s u' s',
    poll_sweep snapshot u s = Returned u' s' -> NoDup u -> NoDup u'.
Proof.
  induction snapshot as [|job_id rest IH]; intros u s u' s' Hs Hnd;
    cbn [poll_sweep] in Hs.
  - injection Hs as <- _. exact Hnd.
  - unfold bind in Hs.
    destruct (poll_visit job_id u s) as [u1 s1|e s1|s1] eqn:Hv;
      try discriminate Hs.
    apply visit_returned in Hv. eapply IH; [exact Hs|].
    destruct Hv as [->|(-> & _)]; [exact Hnd | now apply nodup_pop].
Qed.

(** Whatever left the pending set during a sweep was visited in it and is
    finished at its end. *)
Lemma sweep_done snapshot :
  forall u s u' s',
    NoDup snapshot ->
    poll_sweep snapshot u s = Returned u' s' ->
    forall j, In j u -> ~ In j u' -> In j snapshot /\ finished_in j s'.
Proof.
  induction snapshot as [|job_id rest IH]; intros u s u' s' Hnd Hs j Hju Hju';
    cbn [poll_sweep] in Hs.
  - injection Hs as <- _. contradiction.
  - unfold bind in Hs.
    destruct (poll_visit job_id u s) as [u1 s1|e s1|s1] eqn:Hv;
      try discriminate Hs.
    inversion Hnd as [|? ? Hfresh Hnd']; subst.
    apply visit_returned in Hv.
    destruct (in_dec string_dec j u1) as [Hj1|Hj1].
    + destruct (IH u1 s1 u' s' Hnd' Hs j Hj1 Hju') as [Hin Hfin].
      split; [now right | exact Hfin].
    + destruct Hv as [->|(-> & Hfin & _)]; [contradiction|].
      assert (j = job_id).
      { destruct (string_dec j job_id) as [E|E]; [exact E|].
        exfalso. apply Hj1. apply in_pop. now split. }
      subst j. split; [now left|].
      pose proof (preserves_sweep job_id rest Hfresh (pop job_id u) s1) as Hu.
      rewrite Hs in Hu. cbn [state_of] in Hu. destruct Hu as (Hg & _).
      eapply finished_in_same_jobs; [exact Hg | exact Hfin].
Qed.

(** When the job visited last left the pending set in this sweep, the sweep
    ends with the ledger saved. *)
Lemma sweep_last_synced snapshot x :
  forall u s u' s',
    poll_sweep (snapshot ++ [x]) u s = Returned u' s' ->
    ~ In x snapshot -> In x u -> ~ In x u' -> synced s'.
Proof.
  induction snapshot as [|job_id rest IH]; intros u s u' s' Hs Hnin Hxu Hxu';
    cbn [List.app poll_sweep] in Hs; unfold bind in Hs.
  - destruct (poll_visit x u s) as [u1 s1|e s1|s1] eqn:Hv;
      try discriminate Hs.
    injection Hs as <- <-. apply visit_returned in Hv.
    destruct Hv as [->|(_ & _ & Hsync)]; [contradiction | exact Hsync].
  - destruct (poll_visit job_id u s) as [u1 s1|e s1|s1] eqn:Hv;
      try discriminate Hs.
    apply visit_returned in Hv.
    apply (IH u1 s1 u' s' Hs); try assumption.
    + intros Hin. apply Hnin. now right.
    + destruct Hv as [->|(-> & _)]; [exact Hxu|].
      apply in_pop. split; [exact Hxu|]. intros ->. apply Hnin. now left.
Qed.

Lemma sleep_returned secs s s' :
  sleep secs s = Returned tt s' -> jobs s' = jobs s /\ disk s' = disk s.
Proof.
  unfold sleep. destruct (secs <? 0)%Z; [discriminate|].
  intros [= <-]. split; reflexivity.
Qed.

Lemma loop_done fuel interval_sec :
  forall u s s',
    NoDup u -> u <> [] ->
    poll_loop fuel interval_sec u s = Returned tt s' ->
    (forall j, In j u -> finished_in j s') /\ synced s'.
Proof.
  induction fuel as [|fuel IH]; intros u s s' Hnd Hne Hl;
    (destruct u as [|u0 us]; [contradiction|]); cbn [poll_loop] in Hl;
    [discriminate|].
  unfold bind at 1 in Hl.
  destruct (poll_sweep (u0 :: us) (u0 :: us) s) as [u1 s1|e s1|s1] eqn:Hs;
    try discriminate Hl.
  pose proof (sweep_done _ _ _ _ _ Hnd Hs) as Hdone.
  destruct u1 as [|u1 us1].
  - injection Hl as <-. split.
    + intros j Hj. now apply Hdone.
    + destruct (exists_last (l := u0 :: us)) as (front & x & E); [discriminate|].
      rewrite E in Hnd, Hs.
      apply NoDup_remove_2 in Hnd. rewrite List.app_nil_r in Hnd.
      eapply sweep_last_synced; [exact Hs | exact Hnd | | intros []].
      apply in_or_app. right. now left.
  - unfold bind in Hl.
    destruct (sleep interval_sec s1) as [[] s2|e s2|s2] eqn:Hsl;
      try discriminate Hl.
    apply sleep_returned in Hsl. destruct Hsl as [Hj2 _].
    pose proof (sweep_nodup _ _ _ _ _ Hs Hnd) as Hnd1.
    destruct (IH (u1 :: us1) s2 s' Hnd1 ltac:(discriminate) Hl) as [Hfin Hsync].
    split; [|exact Hsync].
    intros j Hj. destruct (in_dec string_dec j (u1 :: us1)) as [Hj1|Hj1].
    + now apply Hfin.
    + destruct (Hdone j Hj Hj1) as [_ Hf1].
      pose proof (preserves_loop j fuel interval_sec (u1 :: us1) Hj1 s2) as Hu.
      rewrite Hl in Hu. cbn [state_of] in Hu. destruct Hu as (Hg & _).
      eapply finished_in_same_jobs; [exact Hg|].
      eapply finished_in_same_jobs; [|exact Hf1]. now rewrite Hj2.
Qed.

Lemma unfinished_nodup (l : dict) :
  forall us, unfinished_of l = Ok us -> NoDup (Dict.keys l) -> NoDup us.
Proof.
  induction l as [|[jid meta] l IH]; simpl; intros us.
  - intros [= <-] _. constructor.
  - destruct (meta_get_state meta) as [st|]; [|discriminate].
    destruct (py_in st terminal_states) as [b|]; [|discriminate].
    destruct (unfinished_of l) as [us'|] eqn:Hus; [|discriminate].
    intros [= <-] Hnd. inversion Hnd as [|? ? Hfresh Hnd']; subst.
    destruct b; [now apply IH|].
    constructor; [|now apply IH].
    intros Hin. apply Hfresh. eapply unfinished_in_keys; eassumption.
Qed.

(** X2. When [poll] returns, every job it held pending at the start has a
    record whose state is one of [Succeeded], [Failed], [succeeded],
    [failed]. *)
Theorem poll_returns_with_all_finished fuel interval_sec s s' pending :
  NoDup (Dict.keys (jobs s)) ->
  unfinished_of (jobs s) = Ok pending ->
  poll fuel interval_sec s = Returned tt s' ->
  forall job_id, In job_id pending -> finished_in job_id s'.
Proof.
  intros Hnd Hus Hp job_id Hin.
  unfold poll, bind in Hp. rewrite Hus in Hp. cbn [lift ret] in Hp.
  destruct pending as [|u0 us]; [contradiction|].
  pose proof (unfinished_nodup _ _ Hus Hnd) as Hndu.
  now apply (loop_done fuel interval_sec (u0 :: us) s s' Hndu ltac:(discriminate) Hp).
Qed.

Lemma poll_returned_synced fuel interval_sec s s' pending :
  NoDup (Dict.keys (jobs s)) ->
  unfinished_of (jobs s) = Ok pending ->
  pending <> [] ->
  poll fuel interval_sec s = Returned tt s' ->
  synced s'.
Proof.
  intros Hnd Hus Hne Hp.
  unfold poll, bind in Hp. rewrite Hus in Hp. cbn [lift ret] in Hp.
  destruct pending as [|u0 us]; [contradiction|].
  pose proof (unfinished_nodup _ _ Hus Hnd) as Hndu.
  now apply (loop_done fuel interval_sec (u0 :: us) s s' Hndu ltac:(discriminate) Hp).
Qed.

(** X3. When [poll] returns after having had at least one job pending, the
    ledger file holds the dump of the ledger in memory: nothing [poll] wrote
    into the ledger is left unsaved. *)
Theorem poll_returns_with_ledger_saved fuel interval_sec s s' pending :
  NoDup (Dict.keys (jobs s)) ->
  unfinished_of (jobs s) = Ok pending ->
  pending <> [] ->
  poll fuel interval_sec s = Returned tt s' ->
  synced s'.
Proof. apply poll_returned_synced. Qed.

End PollDone.

(** ** Errors and edges of [poll] *)

Section PollEdges.

Context {W : Type} {provider : AbstractTranscriptionProvider W}.

Implicit Types (s : @pipeline W).

Lemma poll_sweep_app before after :
  forall u s,
    poll_sweep (before ++ after) u s
    = bind (poll_sweep before u) (fun u1 => poll_sweep after u1) s.
Proof.
  induction before as [|job_id rest IH]; intros u s; cbn [List.app poll_sweep].
  - reflexivity.
  - unfold bind in *.
    destruct (poll_visit job_id u s) as [u1 s1|e s1|s1]; try reflexivity.
    apply IH.
Qed.

(** X4. A failing status query stops the whole call.  If [job_status]
    raises for a job in the first sweep, after the jobs before it were
    visited, [poll] raises that exception at once: the jobs after it in the
    sweep are not queried, nothing is saved and no sleep happens after the
    failure; the state is the one the earlier visits left, plus the failed
    call in the trace. *)
Theorem poll_status_error_aborts fuel interval_sec s before job_id after u1 s1 e w :
  unfinished_of (jobs s) = Ok (before ++ job_id :: after)%list ->
  poll_sweep before (before ++ job_id :: after)%list s = Returned u1 s1 ->
  job_status job_id (world s1) = (Raise e, w) ->
  poll (S fuel) interval_sec s
  = Raised e
      (Pipeline w (jobs s1) (disk s1)
         (trace s1 ++ [EStatus job_id (Raise e)])%list).
Proof.
  intros Hus Hbefore Hst.
  unfold poll. unfold bind at 1. rewrite Hus. cbn [lift ret].
  destruct (before ++ job_id :: after)%list as [|u0 us] eqn:Hu.
  { destruct before; discriminate Hu. }
  cbn [poll_loop]. unfold bind at 1. rewrite <- Hu at 1.
  rewrite poll_sweep_app. unfold bind at 1. rewrite Hbefore.
  cbn [poll_sweep]. unfold bind at 1.
  unfold poll_visit. unfold bind at 1. unfold call_status. rewrite Hst.
  reflexivity.
Qed.

(** X5. With a negative interval [poll] cannot wait: if a job is still
    pending after the first sweep, the call raises the [ValueError] of
    [time.sleep] in the state the sweep left, for any fuel. *)
Theorem poll_negative_interval_raises fuel interval_sec s u j rest s1 :
  (interval_sec < 0)%Z ->
  unfinished_of (jobs s) = Ok u ->
  poll_sweep u u s = Returned (j :: rest) s1 ->
  poll (S fuel) interval_sec s
  = Raised (Exn "ValueError" "sleep length must be non-negative") s1.
Proof.
  intros Hneg Hus Hsweep.
  unfold poll. unfold bind at 1. rewrite Hus. cbn [lift ret].
  destruct u as [|u0 us]; [discriminate Hsweep|].
  cbn [poll_loop]. unfold bind at 1. rewrite Hsweep.
  unfold bind, sleep. apply Z.ltb_lt in Hneg. now rewrite Hneg.
Qed.

Lemma unfinished_of_not_dict (l : dict) :
  all_dicts l = false -> exists e, unfinished_of l = Raise e.
Proof.
  induction l as [|[jid meta] l IH]; cbn [all_dicts forallb snd]; [discriminate|].
  intros H. cbn [unfinished_of].
  destruct meta as [| | | | | |d]; try (eexists; reflexivity).
  cbn [meta_get_state]. cbn [andb] in H.
  destruct (py_in _ terminal_states) as [b|e]; [|eexists; reflexivity].
  destruct (IH H) as [e He]. rewrite He. eexists; reflexivity.
Qed.

(** X12. A ledger with a record that is not an object (a hand-edited file,
    say) makes [poll] raise before anything else happens: no provider call,
    no save, no log line; the pipeline is as it was. *)
Theorem poll_rejects_malformed_ledger fuel interval_sec s :
  all_dicts (jobs s) = false ->
  exists e, poll fuel interval_sec s = Raised e s.
Proof.
  intros H. destruct (unfinished_of_not_dict _ H) as [e He].
  exists e. unfold poll, bind. now rewrite He.
Qed.

(** *** Sweeps never sleep *)

Lemma awake_refl s : awake s s.
Proof. exists []. split; [now rewrite List.app_nil_r | reflexivity]. Qed.

Lemma awake_trans s1 s2 s3 : awake s1 s2 -> awake s2 s3 -> awake s1 s3.
Proof.
  intros (t1 & H1 & N1) (t2 & H2 & N2). exists (t1 ++ t2)%list. split.
  - now rewrite H2, H1, List.app_assoc.
  - unfold never_slept in *. now rewrite forallb_app, N1, N2.
Qed.

Lemma awake_emit e s : is_sleep e = false -> awake s (emit e s).
Proof.
  intros He. exists [e]. split; [reflexivity|]. simpl. now rewrite He.
Qed.

Lemma awake_emit_after e s s0 :
  trace s0 = trace s -> is_sleep e = false -> awake s (emit e s0).
Proof.
  intros E He. exists [e]. split; [cbn; now rewrite E|]. simpl. now rewrite He.
Qed.

Lemma awake_same_trace s s' : trace s' = trace s -> awake s s'.
Proof. intros E. exists []. now rewrite E, List.app_nil_r. Qed.

Lemma awake_visit job_id unfinished :
  preserves awake (poll_visit job_id unfinished).
Proof.
  assert (Htell : forall e, is_sleep e = false -> preserves awake (@tell W e))
    by (intros e He s; now apply awake_emit).
  assert (Hset : forall f v,
             preserves awake
               (fun s : @pipeline W =>
                  match set_field job_id f v (jobs s) with
                  | Ok l => Returned tt (with_jobs l s)
                  | Raise e => Raised e s
                  end)).
  { intros f v s. destruct (set_field job_id f v (jobs s));
      now apply awake_same_trace. }
  unfold poll_visit.
  apply (keeps_bind _ awake_trans).
  { intros s. unfold call_status.
    destruct (job_status job_id (world s)) as [[?|?] w];
      now apply awake_emit_after. }
  intros status. apply (keeps_bind _ awake_trans); [apply Hset|].
  intros _. apply (keeps_bind _ awake_trans); [now apply Htell|].
  intros _. apply (keeps_bind _ awake_trans); [apply (keeps_lift _ awake_refl)|].
  intros [|]; [|apply (keeps_ret _ awake_refl)].
  apply (keeps_bind _ awake_trans).
  - assert (Hd : preserves awake (_download_result job_id)).
    { unfold _download_result. apply (keeps_try_except _ awake_trans).
      - apply (keeps_bind _ awake_trans).
        + intros s. unfold call_fetch.
          destruct (fetch_result _ _ (world s)) as [[?|?] w];
            now apply awake_emit_after.
        + intros path. apply (keeps_bind _ awake_trans); [apply Hset|].
          intros _. now apply Htell.
      - intros e. now apply Htell. }
    destruct (Dict.get_default "state" status (JStr "unknown"));
      try apply (keeps_ret _ awake_refl).
    destruct (startswith "succ" (lower s));
      [exact Hd | apply (keeps_ret _ awake_refl)].
  - intros _. apply (keeps_bind _ awake_trans).
    + intros s. now apply (awake_emit_after (ESave _) s s).
    + intros _. apply (keeps_ret _ awake_refl).
Qed.

Lemma awake_sweep snapshot :
  forall unfinished, preserves awake (poll_sweep snapshot unfinished).
Proof.
  induction snapshot as [|job_id rest IH]; intros unfinished; cbn [poll_sweep].
  - apply (keeps_ret _ awake_refl).
  - apply (keeps_bind _ awake_trans); [apply awake_visit | intros u; apply IH].
Qed.

(** *** A provider that has finished everything *)

Lemma has_record_osr j s s' :
  only_state_and_result s s' -> has_record j s -> has_record j s'.
Proof.
  intros [_ H] (m & Hm). destruct (H j _ Hm) as (v' & Hv' & Hsame).
  destruct v' as [| | | | | |m']; simpl in Hsame; try discriminate Hsame.
  now exists m'.
Qed.

Lemma visit_of_finished job_id u s :
  always_finished provider ->
  has_record job_id s ->
  exists s1, poll_visit job_id u s = Returned (pop job_id u) s1.
Proof.
  intros Hdone (meta & Hget).
  destruct (Hdone job_id (world s)) as (status & w & st & Hst & Hstate & Hmem).
  rewrite (poll_visit_unfold _ u _ _ _ _ Hst Hget).
  unfold Dict.get_default. rewrite Hstate.
  cbn [py_in]. unfold finished_states. rewrite Hmem.
  unfold bind at 1.
  destruct (startswith "succ" (lower st)).
  - rewrite download_result_outcome.
    destruct (fetch_result _ _ _) as [[path|e] w2];
      [destruct (set_field _ _ _ _)|]; eexists; reflexivity.
  - eexists; reflexivity.
Qed.

Lemma sweep_of_finished snapshot :
  always_finished provider ->
  forall u s,
    (forall j, In j snapshot -> has_record j s) ->
    exists s1,
      poll_sweep snapshot u s
      = Returned (fold_left (fun a j => pop j a) snapshot u) s1.
Proof.
  intros Hdone. induction snapshot as [|job_id rest IH]; intros u s Hrec;
    cbn [poll_sweep fold_left].
  - eexists; reflexivity.
  - destruct (visit_of_finished job_id u s Hdone (Hrec _ (or_introl eq_refl)))
      as (s1 & Hv).
    unfold bind. rewrite Hv. apply IH.
    intros j Hj. eapply has_record_osr; [|apply Hrec; now right].
    pose proof (osr_visit job_id u s) as Ho. now rewrite Hv in Ho.
Qed.

Lemma in_fold_pop snapshot :
  forall (u : list string) x,
    In x (fold_left (fun a j => pop j a) snapshot u) -> In x u /\ ~ In x snapshot.
Proof.
  induction snapshot as [|j rest IH]; intros u x; cbn [fold_left].
  - intros H. split; [exact H | intros []].
  - intros H. apply IH in H. destruct H as [H1 H2].
    apply in_pop in H1. destruct H1 as [H1 Hne].
    split; [exact H1|]. intros [E|Hin]; [now subst | contradiction].
Qed.

Lemma fold_pop_self (u : list string) :
  fold_left (fun a j => pop j a) u u = [].
Proof.
  destruct (fold_left (fun a j => pop j a) u u) as [|x l] eqn:E; [reflexivity|].
  assert (Hin : In x (fold_left (fun a j => pop j a) u u))
    by (rewrite E; now left).
  apply in_fold_pop in Hin. destruct Hin; contradiction.
Qed.

Lemma unfinished_has_record (l : dict) :
  forall us j,
    unfinished_of l = Ok us -> In j us ->
    exists m, Dict.get j l = Some (JDict m).
Proof.
  induction l as [|[jid meta] l IH]; cbn [unfinished_of]; intros us j.
  - intros [= <-] [].
  - destruct meta as [| | | | | |d]; cbn [meta_get_state]; try discriminate.
    destruct (py_in _ terminal_states) as [b|]; [|discriminate].
    destruct (unfinished_of l) as [us'|] eqn:Hus; [|discriminate].
    intros [= <-] Hin. cbn [Dict.get].
    destruct (String.eqb j jid) eqn:E; [now exists d|].
    apply (IH us' j eq_refl).
    destruct b; [exact Hin|]. destruct Hin as [->|Hin]; [|exact Hin].
    now rewrite String.eqb_refl in E.
Qed.

(** X6. If the provider reports every job finished, [poll] is over after a
    single sweep: with any fuel of at least one and any interval it returns,
    and it never sleeps. *)
Theorem poll_returns_after_one_sweep fuel interval_sec s pending :
  always_finished provider ->
  unfinished_of (jobs s) = Ok pending ->
  exists s' t,
    poll (S fuel) interval_sec s = Returned tt s'
    /\ trace s' = (trace s ++ t)%list
    /\ never_slept t = true.
Proof.
  intros Hdone Hus.
  unfold poll. unfold bind at 1. rewrite Hus. cbn [lift ret].
  destruct pending as [|u0 us].
  - eexists; exists [ELog LogNoUnfinished]. repeat split.
  - cbn [poll_loop]. unfold bind at 1.
    destruct (sweep_of_finished (u0 :: us) Hdone (u0 :: us) s) as (s1 & Hs).
    { intros j Hj. eapply unfinished_has_record; eassumption. }
    pose proof (awake_sweep (u0 :: us) (u0 :: us) s) as Ha.
    rewrite Hs in Ha |- *. rewrite fold_pop_self.
    destruct Ha as (t & Ht & Hn). exists s1, t. repeat split; assumption.
Qed.

End PollEdges.

(** ** More of [submit_single] and [submit_batch] *)

Section SubmitFacts.

Context {W : Type} {provider : AbstractTranscriptionProvider W}.
Variable time_time : W -> pyfloat.
Variable resolve : string -> string.
Variable rglob : string -> list string.

Implicit Types (s : @pipeline W).

(** What a returning [submit_single] did. *)
Lemma submit_single_returned media language s job_id s' :
  submit_single time_time resolve media language s = Returned job_id s' ->
  exists w,
    submit_job (resolve media) language (world s) = (Ok job_id, w)
    /\ jobs s'
       = Dict.set job_id
           (JDict [("file", JStr (resolve media));
                   ("submitted", JFloat (time_time w));
                   ("language", JStr language);
                   ("state", JStr "submitted")]) (jobs s)
    /\ synced s'.
Proof.
  intros H. pose proof (submit_single_outcome time_time resolve media language s) as Ho.
  destruct (submit_job (resolve media) language (world s)) as [[id|e] w].
  - destruct Ho as [Ho _]. rewrite Ho in H. injection H as <- <-.
    exists w. repeat split.
  - rewrite Ho in H. discriminate H.
Qed.

Lemma submit_single_raised media language s e s' :
  submit_single time_time resolve media language s = Raised e s' ->
  jobs s' = jobs s /\ disk s' = disk s.
Proof.
  intros H. pose proof (submit_single_outcome time_time resolve media language s) as Ho.
  destruct (submit_job (resolve media) language (world s)) as [[id|e0] w].
  - destruct Ho as [Ho _]. rewrite Ho in H. discriminate H.
  - rewrite Ho in H. injection H as _ <-. split; reflexivity.
Qed.

Lemma submit_single_not_running media language s s' :
  submit_single time_time resolve media language s <> Running s'.
Proof.
  pose proof (submit_single_outcome time_time resolve media language s) as Ho.
  destruct (submit_job (resolve media) language (world s)) as [[id|e0] w].
  - destruct Ho as [Ho _]. rewrite Ho. discriminate.
  - rewrite Ho. discriminate.
Qed.

Lemma unfinished_includes_submitted (l : dict) :
  forall us j meta,
    unfinished_of l = Ok us ->
    Dict.get j l = Some (JDict meta) ->
    Dict.get "state" meta = Some (JStr "submitted") ->
    In j us.
Proof.
  induction l as [|[jid m] l IH]; cbn [unfinished_of Dict.get]; intros us j meta;
    [discriminate 2|].
  destruct (meta_get_state m) as [st|] eqn:Hst; [|discriminate].
  destruct (py_in st terminal_states) as [b|] eqn:Hin; [|discriminate].
  destruct (unfinished_of l) as [us'|] eqn:Hus; [|discriminate].
  intros [= <-]. destruct (String.eqb j jid) eqn:E.
  - apply String.eqb_eq in E. subst jid. intros [= ->] Hsub.
    cbn [meta_get_state] in Hst. unfold Dict.get_default in Hst.
    rewrite Hsub in Hst. injection Hst as <-.
    cbn in Hin. injection Hin as <-. now left.
  - intros Hget Hsub. specialize (IH us' j meta eq_refl Hget Hsub).
    destruct b; [exact IH | now right].
Qed.

(** X7. A job that [submit_single] has just recorded is pending for the next
    [poll]: whenever the filter that opens [poll] succeeds on the new ledger,
    the returned id is in the set it computes. *)
Theorem submitted_job_is_pending media language s job_id s' pending :
  submit_single time_time resolve media language s = Returned job_id s' ->
  unfinished_of (jobs s') = Ok pending ->
  In job_id pending.
Proof.
  intros H Hus. apply submit_single_returned in H.
  destruct H as (w & _ & Hjobs & _).
  eapply (unfinished_includes_submitted _ _ _ _ Hus).
  - rewrite Hjobs. apply DictFacts.get_set_same.
  - reflexivity.
Qed.

(** X8. [submit_single] touches one entry only.  Every other job keeps its
    record; an id the ledger does not know yet is added at the end; and an
    id the ledger already holds has its record replaced where it stands, by
    a fresh [submitted] record without [result], the ledger keeping its keys
    and order. *)
Theorem submit_single_touches_one_entry media language s job_id s' :
  submit_single time_time resolve media language s = Returned job_id s' ->
  (forall j, j <> job_id -> Dict.get j (jobs s') = Dict.get j (jobs s))
  /\ (~ In job_id (Dict.keys (jobs s)) ->
      Dict.keys (jobs s') = (Dict.keys (jobs s) ++ [job_id])%list)
  /\ (In job_id (Dict.keys (jobs s)) ->
      Dict.keys (jobs s') = Dict.keys (jobs s)
      /\ record_field job_id "state" (jobs s') = Some (JStr "submitted")
      /\ record_field job_id "result" (jobs s') = None).
Proof.
  intros H. apply submit_single_returned in H.
  destruct H as (w & _ & Hjobs & _). rewrite Hjobs.
  split; [|split].
  - intros j Hj. now apply DictFacts.get_set_other.
  - intros Hfresh. rewrite (DictFacts.set_fresh _ _ _ Hfresh).
    unfold Dict.keys. now rewrite map_app.
  - intros Hin. split; [now apply keys_set_present|].
    unfold record_field. rewrite DictFacts.get_set_same. split; reflexivity.
Qed.

Lemma submitted_in_after_submit media language s job_id s' :
  submit_single time_time resolve media language s = Returned job_id s' ->
  submitted_in job_id s'
  /\ (forall j, submitted_in j s -> submitted_in j s')
  /\ incl (Dict.keys (jobs s)) (Dict.keys (jobs s')).
Proof.
  intros H. apply submit_single_returned in H.
  destruct H as (w & _ & Hjobs & _).
  assert (Hnew : submitted_in job_id s').
  { eexists. rewrite Hjobs. split; [apply DictFacts.get_set_same | reflexivity]. }
  split; [exact Hnew | split].
  - intros j (m & Hm & Hst). destruct (string_dec j job_id) as [->|Hne];
      [exact Hnew|].
    exists m. rewrite Hjobs. split; [|exact Hst].
    now rewrite DictFacts.get_set_other.
  - rewrite Hjobs. intros k Hk.
    destruct (in_dec string_dec job_id (Dict.keys (jobs s))) as [Hin|Hnin].
    + now rewrite keys_set_present.
    + rewrite (DictFacts.set_fresh _ _ _ Hnin). unfold Dict.keys.
      rewrite map_app. apply in_or_app. now left.
Qed.

Lemma submit_paths_ledger paths language :
  forall acc s ids s',
    submit_paths time_time resolve paths language acc s = Returned ids s' ->
    (forall id, In id acc -> submitted_in id s) ->
    (forall id, In id ids -> submitted_in id s')
    /\ incl (Dict.keys (jobs s)) (Dict.keys (jobs s'))
    /\ ((ids = acc /\ jobs s' = jobs s /\ disk s' = disk s)
        \/ (synced s' /\ (List.length acc < List.length ids)%nat)).
Proof.
  induction paths as [|path rest IH]; intros acc s ids s' Hr Hacc.
  - cbn [submit_paths] in Hr. injection Hr as <- <-.
    split; [exact Hacc | split; [apply incl_refl | left; auto]].
  - destruct (supported path) eqn:Hs.
    + rewrite (submit_paths_supported _ _ _ _ _ _ _ Hs) in Hr.
      destruct (submit_single time_time resolve path language s)
        as [job_id s1|e s1|s1] eqn:Hsub.
      * destruct (submitted_in_after_submit _ _ _ _ _ Hsub) as (Hnew & Hold & Hk).
        destruct (IH _ _ _ _ Hr) as (H1 & H2 & H3).
        { intros id Hin. apply in_app_or in Hin.
          destruct Hin as [Hin|[<-|[]]]; [apply Hold, Hacc, Hin | exact Hnew]. }
        split; [exact H1 | split; [eapply incl_tran; eassumption|]].
        right. apply submit_single_returned in Hsub.
        destruct Hsub as (w & _ & _ & Hsync1).
        destruct H3 as [(-> & Hj & Hd)|[Hsync Hlen]].
        -- split; [unfold synced in *; now rewrite Hd, Hj|].
           rewrite List.length_app. cbn. lia.
        -- split; [exact Hsync|]. rewrite List.length_app in Hlen. cbn in Hlen. lia.
      * apply submit_single_raised in Hsub. destruct Hsub as [Hj Hd].
        destruct (IH _ _ _ _ Hr) as (H1 & H2 & H3).
        { intros id Hin. destruct (Hacc id Hin) as (m & Hm & Hst).
          exists m. cbn [emit jobs]. rewrite Hj. auto. }
        cbn [emit jobs disk] in H2, H3. rewrite Hj in H2. rewrite Hj, Hd in H3.
        auto.
      * discriminate Hr.
    + rewrite (submit_paths_unsupported _ _ _ _ _ _ _ Hs) in Hr.
      now apply IH.
Qed.

(** X9. Every id [submit_batch] returns has a record in state [submitted] in
    the ledger the batch leaves, and the batch removes no job: every id the
    ledger held before is still a key. *)
Theorem submit_batch_records_every_id directory language s ids s' :
  submit_batch time_time resolve rglob directory language s = Returned ids s' ->
  (forall id, In id ids -> submitted_in id s')
  /\ incl (Dict.keys (jobs s)) (Dict.keys (jobs s')).
Proof.
  intros H. unfold submit_batch in H.
  destruct (submit_paths_ledger _ _ _ _ _ _ H) as (H1 & H2 & _);
    [intros id [] | auto].
Qed.

(** X10. [submit_batch] leaves the ledger file in step with memory: a batch
    that returns no id has changed neither the ledger nor the file, and a
    batch that returns at least one id ends with the file holding the dump
    of the ledger in memory. *)
Theorem submit_batch_keeps_file_in_step directory language s ids s' :
  submit_batch time_time resolve rglob directory language s = Returned ids s' ->
  (ids = [] -> jobs s' = jobs s /\ disk s' = disk s)
  /\ (ids <> [] -> synced s').
Proof.
  intros H. unfold submit_batch in H.
  destruct (submit_paths_ledger _ _ _ _ _ _ H) as (_ & _ & H3);
    [intros id []|].
  split.
  - intros ->. destruct H3 as [(_ & Hj & Hd)|[_ Hlen]]; [auto|].
    cbn in Hlen. lia.
  - intros Hne. destruct H3 as [(-> & _)|[Hsync _]];
      [contradiction | exact Hsync].
Qed.

(** *** The batch against the answers of the provider *)

Lemma ledger_after_none language (rs : list (string * result string * W)) ledger :
  accepted rs = [] -> ledger_after time_time resolve language rs ledger = ledger.
Proof.
  revert ledger. induction rs as [|[[path [job_id|e]] w] rs IH]; intros ledger;
    cbn [accepted ledger_after]; [reflexivity | discriminate | apply IH].
Qed.

Lemma submissions_files paths language w :
  map (fun a => fst (fst a)) (submissions resolve paths language w) = paths.
Proof.
  revert w. induction paths as [|path rest IH]; intros w; cbn [submissions];
    [reflexivity|].
  destruct (submit_job (resolve path) language w) as [r w1].
  cbn [map fst]. now rewrite IH.
Qed.

(** The loop of [submit_batch] does what the provider's answers say, one
    supported file after the other, and always returns. *)
Lemma submit_paths_answers paths language :
  forall acc s,
    let rs := submissions resolve (filter supported paths) language (world s) in
    exists s' t,
      submit_paths time_time resolve paths language acc s
      = Returned (acc ++ accepted rs)%list s'
      /\ world s' = world_after (world s) rs
      /\ jobs s' = ledger_after time_time resolve language rs (jobs s)
      /\ disk s' = match accepted rs with
                   | [] => disk s
                   | _ :: _ => Some (Json.dumps (JDict (jobs s')))
                   end
      /\ trace s' = (trace s ++ t)%list
      /\ filter is_provider_call t = submit_calls resolve language rs
      /\ filter is_error_log t = submit_failures rs.
Proof.
  induction paths as [|path rest IH]; intros acc s; cbv zeta.
  - exists s, []. cbn. rewrite !List.app_nil_r. repeat split; reflexivity.
  - destruct (supported path) eqn:Hs.
    + rewrite (submit_paths_supported _ _ _ _ _ _ _ Hs).
      cbn [filter]. rewrite Hs. cbn [submissions].
      pose proof (submit_single_outcome time_time resolve path language s) as H1.
      destruct (submit_job (resolve path) language (world s)) as [[job_id|e] w].
      * destruct H1 as [H1 _]. rewrite H1.
        match goal with
        | |- context [submit_paths _ _ rest language _ ?s1] =>
            destruct (IH (acc ++ [job_id])%list s1)
              as (s' & t & Hr & Hw & Hj & Hd & Ht & Hc & He);
            cbn [world jobs disk trace] in Hw, Hj, Hd, Ht
        end.
        exists s',
          ([ESubmit (resolve path) language (Ok job_id);
            ESave (Json.dumps
                     (JDict (Dict.set job_id
                               (JDict [("file", JStr (resolve path));
                                       ("submitted", JFloat (time_time w));
                                       ("language", JStr language);
                                       ("state", JStr "submitted")])
                               (jobs s))));
            ELog (LogSubmitted (path_name (resolve path)) job_id)] ++ t)%list.
        rewrite Hr. cbn [accepted world_after ledger_after submit_calls
                           submit_failures map fst snd].
        split; [now rewrite <- List.app_assoc|].
        split; [exact Hw|]. split; [exact Hj|].
        split.
        { rewrite Hd. destruct (accepted _) eqn:Ha; [|reflexivity].
          rewrite Hj. now rewrite (ledger_after_none _ _ _ Ha). }
        split; [rewrite Ht; now rewrite <- List.app_assoc|].
        split; [cbn [filter is_provider_call List.app]; now rewrite Hc|].
        cbn [filter is_error_log List.app]. exact He.
      * rewrite H1.
        match goal with
        | |- context [submit_paths _ _ rest language _ ?s1] =>
            destruct (IH acc s1)
              as (s' & t & Hr & Hw & Hj & Hd & Ht & Hc & He);
            cbn [world jobs disk trace emit] in Hw, Hj, Hd, Ht
        end.
        exists s',
          ([ESubmit (resolve path) language (Raise e);
            ELog (LogSubmitFailed (path_name path) e)] ++ t)%list.
        rewrite Hr. cbn [accepted world_after ledger_after submit_calls
                           submit_failures map fst snd].
        split; [reflexivity|].
        split; [exact Hw|]. split; [exact Hj|]. split; [exact Hd|].
        split; [rewrite Ht; now rewrite <- !List.app_assoc|].
        split; [cbn [filter is_provider_call List.app]; now rewrite Hc|].
        cbn [filter is_error_log List.app]. now rewrite He.
    + rewrite (submit_paths_unsupported _ _ _ _ _ _ _ Hs).
      cbn [filter]. rewrite Hs. apply IH.
Qed.

(** C4. [submit_batch] always returns, whatever each [submit_job] does, and
    what it returns and leaves is fixed by the answers of the provider to
    the supported files of the enumeration, asked in order, each call
    starting where the call before ended (also after a failure): there is
    one answer for each supported file; the list returned is exactly the ids
    of the submissions that went through; each of them has a record in
    state [submitted] in the ledger, which holds nothing else new; the file
    holds the dump of that ledger as soon as one submission went through;
    the provider calls of the batch are exactly these submissions; and each
    submission that raised is logged as an error, once, with its exception,
    which goes no further. *)
Theorem submit_batch_isolates_failures directory language s :
  let files := filter supported (rglob (resolve directory)) in
  let rs := submissions resolve files language (world s) in
  exists s' t,
    submit_batch time_time resolve rglob directory language s
    = Returned (accepted rs) s'
    /\ map (fun a => fst (fst a)) rs = files
    /\ world s' = world_after (world s) rs
    /\ jobs s' = ledger_after time_time resolve language rs (jobs s)
    /\ (forall job_id, In job_id (accepted rs) -> submitted_in job_id s')
    /\ disk s' = match accepted rs with
                 | [] => disk s
                 | _ :: _ => Some (Json.dumps (JDict (jobs s')))
                 end
    /\ trace s' = (trace s ++ t)%list
    /\ filter is_provider_call t = submit_calls resolve language rs
    /\ filter is_error_log t = submit_failures rs.
Proof.
  intros files rs. unfold submit_batch.
  destruct (submit_paths_answers (rglob (resolve directory)) language [] s)
    as (s' & t & Hr & Hw & Hj & Hd & Ht & Hc & He).
  fold files in Hr, Hw, Hj, Hd, Hc, He. fold rs in Hr, Hw, Hj, Hd, Hc, He.
  cbn [List.app] in Hr.
  exists s', t. split; [exact Hr|].
  split; [apply submissions_files|].
  split; [exact Hw|]. split; [exact Hj|].
  split.
  { destruct (submit_paths_ledger _ _ _ _ _ _ Hr) as (H1 & _);
      [intros id [] | exact H1]. }
  auto.
Qed.

End SubmitFacts.

(** ** Paths and job ids *)

Module PathFacts.
Import Paths.

Lemma rfind_app c (a b : string) :
  rfind c (a ++ b)
  = match rfind c b with
    | Some i => Some (String.length a + i)
    | None => rfind c a
    end.
Proof.
  induction a as [|x a IH]; cbn [String.append rfind String.length].
  - destruct (rfind c b); reflexivity.
  - rewrite IH. destruct (rfind c b); [reflexivity|].
    destruct (rfind c a); reflexivity.
Qed.

Lemma rfind_lt c (s : string) i : rfind c s = Some i -> i < String.length s.
Proof.
  revert i. induction s as [|x s IH]; cbn [rfind String.length]; intros i;
    [discriminate|].
  destruct (rfind c s) as [k|].
  - intros [= <-]. specialize (IH k eq_refl). lia.
  - destruct (Ascii.eqb x c); [|discriminate]. intros [= <-]. lia.
Qed.

Lemma rfind_drop c (s : string) i :
  rfind c s = Some i -> rfind c (drop (S i) s) = None.
Proof.
  revert i. induction s as [|x s IH]; cbn [rfind]; intros i; [discriminate|].
  destruct (rfind c s) as [k|] eqn:E.
  - intros [= <-]. cbn [drop]. now apply IH.
  - destruct (Ascii.eqb x c); [|discriminate]. intros [= <-]. exact E.
Qed.

Lemma drop_app n (a b : string) :
  n <= String.length a -> drop n (a ++ b) = drop n a ++ b.
Proof.
  revert n. induction a as [|x a IH]; intros [|n] H;
    cbn [String.length] in H; cbn [String.append drop];
    try reflexivity; try lia.
  apply IH. lia.
Qed.

Lemma drop_length_app (a b : string) n :
  drop (String.length a + n) (a ++ b) = drop n b.
Proof. induction a as [|x a IH]; cbn; [reflexivity | exact IH]. Qed.

Lemma take_length_app (a b : string) n :
  take (String.length a + n) (a ++ b) = a ++ take n b.
Proof. induction a as [|x a IH]; cbn; [reflexivity | now rewrite IH]. Qed.

Lemma take_drop n (s : string) : take n s ++ drop n s = s.
Proof.
  revert n. induction s as [|x s IH]; intros [|n]; cbn; try reflexivity.
  now rewrite IH.
Qed.

Lemma length_take_drop n (s : string) :
  String.length (take n s) + String.length (drop n s) = String.length s.
Proof.
  rewrite <- (take_drop n s) at 3. now rewrite JsonFacts.length_append.
Qed.

(** The name of a path that ends in a text without separator. *)
Lemma path_name_app x t :
  rfind "/" t = None ->
  exists pre x', x = pre ++ x' /\ path_name (x ++ t) = x' ++ t.
Proof.
  intros Ht. unfold path_name. rewrite rfind_app, Ht.
  destruct (rfind "/" x) as [i|] eqn:E.
  - exists (take (S i) x), (drop (S i) x). split.
    + symmetry. apply take_drop.
    + apply drop_app. apply rfind_lt in E. lia.
  - exists "", x. split; reflexivity.
Qed.

(** [with_suffix(".json")] changes nothing in a path that ends in
    [_transcript.json]. *)
Lemma with_suffix_transcript x :
  with_suffix (x ++ "_transcript.json") ".json" = Ok (x ++ "_transcript.json").
Proof.
  destruct (path_name_app x "_transcript.json" eq_refl) as (pre & x' & Hx & Hname).
  subst x.
  assert (Hsuf : path_suffix ((pre ++ x') ++ "_transcript.json") = ".json").
  { unfold path_suffix. rewrite Hname, rfind_app. cbn [rfind Ascii.eqb Bool.eqb].
    cbv iota. rewrite JsonFacts.length_append. cbn [String.length].
    replace ((0 <? String.length x' + 11)%nat) with true
      by (symmetry; apply Nat.ltb_lt; lia).
    replace ((String.length x' + 11 <? String.length x' + 16 - 1)%nat) with true
      by (symmetry; apply Nat.ltb_lt; lia).
    cbn [andb]. rewrite drop_length_app. reflexivity. }
  unfold with_suffix. cbn [contains rfind Ascii.eqb Bool.eqb]. cbv iota.
  replace ((negb (".json" =? "") && negb (startswith "." ".json") || (".json" =? "."))%bool)
    with false by reflexivity.
  cbv zeta. rewrite Hsuf, Hname.
  destruct (String.eqb (x' ++ "_transcript.json") "") eqn:E.
  { apply String.eqb_eq in E. destruct x'; discriminate E. }
  f_equal. rewrite !JsonFacts.length_append. cbn [String.length].
  replace (String.length pre + String.length x' + 16 - (String.length x' + 16))
    with (String.length pre + 0) by lia.
  replace (String.length x' + 16 - 5) with (String.length x' + 11) by lia.
  rewrite !JsonFacts.append_assoc.
  rewrite (take_length_app pre _ 0), (take_length_app x' _ 11).
  cbn [take]. rewrite !JsonFacts.append_assoc. reflexivity.
Qed.

(** *** What [Path] makes of a text *)

Lemma pieces_plain (s : string) :
  rfind "/" s = None -> pieces "/" s = (s, []).
Proof.
  induction s as [|a s IH]; cbn [rfind pieces]; [reflexivity|].
  destruct (rfind "/" s); [discriminate|].
  destruct (Ascii.eqb a "/"); [discriminate|].
  intros _. now rewrite IH.
Qed.

Lemma leading_plain (s : string) : rfind "/" s = None -> leading "/" s = 0.
Proof.
  destruct s as [|a s]; cbn [rfind leading]; [reflexivity|].
  destruct (rfind "/" s); [discriminate|].
  now destruct (Ascii.eqb a "/").
Qed.

(** A text without a slash that is neither empty nor a dot is a path of one
    component, printed as it is. *)
Lemma path_str_plain (s : string) :
  rfind "/" s = None -> kept_part s = true -> path_str s = s.
Proof.
  intros Hs Hk. unfold path_str, split.
  rewrite (leading_plain _ Hs), (pieces_plain _ Hs).
  cbn [filter]. rewrite Hk. cbn [join String.append].
  destruct s; [discriminate Hk | reflexivity].
Qed.

Lemma kept_transcript (l : string) : kept_part (l ++ "_transcript.json") = true.
Proof.
  unfold kept_part.
  assert (H : forall z, String.length z < 2 ->
                        String.eqb (l ++ "_transcript.json") z = false).
  { intros z Hz. apply String.eqb_neq. intros E.
    apply (f_equal String.length) in E.
    rewrite JsonFacts.length_append in E. cbn [String.length] in E. lia. }
  rewrite !H by (cbn; lia). reflexivity.
Qed.

(** The pieces of a text that ends in a text without slash: the last piece
    is longer by that text. *)
Lemma split_app (x t : string) :
  rfind "/" t = None ->
  exists init l,
    split "/" x = (init ++ [l])%list
    /\ split "/" (x ++ t) = (init ++ [(l ++ t)%string])%list.
Proof.
  intros Ht. unfold split.
  induction x as [|c x IH]; cbn [String.append pieces].
  - exists [], "". rewrite (pieces_plain _ Ht). split; reflexivity.
  - destruct IH as (init & l & H1 & H2).
    destruct (pieces "/" x) as [h tl], (pieces "/" (x ++ t)) as [h' tl'].
    destruct (Ascii.eqb c "/").
    + exists ("" :: init), l. cbn [List.app]. now rewrite H1, H2.
    + destruct init as [|i0 init]; cbn [List.app] in H1, H2.
      * injection H1 as -> ->. injection H2 as -> ->.
        exists [], (String c l). split; reflexivity.
      * injection H1 as -> ->. injection H2 as -> ->.
        exists (String c i0 :: init), l. split; reflexivity.
Qed.

Lemma join_last sep (l : list string) y :
  exists pre, join sep (l ++ [y]) = pre ++ y.
Proof.
  induction l as [|x l IH]; cbn [List.app join].
  - now exists "".
  - destruct IH as [pre IH].
    destruct (l ++ [y])%list as [|z r] eqn:E.
    + destruct l; discriminate E.
    + exists (x ++ sep ++ pre). rewrite IH.
      now rewrite !JsonFacts.append_assoc.
Qed.

(** The destination of a download ends in [_transcript.json], whatever the
    job id. *)
Lemma path_str_transcript (x : string) :
  exists y, path_str (x ++ "_transcript.json") = y ++ "_transcript.json".
Proof.
  destruct (split_app x "_transcript.json" eq_refl) as (init & l & _ & H).
  unfold path_str. rewrite H, filter_app. cbn [filter].
  rewrite kept_transcript.
  destruct (join_last "/" (filter kept_part init) (l ++ "_transcript.json"))
    as [pre ->].
  set (root := match leading "/" (x ++ "_transcript.json") with
               | 0 => "" | 2 => "//" | _ => "/" end).
  exists (root ++ pre ++ l).
  rewrite !JsonFacts.append_assoc.
  destruct (root ++ pre ++ l ++ "_transcript.json") eqn:E; [|reflexivity].
  apply (f_equal String.length) in E.
  rewrite !JsonFacts.length_append in E. cbn [String.length] in E. lia.
Qed.

(** For a job id without a slash the destination is the text itself. *)
Lemma path_str_transcript_plain (x : string) :
  contains "/" x = false ->
  path_str (x ++ "_transcript.json") = x ++ "_transcript.json".
Proof.
  unfold contains. intros Hx.
  apply path_str_plain; [|apply kept_transcript].
  rewrite rfind_app. cbn [rfind Ascii.eqb Bool.eqb]. cbv iota.
  now destruct (rfind "/" x).
Qed.

End PathFacts.

(** ** The Azure provider under the pipeline *)

Section AzureFacts.

Context {W : Type}.
Variable input_container : string.
Variable output_container : string.
Variable base_url : string.
Variable path_exists : string -> W -> bool.
Variable upload_blob : string -> string -> W -> result unit * W.
Variable time_int : W -> Z.
Variable http_post : string -> json -> W -> result (option string) * W.
Variable http_get_content : string -> W -> result string * W.
Variable write_bytes : string -> string -> W -> result unit * W.
Variable http_get_json : string -> W -> result json * W.

Implicit Types (s : @pipeline W).

(** X14. With the Azure provider the default [unknown] of [poll] is never
    used: when the service answers without a [status], [job_status] still
    gives a [state] key, with [None], so the entry's state becomes [null];
    the job stays pending and nothing is saved or downloaded. *)
Theorem azure_missing_status_stores_null job_id unfinished s data w meta :
  http_get_json (base_url ++ "/transcriptions/" ++ job_id) (world s)
  = (Ok (JDict data), w) ->
  Dict.get "status" data = None ->
  Dict.get job_id (jobs s) = Some (JDict meta) ->
  @poll_visit W
    (azure_provider input_container output_container base_url
           path_exists upload_blob time_int http_post http_get_content
           write_bytes http_get_json)
    job_id unfinished s
  = Returned unfinished
      (Pipeline w
         (Dict.set job_id (JDict (Dict.set "state" JNull meta)) (jobs s))
         (disk s)
         (trace s ++ [EStatus job_id (Ok [("state", JNull); ("raw", JDict data)]);
                      ELog (LogJobState job_id JNull)])%list).
Proof.
  intros Hget Hnone Hrec.
  assert (Hst : @job_status W
                  (azure_provider input_container output_container base_url
           path_exists upload_blob time_int http_post http_get_content
           write_bytes http_get_json)
                  job_id (world s)
                = (Ok [("state", JNull); ("raw", JDict data)], w)).
  { cbn [job_status azure_provider AzureBatchProvider]. unfold azure_job_status.
    rewrite Hget. unfold Dict.get_default. now rewrite Hnone. }
  rewrite (poll_visit_unfold _ unfinished _ _ _ _ Hst Hrec).
  reflexivity.
Qed.

(** X15. The job id [submit_job] returns is what follows the last slash of
    the [Location] header, so it holds no slash, and the destination the
    pipeline derives from it, [<job_id>_transcript.json], is a bare file
    name. *)
Theorem azure_job_id_has_no_slash media_path language w job_id w' :
  azure_submit_job input_container output_container base_url path_exists
    upload_blob time_int http_post media_path language w = (Ok job_id, w') ->
  Paths.contains "/" job_id = false
  /\ path_name (job_id ++ "_transcript.json") = job_id ++ "_transcript.json".
Proof.
  unfold azure_submit_job. intros H.
  destruct (if path_exists media_path w
            then upload_blob (path_name media_path) media_path w
            else (Ok tt, w)) as [[[]|e] w1]; [|discriminate H].
  destruct (http_post _ _ w1) as [[[job_url|]|e] w2]; try discriminate H.
  injection H as <- _.
  assert (Hno : rfind "/" (Paths.rsplit_last "/" job_url) = None).
  { unfold Paths.rsplit_last. destruct (rfind "/" job_url) as [i|] eqn:E;
      [now apply PathFacts.rfind_drop | exact E]. }
  split.
  - unfold Paths.contains. now rewrite Hno.
  - unfold path_name. rewrite PathFacts.rfind_app. cbn [rfind Ascii.eqb Bool.eqb].
    cbv iota. now rewrite Hno.
Qed.

Lemma azure_fetch_transcript job_id w :
  let dest := path_str (job_id ++ "_transcript.json") in
  azure_fetch_result output_container http_get_content write_bytes
    job_id dest w
  = match http_get_content
            (Paths.rstrip "/" output_container ++ "/" ++ job_id ++ ".json") w with
    | (Raise e, w1) => (Raise e, w1)
    | (Ok content, w1) =>
        match write_bytes dest content w1 with
        | (Raise e, w2) => (Raise e, w2)
        | (Ok _, w2) => (Ok dest, w2)
        end
    end.
Proof.
  cbv zeta. unfold azure_fetch_result.
  destruct (PathFacts.path_str_transcript job_id) as [y ->].
  now rewrite PathFacts.with_suffix_transcript.
Qed.

(** X16. With the Azure provider, a download that goes through writes the
    transcript at the very destination the pipeline asked for, which is what
    [Path] makes of [<job_id>_transcript.json], and that is the path read
    back from the entry's [result]; for a job id without a slash, as
    [submit_job] returns them, it is [<job_id>_transcript.json] itself. *)
Theorem azure_download_records_destination job_id s content w1 w2 meta :
  let dest := path_str (job_id ++ "_transcript.json") in
  http_get_content
    (Paths.rstrip "/" output_container ++ "/" ++ job_id ++ ".json") (world s)
  = (Ok content, w1) ->
  write_bytes dest content w1 = (Ok tt, w2) ->
  Dict.get job_id (jobs s) = Some (JDict meta) ->
  let ledger :=
    Dict.set job_id (JDict (Dict.set "result" (JStr dest) meta)) (jobs s) in
  @_download_result W
    (azure_provider input_container output_container base_url
           path_exists upload_blob time_int http_post http_get_content
           write_bytes http_get_json)
    job_id s
  = Returned tt
      (Pipeline w2 ledger (disk s)
         (trace s ++ [EFetch job_id dest (Ok dest);
                      ELog (LogDownloaded job_id dest)])%list)
  /\ record_field job_id "result" ledger = Some (JStr dest)
  /\ (Paths.contains "/" job_id = false ->
      dest = job_id ++ "_transcript.json").
Proof.
  intros dest Hget Hwrite Hrec ledger. split; [|split].
  - rewrite download_result_outcome. cbv zeta.
    cbn [fetch_result azure_provider AzureBatchProvider].
    rewrite azure_fetch_transcript. cbv zeta. fold dest.
    rewrite Hget, Hwrite.
    now rewrite (set_field_found _ _ _ _ _ Hrec).
  - unfold record_field, ledger. rewrite DictFacts.get_set_same.
    apply DictFacts.get_set_same.
  - apply PathFacts.path_str_transcript_plain.
Qed.

End AzureFacts.

(** ** Finished in the vendor's casing *)

Section VendorCasing.

Context {W : Type} {provider : AbstractTranscriptionProvider W}.

Lemma unfinished_includes (l : dict) :
  forall us j meta st,
    unfinished_of l = Ok us ->
    Dict.get j l = Some (JDict meta) ->
    Dict.get "state" meta = Some (JStr st) ->
    mem st terminal_states = false ->
    In j us.
Proof.
  induction l as [|[jid m] l IH]; cbn [unfinished_of Dict.get];
    intros us j meta st; [discriminate 2|].
  destruct (meta_get_state m) as [st0|] eqn:Hst; [|discriminate].
  destruct (py_in st0 terminal_states) as [b|] eqn:Hin; [|discriminate].
  destruct (unfinished_of l) as [us'|] eqn:Hus; [|discriminate].
  intros [= <-]. destruct (String.eqb j jid) eqn:E.
  - apply String.eqb_eq in E. subst jid. intros [= ->] Hsub Hmem.
    cbn [meta_get_state] in Hst. unfold Dict.get_default in Hst.
    rewrite Hsub in Hst. injection Hst as <-.
    cbn [py_in] in Hin. rewrite Hmem in Hin. injection Hin as <-. now left.
  - intros Hget Hsub Hmem. specialize (IH us' j meta st eq_refl Hget Hsub Hmem).
    destruct b; [exact IH | now right].
Qed.

(** X13. A job that was finished under the vendor's casing is pending
    again for the next [poll] on the same ledger: a record whose state is
    [Succeeded] or [Failed] is not excluded by the filter that opens [poll],
    which only knows [succeeded] and [failed]. *)
Theorem capitalised_state_is_pending_again (s : @pipeline W)
    job_id meta st pending :
  Dict.get job_id (jobs s) = Some (JDict meta) ->
  Dict.get "state" meta = Some (JStr st) ->
  st = "Succeeded" \/ st = "Failed" ->
  unfinished_of (jobs s) = Ok pending ->
  In job_id pending.
Proof.
  intros Hget Hstate Hst Hus.
  eapply unfinished_includes; try eassumption.
  destruct Hst; subst st; reflexivity.
Qed.

End VendorCasing.

(** ** The file after a submission *)

Section Restart.

Context {W : Type} {provider : AbstractTranscriptionProvider W}.
Variable time_time : W -> pyfloat.
Variable resolve : string -> string.

Lemma in_keys_set x k v (d : dict) :
  In x (Dict.keys (Dict.set k v d)) -> x = k \/ In x (Dict.keys d).
Proof.
  induction d as [|[k' v'] d IH]; cbn [Dict.set Dict.keys map fst].
  - intros [<-|[]]. now left.
  - destruct (String.eqb k k') eqn:E; cbn [map fst].
    + intros [<-|H]; [now left | right; now right].
    + intros [<-|H]; [right; now left|].
      destruct (IH H) as [->|H']; [now left | right; now right].
Qed.

Lemma wf_dict_set k v (d : dict) :
  wf_json (JDict d) -> wf_json v -> wf_json (JDict (Dict.set k v d)).
Proof.
  rewrite !JsonFacts.wf_dict. intros [Hnd Hall] Hv.
  induction d as [|[k' v'] d IH]; cbn [Dict.set].
  - split; [constructor; [intros [] | constructor] | now constructor].
  - inversion Hnd as [|? ? Hfresh Hnd']; subst.
    inversion Hall as [|? ? Hv' Hall']; subst.
    destruct (String.eqb k k') eqn:E.
    + apply String.eqb_eq in E. subst k'. split.
      * exact Hnd.
      * constructor; assumption.
    + destruct (IH Hnd' Hall') as [Hnd2 Hall2]. split.
      * cbn [Dict.keys map fst]. constructor; [|exact Hnd2].
        intros Hin. apply in_keys_set in Hin. destruct Hin as [->|Hin].
        -- now rewrite String.eqb_refl in E.
        -- contradiction.
      * constructor; assumption.
Qed.

(** X11. After [submit_single] has returned, a pipeline constructed on the
    same file starts from the ledger the first one holds: loading the file
    gives exactly the ledger in memory, new record included.  (The ledger it
    started from has distinct keys at every level, and the clock reading
    prints with digits after the point, as every Python float does.) *)
Theorem submit_single_survives_restart media language (s : @pipeline W) job_id s' :
  wf_json (JDict (jobs s)) ->
  (forall w, f_frac (time_time w) <> Nil) ->
  submit_single time_time resolve media language s = Returned job_id s' ->
  _load_jobs (disk s') = Ok (JDict (jobs s')).
Proof.
  intros Hwf Hclock H. apply submit_single_returned in H.
  destruct H as (w & _ & Hjobs & Hsync).
  rewrite Hsync. cbn [_load_jobs].
  rewrite JsonFacts.loads_dumps; [reflexivity|].
  rewrite Hjobs. apply wf_dict_set; [exact Hwf|].
  cbn. repeat split; try apply Hclock.
  repeat (constructor; [cbn; intuition discriminate|]). constructor.
Qed.

End Restart.

(** ** The setup script and the stand-alone application *)

Module SetupFacts.
Import Setup.

(** X17. [check_python_version] accepts exactly the versions from 3.7 on:
    major above 3, or major 3 with minor at least 7. *)
Theorem check_python_version_bound major minor rest version short :
  fst (check_python_version (major :: minor :: rest) version short) = true
  <-> (3 < major \/ (major = 3 /\ 7 <= minor))%Z.
Proof.
  unfold check_python_version. cbn [tuple_lt].
  destruct (major <? 3)%Z eqn:E1; [apply Z.ltb_lt in E1; cbn; split; [discriminate | lia]|].
  apply Z.ltb_ge in E1.
  destruct (3 <? major)%Z eqn:E2.
  { apply Z.ltb_lt in E2. cbn. split; [lia | reflexivity]. }
  apply Z.ltb_ge in E2.
  destruct (minor <? 7)%Z eqn:E3; [apply Z.ltb_lt in E3; cbn; split; [discriminate | lia]|].
  apply Z.ltb_ge in E3.
  destruct (7 <? minor)%Z; destruct rest; cbn; split; try reflexivity; lia.
Qed.

Lemma read_write_same name content fs :
  read name (write name content fs) = Some content.
Proof.
  induction fs as [|[n c] fs IH]; cbn [write read].
  - now rewrite String.eqb_refl.
  - destruct (String.eqb name n) eqn:E; cbn [read].
    + now rewrite String.eqb_refl.
    + now rewrite E.
Qed.

Lemma read_write_other name other content fs :
  other <> name -> read other (write name content fs) = read other fs.
Proof.
  intros Hne. apply String.eqb_neq in Hne.
  induction fs as [|[n c] fs IH]; cbn [write read].
  - now rewrite Hne.
  - destruct (String.eqb name n) eqn:E; cbn [read].
    + apply String.eqb_eq in E. subst n. now rewrite Hne.
    + now rewrite IH.
Qed.

(** X18. [setup_environment] never touches an existing [.env] nor any other
    file; it succeeds exactly when [.env] exists afterwards; a [.env] it
    creates holds the text of [.env.template]; and run a second time after a
    success it changes nothing. *)
Theorem setup_environment_is_safe fs :
  let '(ok, fs', _) := setup_environment fs in
  (forall name, name <> ".env" -> read name fs' = read name fs)
  /\ (read ".env" fs <> None -> fs' = fs)
  /\ (ok = true <-> read ".env" fs' <> None)
  /\ (read ".env" fs = None -> read ".env" fs' = read ".env.template" fs)
  /\ (ok = true -> setup_environment fs' = (true, fs', [EnvExists])).
Proof.
  unfold setup_environment.
  destruct (read ".env" fs) as [c|] eqn:Henv.
  - split; [|split; [|split; [|split]]].
    + reflexivity.
    + reflexivity.
    + rewrite Henv. split; [discriminate | reflexivity].
    + discriminate.
    + intros _. now rewrite Henv.
  - destruct (read ".env.template" fs) as [t|] eqn:Htpl.
    + split; [|split; [|split; [|split]]].
      * intros name Hne. now apply read_write_other.
      * intros H. now contradiction H.
      * rewrite read_write_same. split; [discriminate | reflexivity].
      * intros _. apply read_write_same.
      * intros _. now rewrite read_write_same.
    + split; [|split; [|split; [|split]]].
      * reflexivity.
      * reflexivity.
      * rewrite Henv. split; [discriminate | intros H; now contradiction H].
      * intros _. exact Henv.
      * discriminate.
Qed.

End SetupFacts.

Module LegacyFacts.
Import Legacy Paths.

Lemma length_take n (s : string) :
  String.length (take n s) = Nat.min n (String.length s).
Proof.
  revert n. induction s as [|x s IH]; intros [|n]; cbn; try reflexivity.
  now rewrite IH.
Qed.

Lemma take_all n (s : string) : String.length s <= n -> take n s = s.
Proof.
  revert n. induction s as [|x s IH]; intros [|n] H; cbn in *;
    try reflexivity; try lia.
  rewrite IH; [reflexivity | lia].
Qed.

(** X19. The preview printed in single-file mode is the transcription
    itself when it has at most 500 characters, and otherwise its first 500
    characters followed by three dots; it is never longer than 503
    characters. *)
Theorem preview_is_bounded transcription :
  String.length (preview transcription) <= 503
  /\ (String.length transcription <= 500 -> preview transcription = transcription)
  /\ (500 < String.length transcription ->
      preview transcription = take 500 transcription ++ "..."
      /\ String.length (preview transcription) = 503).
Proof.
  unfold preview.
  destruct (500 <? String.length transcription)%nat eqn:E.
  - apply Nat.ltb_lt in E. rewrite JsonFacts.length_append, length_take.
    cbn [String.length]. repeat split; try lia.
  - apply Nat.ltb_ge in E. rewrite JsonFacts.append_nil_r, length_take.
    repeat split; try lia. intros _. now apply take_all.
Qed.

Section ProcessFileFacts.

Context {W R : Type}.
Variable path_exists : string -> W -> bool.
Variable process_video : string -> string -> bool -> W -> result R * W.
Variable process_audio : string -> string -> W -> result R * W.

(** X20. Every file the batch pipeline would submit is a file the
    stand-alone application takes too: when the file exists, [process_file]
    hands [.mp4] and [.mkv] to [process_video] and [.wav], [.mp3] and
    [.flac] to [process_audio], in any casing of the suffix, and raises
    neither [FileNotFoundError] nor [ValueError] of its own. *)
Theorem process_file_takes_pipeline_media file_path language save_audio w :
  supported file_path = true ->
  path_exists file_path w = true ->
  process_file path_exists process_video process_audio
    file_path language save_audio w
  = if mem (lower (path_suffix file_path)) [".mp4"; ".mkv"]
    then process_video file_path language save_audio w
    else process_audio file_path language w.
Proof.
  intros Hs He. unfold process_file. rewrite He. cbn [negb].
  unfold supported in Hs. revert Hs.
  generalize (lower (path_suffix file_path)). intros suffix Hs.
  unfold mem in *. cbn [existsb] in Hs.
  repeat (apply orb_prop in Hs; destruct Hs as [Hs|Hs]);
    try discriminate Hs; apply String.eqb_eq in Hs; subst suffix; reflexivity.
Qed.

End ProcessFileFacts.

End LegacyFacts.

(** ** The text of the ledger file *)

Module FileText.
Import Json.

Lemma all_plain_app (a b : string) :
  all_plain (a ++ b) = all_plain a && all_plain b.
Proof.
  induction a as [|x a IH]; cbn [String.append all_plain]; [reflexivity|].
  now rewrite IH, andb_assoc.
Qed.

Lemma plain_escape_char c : all_plain (escape_char c) = true.
Proof. destruct c as [[|] [|] [|] [|] [|] [|] [|] [|]]; reflexivity. Qed.

Lemma plain_escape s : all_plain (escape s) = true.
Proof.
  induction s as [|c s IH]; [reflexivity|]. cbn [escape].
  now rewrite all_plain_app, plain_escape_char, IH.
Qed.

Lemma plain_encode_str s : all_plain (encode_str s) = true.
Proof.
  unfold encode_str. cbn [all_plain].
  now rewrite all_plain_app, plain_escape.
Qed.

Lemma plain_uint u : all_plain (NilEmpty.string_of_uint u) = true.
Proof. induction u; cbn; try assumption; reflexivity. Qed.

Lemma plain_int_repr z : all_plain (int_repr z) = true.
Proof.
  unfold int_repr. destruct (Z.to_int z); cbn [NilEmpty.string_of_int all_plain];
    rewrite plain_uint; reflexivity.
Qed.

Lemma plain_float_repr f : all_plain (float_repr f) = true.
Proof.
  unfold float_repr. rewrite !all_plain_app, !plain_uint.
  destruct (f_neg f); reflexivity.
Qed.

Lemma plain_spaces n : all_plain (spaces n) = true.
Proof. induction n; cbn; [reflexivity | assumption]. Qed.

Lemma plain_newline_indent level : all_plain (newline_indent level) = true.
Proof. unfold newline_indent. cbn [all_plain]. now rewrite plain_spaces. Qed.

Lemma plain_items {A} (enc : A -> string) sep close l :
  Forall (fun x => all_plain (enc x) = true) l ->
  all_plain sep = true -> all_plain close = true ->
  all_plain (items enc sep close l) = true.
Proof.
  intros Hall Hsep Hclose. induction Hall as [|x l Hx _ IH]; cbn [items];
    [exact Hclose|].
  now rewrite !all_plain_app, Hsep, Hx, IH.
Qed.

Lemma plain_iterencode v : forall level, all_plain (iterencode level v) = true.
Proof.
  induction v using json_rect'; intros level.
  - reflexivity.
  - destruct b; reflexivity.
  - apply plain_int_repr.
  - apply plain_float_repr.
  - apply plain_encode_str.
  - destruct l as [|x xs]; [reflexivity|].
    inversion H as [|? ? Hx Hxs]; subst. cbn [iterencode].
    rewrite !all_plain_app, plain_newline_indent, Hx.
    rewrite plain_items; [reflexivity | | | ].
    + eapply Forall_impl; [|exact Hxs]. intros a Ha. apply Ha.
    + cbn [String.append all_plain]. now rewrite plain_newline_indent.
    + now rewrite all_plain_app, plain_newline_indent.
  - destruct d as [|[k x] kvs]; [reflexivity|].
    inversion H as [|? ? Hx Hxs]; subst. cbn [snd] in Hx. cbn [iterencode].
    rewrite !all_plain_app, plain_newline_indent, plain_encode_str, Hx.
    rewrite plain_items; [reflexivity | | | ].
    + eapply Forall_impl; [|exact Hxs]. intros a Ha.
      now rewrite !all_plain_app, plain_encode_str, Ha.
    + cbn [String.append all_plain]. now rewrite plain_newline_indent.
    + now rewrite all_plain_app, plain_newline_indent.
Qed.

(** X21. Whatever [_save_jobs] writes is plain ASCII: every character of
    the ledger file is printable ASCII or a newline, whatever characters the
    job ids, paths and states hold. *)
Theorem saved_ledger_is_plain_ascii {W : Type} (s : @pipeline W) :
  match disk (state_of (_save_jobs s)) with
  | Some text => all_plain text = true
  | None => False
  end.
Proof. cbn [_save_jobs state_of disk]. apply plain_iterencode. Qed.

End FileText.

(** ** The file after a poll *)

Section PollRestart.

Context {W : Type} {provider : AbstractTranscriptionProvider W}.

Implicit Types (s : @pipeline W).

Lemma keeps_wf_refl s : keeps_wf s s.
Proof. intros H. exact H. Qed.

Lemma keeps_wf_trans s1 s2 s3 : keeps_wf s1 s2 -> keeps_wf s2 s3 -> keeps_wf s1 s3.
Proof. unfold keeps_wf. auto. Qed.

Lemma keeps_wf_same_jobs s s' : jobs s' = jobs s -> keeps_wf s s'.
Proof. intros E H. now rewrite E. Qed.

Lemma wf_get k (d : dict) v :
  wf_json (JDict d) -> Dict.get k d = Some v -> wf_json v.
Proof.
  rewrite JsonFacts.wf_dict. intros [_ Hall].
  induction d as [|[k' v'] d IH]; cbn [Dict.get]; [discriminate|].
  inversion Hall as [|? ? Hv' Hall']; subst.
  destruct (String.eqb k k'); [intros [= <-]; exact Hv' | now apply IH].
Qed.

Lemma keeps_wf_set_field job_id field v :
  wf_json v ->
  preserves keeps_wf
    (fun s : @pipeline W =>
       match set_field job_id field v (jobs s) with
       | Ok l => Returned tt (with_jobs l s)
       | Raise e => Raised e s
       end).
Proof.
  intros Hv s. unfold set_field.
  destruct (Dict.get job_id (jobs s)) as [[| | | | | |meta]|] eqn:Hget;
    try apply keeps_wf_refl.
  intros Hwf. cbn [state_of with_jobs jobs].
  apply wf_dict_set; [exact Hwf|].
  apply wf_dict_set; [|exact Hv]. eapply wf_get; eassumption.
Qed.

Lemma keeps_wf_visit job_id unfinished :
  reports_wf_states provider ->
  preserves keeps_wf (poll_visit job_id unfinished).
Proof.
  intros Hrep s. unfold poll_visit. unfold bind at 1. unfold call_status.
  destruct (job_status job_id (world s)) as [[status|e] w] eqn:Hst;
    [|now apply keeps_wf_same_jobs].
  cbn [lift ret]. revert s Hst. 
  intros s Hst.
  match goal with
  | |- keeps_wf s (state_of (?k ?s0)) =>
      assert (Hk : preserves keeps_wf k); [|exact (keeps_wf_trans s s0 _ (keeps_wf_same_jobs s s0 eq_refl) (Hk s0))]
  end.
  apply (keeps_bind _ keeps_wf_trans).
  { apply keeps_wf_set_field. eapply Hrep, Hst. }
  intros _. apply (keeps_bind _ keeps_wf_trans).
  { intros s0. now apply keeps_wf_same_jobs. }
  intros _. apply (keeps_bind _ keeps_wf_trans);
    [apply (keeps_lift _ keeps_wf_refl)|].
  intros [|]; [|apply (keeps_ret _ keeps_wf_refl)].
  apply (keeps_bind _ keeps_wf_trans).
  - assert (Hd : preserves keeps_wf (_download_result job_id)).
    { unfold _download_result. apply (keeps_try_except _ keeps_wf_trans).
      - apply (keeps_bind _ keeps_wf_trans).
        + intros s0. unfold call_fetch.
          destruct (fetch_result _ _ (world s0)) as [[?|?] w0];
            now apply keeps_wf_same_jobs.
        + intros path. apply (keeps_bind _ keeps_wf_trans).
          * apply keeps_wf_set_field. exact I.
          * intros _ s0. now apply keeps_wf_same_jobs.
      - intros e s0. now apply keeps_wf_same_jobs. }
    destruct (Dict.get_default "state" status (JStr "unknown"));
      try apply (keeps_ret _ keeps_wf_refl).
    destruct (startswith "succ" (lower s0));
      [exact Hd | apply (keeps_ret _ keeps_wf_refl)].
  - intros _. apply (keeps_bind _ keeps_wf_trans).
    + intros s0. now apply keeps_wf_same_jobs.
    + intros _. apply (keeps_ret _ keeps_wf_refl).
Qed.

Lemma keeps_wf_sweep snapshot :
  reports_wf_states provider ->
  forall unfinished, preserves keeps_wf (poll_sweep snapshot unfinished).
Proof.
  intros Hrep. induction snapshot as [|job_id rest IH]; intros unfinished;
    cbn [poll_sweep].
  - apply (keeps_ret _ keeps_wf_refl).
  - apply (keeps_bind _ keeps_wf_trans);
      [now apply keeps_wf_visit | intros u; apply IH].
Qed.

Lemma keeps_wf_loop fuel interval_sec :
  reports_wf_states provider ->
  forall unfinished, preserves keeps_wf (poll_loop fuel interval_sec unfinished).
Proof.
  intros Hrep. induction fuel as [|fuel IH]; intros [|u0 us]; cbn [poll_loop];
    try apply (keeps_ret _ keeps_wf_refl).
  - intros s. apply keeps_wf_refl.
  - apply (keeps_bind _ keeps_wf_trans); [now apply keeps_wf_sweep|].
    intros [|u1 us1]; [apply (keeps_ret _ keeps_wf_refl)|].
    apply (keeps_bind _ keeps_wf_trans); [|intros _; apply IH].
    intros s. unfold sleep. destruct (interval_sec <? 0)%Z;
      now apply keeps_wf_same_jobs.
Qed.

(** X22. After [poll] has returned from a run with something pending, a
    pipeline constructed on the same file starts from the ledger the first
    one holds: loading the file gives exactly the ledger in memory, with
    every state and result [poll] wrote.  (The ledger it started from has
    distinct keys at every level, and so has every state the provider
    reports.) *)
Theorem poll_survives_restart fuel interval_sec s s' pending :
  reports_wf_states provider ->
  wf_json (JDict (jobs s)) ->
  unfinished_of (jobs s) = Ok pending ->
  pending <> [] ->
  poll fuel interval_sec s = Returned tt s' ->
  _load_jobs (disk s') = Ok (JDict (jobs s')).
Proof.
  intros Hrep Hwf Hus Hne Hp.
  assert (Hnd : NoDup (Dict.keys (jobs s)))
    by (apply JsonFacts.wf_dict in Hwf; tauto).
  rewrite (poll_returned_synced _ _ _ _ _ Hnd Hus Hne Hp).
  cbn [_load_jobs]. rewrite JsonFacts.loads_dumps; [reflexivity|].
  assert (Hk : keeps_wf s (state_of (poll fuel interval_sec s))).
  { unfold poll. apply (keeps_bind _ keeps_wf_trans).
    - intros s0. destruct (unfinished_of (jobs s0)); apply keeps_wf_refl.
    - intros [|u0 us]; [|now apply keeps_wf_loop].
      intros s0. now apply keeps_wf_same_jobs. }
  rewrite Hp in Hk. now apply Hk.
Qed.

End PollRestart.

(** ** More concrete runs *)

Module MoreRuns.
Import Scripted Stub.

Lemma nodup2 (a b : string) : a <> b -> NoDup [a; b].
Proof.
  intros H. constructor; [intros [E|[]]; now apply H | ].
  constructor; [intros [] | constructor].
Defined.

Lemma nodup_one (a : string) : NoDup [a].
Proof. constructor; [intros [] | constructor]. Defined.

Lemma poll_returns_with_all_finished_witness :
  finished_in "j1" (state_of (@poll _ azure 1 30 succeeded_run)).
Proof.
  apply (@poll_returns_with_all_finished _ azure 1 30 succeeded_run
           (state_of (@poll _ azure 1 30 succeeded_run)) ["j1"]).
  - apply nodup_one.
  - reflexivity.
  - reflexivity.
  - now left.
Defined.

Lemma poll_returns_with_ledger_saved_witness :
  synced (state_of (@poll _ azure 1 30 succeeded_run)).
Proof.
  apply (@poll_returns_with_ledger_saved _ azure 1 30 succeeded_run
           (state_of (@poll _ azure 1 30 succeeded_run)) ["j1"]).
  - apply nodup_one.
  - reflexivity.
  - discriminate.
  - reflexivity.
Defined.

Lemma poll_status_error_aborts_witness :
  @poll _ azure 3 30 failing_run
  = Raised http_500
      (Pipeline (Script [] [] []) (jobs failing_run) (disk failing_run)
         (trace failing_run ++ [EStatus "j1" (Raise http_500)])%list).
Proof.
  apply (@poll_status_error_aborts _ azure 2 30 failing_run [] "j1" ["j2"]
           ["j1"; "j2"] failing_run http_500 (Script [] [] []));
    reflexivity.
Defined.

Lemma poll_negative_interval_raises_witness :
  @poll _ azure 4 (-1) running_run
  = Raised (Exn "ValueError" "sleep length must be non-negative")
      (state_of (@poll_sweep _ azure ["j1"] ["j1"] running_run)).
Proof.
  apply (@poll_negative_interval_raises _ azure 3 (-1)%Z running_run ["j1"]
           "j1" []); reflexivity.
Defined.

Lemma done_always_finished : always_finished done.
Proof.
  intros job_id w. exists [("state", JStr "succeeded")], w, "succeeded".
  repeat split.
Defined.

Lemma poll_returns_after_one_sweep_witness :
  exists s' t,
    @poll _ done 1 30 done_run = Returned tt s'
    /\ trace s' = (trace done_run ++ t)%list
    /\ never_slept t = true.
Proof.
  apply (@poll_returns_after_one_sweep _ done 0 30 done_run ["j1"; "j2"]).
  - exact done_always_finished.
  - reflexivity.
Defined.

Lemma poll_rejects_malformed_ledger_witness :
  exists e, @poll _ azure 2 30 malformed_run = Raised e malformed_run.
Proof.
  apply (@poll_rejects_malformed_ledger _ azure 2 30 malformed_run).
  reflexivity.
Defined.

Lemma capitalised_state_is_pending_again_witness : In "j1" ["j1"].
Proof.
  apply (capitalised_state_is_pending_again capitalised_run "j1"
           [("file", JStr "/media/a.mp4");
            ("submitted", JFloat (PyFloat false 1730000000 (D5 Nil)));
            ("language", JStr "en-US");
            ("state", JStr "Succeeded")] "Succeeded" ["j1"]).
  - reflexivity.
  - reflexivity.
  - now left.
  - reflexivity.
Defined.

Lemma submitted_job_is_pending_witness : In "j1" ["j1"].
Proof.
  apply (@submitted_job_is_pending _ azure clock (fun p => p)
           "/media/a.mp4" "en-US" submit_run "j1"
           (state_of (@submit_single _ azure clock (fun p => p)
                        "/media/a.mp4" "en-US" submit_run))
           ["j1"]); reflexivity.
Defined.

Lemma submit_single_touches_one_entry_witness :
  let s' := state_of (@submit_single _ azure clock (fun p => p)
                        "/media/b.wav" "en-US"
                        (start (Script [Ok "j1"] [] [])
                           [("j0", meta "running"); ("j1", meta "succeeded")])) in
  (forall j, j <> "j1" ->
     Dict.get j (jobs s')
     = Dict.get j [("j0", meta "running"); ("j1", meta "succeeded")])
  /\ (~ In "j1" ["j0"; "j1"] -> Dict.keys (jobs s') = (["j0"; "j1"] ++ ["j1"])%list)
  /\ (In "j1" ["j0"; "j1"] ->
      Dict.keys (jobs s') = ["j0"; "j1"]
      /\ record_field "j1" "state" (jobs s') = Some (JStr "submitted")
      /\ record_field "j1" "result" (jobs s') = None).
Proof.
  apply (@submit_single_touches_one_entry _ azure clock (fun p => p)
           "/media/b.wav" "en-US"
           (start (Script [Ok "j1"] [] [])
              [("j0", meta "running"); ("j1", meta "succeeded")]) "j1").
  reflexivity.
Defined.

Lemma submit_batch_records_every_id_witness :
  let s' := state_of (@submit_batch _ azure clock (fun p => p) listing
                        "/media" "en-US" batch_run) in
  (forall id, In id ["j1"] -> submitted_in id s')
  /\ incl (Dict.keys (jobs batch_run)) (Dict.keys (jobs s')).
Proof.
  apply (@submit_batch_records_every_id _ azure clock (fun p => p) listing
           "/media" "en-US" batch_run ["j1"]).
  reflexivity.
Defined.

Lemma submit_batch_keeps_file_in_step_witness :
  let s' := state_of (@submit_batch _ azure clock (fun p => p) listing
                        "/media" "en-US" batch_run) in
  (["j1"] = [] -> jobs s' = jobs batch_run /\ disk s' = disk batch_run)
  /\ (["j1"] <> [] -> synced s').
Proof.
  apply (@submit_batch_keeps_file_in_step _ azure clock (fun p => p) listing
           "/media" "en-US" batch_run ["j1"]).
  reflexivity.
Defined.

Lemma submit_batch_isolates_failures_witness :
  let files := ["/media/a.mp4"; "/media/b.WAV"] in
  let rs := [("/media/a.mp4", Raise http_500, Script [Ok "j2"] [] []);
             ("/media/b.WAV", Ok "j2", Script [] [] [])] in
  exists s' t,
    @submit_batch _ azure clock (fun p => p) listing "/media" "en-US"
      refused_first_run
    = Returned ["j2"] s'
    /\ map (fun a => fst (fst a)) rs = files
    /\ world s' = Script [] [] []
    /\ jobs s'
       = [("j2", JDict [("file", JStr "/media/b.WAV");
                        ("submitted", JFloat (PyFloat false 1730000000 (D5 Nil)));
                        ("language", JStr "en-US");
                        ("state", JStr "submitted")])]
    /\ (forall job_id, In job_id ["j2"] -> submitted_in job_id s')
    /\ disk s' = Some (Json.dumps (JDict (jobs s')))
    /\ trace s' = (trace refused_first_run ++ t)%list
    /\ filter is_provider_call t
       = [ESubmit "/media/a.mp4" "en-US" (Raise http_500);
          ESubmit "/media/b.WAV" "en-US" (Ok "j2")]
    /\ filter is_error_log t = [ELog (LogSubmitFailed "a.mp4" http_500)].
Proof.
  exact (@submit_batch_isolates_failures _ azure clock (fun p => p) listing
           "/media" "en-US" refused_first_run).
Defined.

Lemma submit_single_survives_restart_witness :
  let s' := state_of (@submit_single _ azure clock (fun p => p)
                        "/media/a.mp4" "en-US" submit_run) in
  _load_jobs (disk s') = Ok (JDict (jobs s')).
Proof.
  apply (@submit_single_survives_restart _ azure clock (fun p => p)
           "/media/a.mp4" "en-US" submit_run "j1").
  - cbn. split; [constructor | exact I].
  - intros w. discriminate.
  - reflexivity.
Defined.

Lemma azure_missing_status_stores_null_witness :
  @poll_visit _ azure_full "j1" ["j1"] no_status_run
  = Returned ["j1"]
      (Pipeline (Script [] [] [])
         (Dict.set "j1"
            (JDict (Dict.set "state" JNull
                      [("file", JStr "/media/a.mp4");
                       ("submitted", JFloat (PyFloat false 1730000000 (D5 Nil)));
                       ("language", JStr "en-US");
                       ("state", JStr "submitted")]))
            (jobs no_status_run))
         (disk no_status_run)
         (trace no_status_run
            ++ [EStatus "j1" (Ok [("state", JNull);
                                  ("raw", JDict [("self", JStr "j1")])]);
                ELog (LogJobState "j1" JNull)])%list).
Proof.
  apply (azure_missing_status_stores_null
           "https://acct.blob.core.windows.net/in/"
           "https://acct.blob.core.windows.net/out/"
           "https://eastus.api.cognitive.microsoft.com/speechtotext/v3.1"
           exists_never upload_ok now post_created get_content write_ok
           Scripted.http_get_json "j1" ["j1"] no_status_run
           [("self", JStr "j1")] (Script [] [] [])); reflexivity.
Defined.

Lemma azure_job_id_has_no_slash_witness :
  Paths.contains "/" "abc-123" = false
  /\ path_name ("abc-123" ++ "_transcript.json") = "abc-123" ++ "_transcript.json".
Proof.
  apply (azure_job_id_has_no_slash
           "https://acct.blob.core.windows.net/in/"
           "https://acct.blob.core.windows.net/out/"
           "https://eastus.api.cognitive.microsoft.com/speechtotext/v3.1"
           exists_never upload_ok now post_created
           "/media/a.mp4" "en-US" (Script [] [] []) "abc-123" (Script [] [] [])).
  reflexivity.
Defined.

Lemma azure_download_records_destination_witness :
  let ledger :=
    Dict.set "j1"
      (JDict (Dict.set "result" (JStr "j1_transcript.json")
                [("file", JStr "/media/a.mp4");
                 ("submitted", JFloat (PyFloat false 1730000000 (D5 Nil)));
                 ("language", JStr "en-US");
                 ("state", JStr "submitted")]))
      (jobs succeeded_run) in
  @_download_result _ azure_full "j1" succeeded_run
  = Returned tt
      (Pipeline (world succeeded_run) ledger (disk succeeded_run)
         (trace succeeded_run
            ++ [EFetch "j1" "j1_transcript.json" (Ok "j1_transcript.json");
                ELog (LogDownloaded "j1" "j1_transcript.json")])%list)
  /\ record_field "j1" "result" ledger = Some (JStr "j1_transcript.json")
  /\ (Paths.contains "/" "j1" = false ->
      "j1_transcript.json" = "j1" ++ "_transcript.json").
Proof.
  apply (azure_download_records_destination
           "https://acct.blob.core.windows.net/in/"
           "https://acct.blob.core.windows.net/out/"
           "https://eastus.api.cognitive.microsoft.com/speechtotext/v3.1"
           exists_never upload_ok now post_created get_content write_ok
           Scripted.http_get_json "j1" succeeded_run "{}"
           (world succeeded_run) (world succeeded_run)); reflexivity.
Defined.

Lemma process_file_takes_pipeline_media_witness :
  Legacy.process_file exists_always ran_video ran_audio
    "/media/Talk.FLAC" "en-US" false tt
  = if mem (lower (path_suffix "/media/Talk.FLAC")) [".mp4"; ".mkv"]
    then ran_video "/media/Talk.FLAC" "en-US" false tt
    else ran_audio "/media/Talk.FLAC" "en-US" tt.
Proof.
  apply (LegacyFacts.process_file_takes_pipeline_media exists_always
           ran_video ran_audio "/media/Talk.FLAC" "en-US" false tt);
    reflexivity.
Defined.

Lemma done_reports_wf_states : reports_wf_states done.
Proof. intros job_id w status w' [= <- _]. exact I. Defined.

Lemma poll_survives_restart_witness :
  let s' := state_of (@poll _ done 1 30 done_run) in
  _load_jobs (disk s') = Ok (JDict (jobs s')).
Proof.
  apply (@poll_survives_restart _ done 1 30 done_run
           (state_of (@poll _ done 1 30 done_run)) ["j1"; "j2"]).
  - exact done_reports_wf_states.
  - cbn [wf_json jobs done_run Dict.keys map fst]. split.
    + apply nodup2. discriminate.
    + exact (conj (Runs.wf_meta "submitted") (conj (Runs.wf_meta "running") I)).
  - reflexivity.
  - discriminate.
  - vm_compute. reflexivity.
Defined.

End MoreRuns.
